(** * Durable external-process pipeline: shell commands and nmap scans

    A shallow embedding of [generic/workflows.py], [generic/mcp_server.py],
    [generic/worker.py], [generic/nmap/workflows.py],
    [generic/nmap/mcp_server.py] and [generic/nmap/worker.py], followed by
    the properties of the pipeline (validation, execution, structuring,
    orchestration policy, starting and polling tasks, connecting).

    Conventions of the embedding.
    - A Python [str] is a [string]; a character is a code point below 256
      (the Latin-1 range), which is where every literal of the program lives.
    - A Python [int] is a [Z].
    - A function that may raise returns [res A]: [Ok a] or [Raise e]; code
      that also reads and writes module state runs in [M S].
    - What the program takes from Python's library is written out as far
      as the program uses it ([str] methods, [repr], [int], [shlex.split],
      element lookups); what it takes from the host (spawning a process,
      decoding bytes, parsing XML text, connecting to the engine) is a
      [Variable] of the section that uses it.
    - Logging calls have no effect on any result and are left out; the
      heartbeat loop of the execute stages only passes time until both
      pipes are drained and is not part of what a stage returns. *)

From Stdlib Require Import String Ascii ZArith List Lia Bool DecimalString Decimal.
From stdpp Require Import gmap strings.
Import ListNotations.

Local Open Scope Z_scope.

(* ===================================================================== *)
(** ** Exceptions and the error monad                                     *)
(* ===================================================================== *)

Inductive exn : Type :=
| ValueError (msg : string)
| RuntimeError (msg : string)
| ParseError (msg : string)          (* xml.etree.ElementTree.ParseError *)
| OSError (msg : string)             (* the process could not be spawned *)
| RPCError (msg : string)            (* temporalio.service.RPCError *)
| ActivityError (cause : exn)        (* engine: the stage used up its attempts *)
| WorkflowFailureError (msg : string).

Inductive res (A : Type) : Type :=
| Ok (a : A)
| Raise (e : exn).
Arguments Ok {A} a.
Arguments Raise {A} e.

Definition res_bind {A B : Type} (m : res A) (k : A -> res B) : res B :=
  match m with
  | Ok a => k a
  | Raise e => Raise e
  end.

#[global] Instance res_ret : MRet res := @Ok.
#[global] Instance res_mbind : MBind res := fun A B k m => res_bind m k.

#[global] Instance res_fmap : FMap res := fun A B f m =>
  match m with
  | Ok a => Ok (f a)
  | Raise e => Raise e
  end.

Definition is_ok {A : Type} (m : res A) : bool :=
  match m with Ok _ => true | Raise _ => false end.

(* ===================================================================== *)
(** ** Python built-ins on [str] and [int]                                *)
(* ===================================================================== *)

Module Py.

(** Truth value of a string: only the empty string is falsy. *)
Definition truthy (s : string) : bool :=
  match s with EmptyString => false | String _ _ => true end.

Definition chars (s : string) : list ascii := list_ascii_of_string s.

Definition code (c : ascii) : N := N_of_ascii c.

Definition between (lo hi : N) (c : ascii) : bool :=
  ((lo <=? code c) && (code c <=? hi))%N.

(** [str.isspace] on one character: TAB..CR, FS..US, space, NEL, NBSP. *)
Definition isspace (c : ascii) : bool :=
  between 9 13 c || between 28 32 c || (code c =? 133)%N || (code c =? 160)%N.

Fixpoint lstrip (s : string) : string :=
  match s with
  | EmptyString => EmptyString
  | String c s' => if isspace c then lstrip s' else s
  end.

Fixpoint rstrip (s : string) : string :=
  match s with
  | EmptyString => EmptyString
  | String c s' =>
      match rstrip s' with
      | EmptyString => if isspace c then EmptyString else String c EmptyString
      | r => String c r
      end
  end.

(** [s.strip()] *)
Definition strip (s : string) : string := rstrip (lstrip s).

(** [str.lower] on one character: A..Z and the Latin-1 capitals. *)
Definition lower_char (c : ascii) : ascii :=
  if between 65 90 c || between 192 214 c || between 216 222 c
  then ascii_of_N (code c + 32)
  else c.

Fixpoint lower (s : string) : string :=
  match s with
  | EmptyString => EmptyString
  | String c s' => String (lower_char c) (lower s')
  end.

(** [s.split(sep, 1)] for a one-character separator: one or two pieces. *)
Fixpoint split1 (sep : ascii) (s : string) : list string :=
  match s with
  | EmptyString => [EmptyString]
  | String c s' =>
      if Ascii.eqb c sep then [EmptyString; s']
      else match split1 sep s' with
           | [] => [String c EmptyString]
           | p :: ps => String c p :: ps
           end
  end.

(** [l[0]] on a list that [split] returned (never empty). *)
Definition item0 (l : list string) : string := hd EmptyString l.

(** [sep.join(parts)] *)
Fixpoint join (sep : string) (parts : list string) : string :=
  match parts with
  | [] => EmptyString
  | [p] => p
  | p :: ps => p +:+ sep +:+ join sep ps
  end.

(** [s[:n]] for [n >= 0] *)
Fixpoint slice_to (n : nat) (s : string) : string :=
  match n, s with
  | O, _ => EmptyString
  | _, EmptyString => EmptyString
  | S n', String c s' => String c (slice_to n' s')
  end.

(** [len(s)] *)
Definition len (s : string) : Z := Z.of_nat (String.length s).

(** [str(n)] and [f"{n}"] for an int: decimal, with [-] for negatives. *)
Definition str_of_int (n : Z) : string := NilZero.string_of_int (Z.to_int n).

(** [s.startswith(p)] *)
Definition startswith (p s : string) : bool := String.prefix p s.

(** Remove the first [n] characters. *)
Fixpoint drop (n : nat) (s : string) : string :=
  match n, s with
  | O, _ => s
  | _, EmptyString => EmptyString
  | S n', String _ s' => drop n' s'
  end.

(** The text [sub] occurs in [s] (Python's [sub in s]). *)
Fixpoint contains (sub s : string) : bool :=
  String.prefix sub s
  || match s with
     | EmptyString => false
     | String _ s' => contains sub s'
     end.

Definition squote : ascii := "039"%char.
Definition dquote : ascii := "034"%char.
Definition backslash : ascii := "092"%char.

Definition hex_digit (n : N) : ascii :=
  if (n <? 10)%N then ascii_of_N (48 + n) else ascii_of_N (87 + n).

(** [\xNN] with two lower-case hexadecimal digits. *)
Definition hex_escape (c : ascii) : string :=
  String backslash
    (String "x" (String (hex_digit (code c / 16))
                        (String (hex_digit (code c mod 16)) EmptyString))).

(** A character [repr] prints as itself: the printable ASCII range and,
    above it, everything from U+00A1 on except the soft hyphen. *)
Definition isprintable (c : ascii) : bool :=
  between 32 126 c || (between 161 255 c && negb (code c =? 173)%N).

Definition repr_char (quote : ascii) (c : ascii) : string :=
  if Ascii.eqb c quote || Ascii.eqb c backslash
  then String backslash (String c EmptyString)
  else if (code c =? 9)%N then String backslash "t"
  else if (code c =? 10)%N then String backslash "n"
  else if (code c =? 13)%N then String backslash "r"
  else if isprintable c then String c EmptyString
  else hex_escape c.

Fixpoint repr_body (quote : ascii) (s : string) : string :=
  match s with
  | EmptyString => EmptyString
  | String c s' => repr_char quote c +:+ repr_body quote s'
  end.

(** [repr(s)], as in [f"{s!r}"]: single quotes unless the text has a single
    quote and no double quote. *)
Definition repr (s : string) : string :=
  let quote : ascii :=
    if existsb (Ascii.eqb squote) (chars s) && negb (existsb (Ascii.eqb dquote) (chars s))
    then dquote else squote in
  String quote (repr_body quote s +:+ String quote EmptyString).

(** [s.replace(old, new, 1)]: the first occurrence only. *)
Fixpoint replace1 (old new s : string) : string :=
  if String.prefix old s then new +:+ drop (String.length old) s
  else match s with
       | EmptyString => EmptyString
       | String c s' => String c (replace1 old new s')
       end.

(** The one-character string holding a line feed. *)
Definition nl : string := String "010" EmptyString.

(** A [dict] whose iteration order matters: the items in insertion
    order.  [d[k] = v] replaces the value of a present key in place and
    appends an absent one. *)
Definition dict (V : Type) : Type := list (string * V).

Fixpoint dict_get {V : Type} (d : dict V) (k : string) : option V :=
  match d with
  | [] => None
  | (k', v) :: d' => if String.eqb k' k then Some v else dict_get d' k
  end.

Fixpoint dict_set {V : Type} (d : dict V) (k : string) (v : V) : dict V :=
  match d with
  | [] => [(k, v)]
  | (k', v') :: d' =>
      if String.eqb k' k then (k', v) :: d' else (k', v') :: dict_set d' k v
  end.

End Py.

(* ===================================================================== *)
(** ** [shlex.split], POSIX mode                                          *)
(* ===================================================================== *)

(** [shlex.split(s)] builds [shlex(s, posix=True)] with
  [whitespace_split = True] and no comment characters, and collects the
  tokens of [read_token] until it returns [None].  The lexer below is
  [shlex.read_token] under these settings: with [whitespace_split] every
  character that is not white space, a quote or the escape character
  continues a word, so [wordchars] plays no part. *)
Module Shlex.

Inductive lex_state : Type :=
  | St_eof                      (* self.state is None *)
  | St_white                    (* ' ' *)
  | St_word                     (* 'a' *)
  | St_quote (q : ascii)        (* one of self.quotes *)
  | St_escape (e : ascii).      (* self.escape *)

Record lexer : Type := Lexer {
  state : lex_state;          (* self.state, kept between tokens *)
  token : string;             (* self.token *)
  quoted : bool;              (* local of read_token *)
  escapedstate : lex_state    (* local of read_token *)
}.

Definition whitespace (c : ascii) : bool :=
  existsb (Ascii.eqb c) [" "; "009"; "013"; "010"]%char.
Definition quotes (c : ascii) : bool :=
  Ascii.eqb c Py.squote || Ascii.eqb c Py.dquote.
Definition escape (c : ascii) : bool := Ascii.eqb c Py.backslash.
Definition escapedquotes (c : ascii) : bool := Ascii.eqb c Py.dquote.

Definition in_quotes (st : lex_state) : bool :=
  match st with St_quote _ => true | _ => false end.

Definition is_state_char (st : lex_state) (c : ascii) : bool :=
  match st with
  | St_quote q => Ascii.eqb c q
  | St_escape e => Ascii.eqb c e
  | St_white => Ascii.eqb c " "
  | St_word => Ascii.eqb c "a"
  | St_eof => false
  end.

Definition push (lx : lexer) (c : ascii) : string :=
  token lx +:+ String c EmptyString.

Inductive outcome : Type :=
  | Continue (lx : lexer)       (* next iteration of the [while True] *)
  | Break (lx : lexer)          (* leave the loop: a token, or end of input *)
  | Fail (msg : string).        (* raise ValueError(msg) *)

(** Whether the token under construction is emitted:
    [self.token or (self.posix and quoted)]. *)
Definition emit (lx : lexer) : bool := Py.truthy (token lx) || quoted lx.

(** One iteration of the loop of [read_token] on [nextchar]
    ([None] is the empty read at the end of the input). *)
Definition step (lx : lexer) (nextchar : option ascii) : outcome :=
  match state lx with
  | St_eof => Break (Lexer St_eof EmptyString (quoted lx) (escapedstate lx))
  | St_white =>
      match nextchar with
      | None => Break (Lexer St_eof (token lx) (quoted lx) (escapedstate lx))
      | Some c =>
          if whitespace c then (if emit lx then Break lx else Continue lx)
          else if escape c then
            Continue (Lexer (St_escape c) (token lx) (quoted lx) St_word)
          else if quotes c then
            Continue (Lexer (St_quote c) (token lx) (quoted lx) (escapedstate lx))
          else
            Continue (Lexer St_word (String c EmptyString) (quoted lx) (escapedstate lx))
      end
  | St_quote q =>
      match nextchar with
      | None => Fail "No closing quotation"
      | Some c =>
          if Ascii.eqb c q then
            Continue (Lexer St_word (token lx) true (escapedstate lx))
          else if escape c && escapedquotes q then
            Continue (Lexer (St_escape c) (token lx) true (St_quote q))
          else
            Continue (Lexer (St_quote q) (push lx c) true (escapedstate lx))
      end
  | St_escape e =>
      match nextchar with
      | None => Fail "No escaped character"
      | Some c =>
          let tok :=
            if in_quotes (escapedstate lx)
               && negb (Ascii.eqb c e)
               && negb (is_state_char (escapedstate lx) c)
            then push lx e else token lx in
          Continue (Lexer (escapedstate lx) (tok +:+ String c EmptyString)
                          (quoted lx) (escapedstate lx))
      end
  | St_word =>
      match nextchar with
      | None => Break (Lexer St_eof (token lx) (quoted lx) (escapedstate lx))
      | Some c =>
          if whitespace c then
            let lx' := Lexer St_white (token lx) (quoted lx) (escapedstate lx) in
            if emit lx' then Break lx' else Continue lx'
          else if quotes c then
            Continue (Lexer (St_quote c) (token lx) (quoted lx) (escapedstate lx))
          else if escape c then
            Continue (Lexer (St_escape c) (token lx) (quoted lx) St_word)
          else
            Continue (Lexer St_word (push lx c) (quoted lx) (escapedstate lx))
      end
  end.

(** The value [read_token] returns after the loop: the token, or [None]
    for an unquoted empty one (the end-of-input marker in POSIX mode). *)
Definition result (lx : lexer) : option string :=
  if negb (quoted lx) && negb (Py.truthy (token lx)) then None
  else Some (token lx).

(** Entry of the next [read_token]: [self.token] was reset, the locals
    are fresh, [self.state] is kept. *)
Definition fresh (lx : lexer) : lexer :=
  Lexer (state lx) EmptyString false St_white.

Definition initial : lexer := Lexer St_white EmptyString false St_white.

(** The reads at the end of the input.  A word in progress is returned
    and leaves the lexer in [St_eof], where the next [read_token] returns
    [None] and the iteration stops. *)
Definition at_eof (lx : lexer) (acc : list string) : res (list string) :=
  match step lx None with
  | Fail msg => Raise (ValueError msg)
  | Break lx' | Continue lx' =>
      match result lx' with
      | None => Ok acc
      | Some t => Ok (acc ++ [t])
      end
  end.

(** [list(lex)]: tokens are collected until [read_token] returns [None]. *)
Fixpoint run (lx : lexer) (s : string) (acc : list string) : res (list string) :=
  match s with
  | EmptyString => at_eof lx acc
  | String c s' =>
      match step lx (Some c) with
      | Fail msg => Raise (ValueError msg)
      | Continue lx' => run lx' s' acc
      | Break lx' =>
          match result lx' with
          | None => Ok acc
          | Some t => run (fresh lx') s' (acc ++ [t])
          end
      end
  end.

Definition split (s : string) : res (list string) := run initial s [].

End Shlex.

(* ===================================================================== *)
(** ** The durable-execution engine, as the program consumes it           *)
(* ===================================================================== *)

(** The engine (Temporal) is not part of the repository.  The program uses
  two of its faces: a workflow dispatches activities with a per-stage
  policy and awaits each result; a client describes a run by its
  identifier and reads its result. *)
Module Temporal.

(** [datetime.timedelta], as a whole number of seconds. *)
Record timedelta : Type := Timedelta { total_seconds : Z }.
Definition seconds (n : Z) : timedelta := Timedelta n.
Definition minutes (n : Z) : timedelta := Timedelta (60 * n).
Definition hours (n : Z) : timedelta := Timedelta (3600 * n).

Record RetryPolicy : Type := { maximum_attempts : Z }.

(** The keyword arguments of [workflow.execute_activity]; an omitted
    [heartbeat_timeout] is [None]. *)
Record ActivityOptions : Type := {
  start_to_close_timeout : timedelta;
  heartbeat_timeout : option timedelta;
  retry_policy : RetryPolicy
}.

(** A workflow body: a sequence of awaited activity dispatches ending in
    a returned value.  [await workflow.execute_activity(f, x, opts)]
    followed by the rest of the body is [ExecuteActivity name f x opts k],
    where [k] receives the awaited result. *)
Inductive workflow (R : Type) : Type :=
  | Return (r : R)
  | ExecuteActivity {A B : Type} (name : string) (fn : A -> res B) (arg : A)
      (opts : ActivityOptions) (k : B -> workflow R).
Arguments Return {R} r.
Arguments ExecuteActivity {R A B} name fn arg opts k.

(** Why an attempt can be lost without the activity having raised. *)
Inductive lost : Type :=
  | StartToCloseTimeout         (* the attempt outran its deadline *)
  | HeartbeatTimeout            (* no liveness signal within the heartbeat deadline *)
  | WorkerLost.                 (* the worker went away *)

(** A missed heartbeat can only kill an attempt of a stage that has a
    heartbeat deadline. *)
Definition applies (opts : ActivityOptions) (l : lost) : bool :=
  match l with
  | HeartbeatTimeout =>
      match heartbeat_timeout opts with Some _ => true | None => false end
  | _ => true
  end.

Definition lost_error (l : lost) : exn :=
  match l with
  | StartToCloseTimeout => ActivityError (RuntimeError "start-to-close timeout")
  | HeartbeatTimeout => ActivityError (RuntimeError "heartbeat timeout")
  | WorkerLost => ActivityError (RuntimeError "worker lost")
  end.

(** The attempt limit of a stage.  Every policy of the program sets a
    positive limit; Temporal's 0 (no limit) is not used and counts as one
    attempt here. *)
Definition budget (opts : ActivityOptions) : nat :=
  Z.to_nat (Z.max 1 (maximum_attempts (retry_policy opts))).

(** One dispatched stage, as the engine's history records it. *)
Record dispatch : Type := {
  d_name : string;
  d_options : ActivityOptions;
  d_attempts : nat;           (* attempts started *)
  d_succeeded : bool
}.

(** The engine's contract for one dispatched stage: it is run at least
    once and at most up to its attempt limit, and a missed liveness signal
    counts as the death of the attempt.  [faults] lists what befalls the
    successive attempts before one runs to completion; an attempt that
    completes returns what the activity returns, and an activity that
    raises does so on every attempt. *)
Definition run_stage {A B : Type} (fn : A -> res B) (arg : A)
    (opts : ActivityOptions) (faults : list lost) : nat * res B :=
  let hits := List.filter (applies opts) faults in
  if (length hits <? budget opts)%nat then
    match fn arg with
    | Ok b => (S (length hits), Ok b)
    | Raise e => (budget opts, Raise (ActivityError e))
    end
  else (budget opts, Raise (lost_error (List.last hits WorkerLost))).

(** The engine running a workflow body: stage after stage, each awaited
    before the continuation runs; the first stage that uses up its
    attempts ends the run with its error.  [schedule] gives the faults of
    the successive dispatches.  The result comes with the history of
    dispatches. *)
Fixpoint execute {R : Type} (w : workflow R) (schedule : list (list lost))
    : list dispatch * res R :=
  match w with
  | Return r => ([], Ok r)
  | ExecuteActivity name fn arg opts k =>
      let (n, out) := run_stage fn arg opts (hd [] schedule) in
      match out with
      | Ok b =>
          let (log, r) := execute (k b) (tl schedule) in
          ({| d_name := name; d_options := opts; d_attempts := n;
              d_succeeded := true |} :: log, r)
      | Raise e =>
          ([{| d_name := name; d_options := opts; d_attempts := n;
               d_succeeded := false |}], Raise e)
      end
  end.

(** [temporalio.client.WorkflowExecutionStatus] *)
Inductive WorkflowExecutionStatus : Type :=
  | RUNNING | COMPLETED | FAILED | CANCELED | TERMINATED
  | CONTINUED_AS_NEW | TIMED_OUT.

Definition status_name (s : WorkflowExecutionStatus) : string :=
  match s with
  | RUNNING => "RUNNING"
  | COMPLETED => "COMPLETED"
  | FAILED => "FAILED"
  | CANCELED => "CANCELED"
  | TERMINATED => "TERMINATED"
  | CONTINUED_AS_NEW => "CONTINUED_AS_NEW"
  | TIMED_OUT => "TIMED_OUT"
  end.

(** What [_normalize_workflow_status] looks at in an object ([Any]):
    its [name] attribute when it has one, and its [str()]. *)
Record PyObject : Type := { attr_name : option string; to_str : string }.

(** An enum member has a [name]; its [str()] is the qualified name. *)
Definition member (s : WorkflowExecutionStatus) : PyObject :=
  {| attr_name := Some (status_name s);
     to_str := "WorkflowExecutionStatus." +:+ status_name s |}.

(** One run as the engine knows it: its status ([None] before the first
    event) and what awaiting its result gives. *)
Record Execution (R : Type) : Type := {
  exec_status : option WorkflowExecutionStatus;
  exec_result : res R
}.
Arguments exec_status {R} e.
Arguments exec_result {R} e.

(** The client's view of the engine: the runs by workflow identifier. *)
Definition Client (R : Type) : Type := gmap string (Execution R).

(** [await client.get_workflow_handle(id).describe()], reduced to the
    [status] of the description.  An identifier the engine does not know
    is a lookup failure: the call raises an RPC error. *)
Definition describe {R : Type} (client : Client R) (id : string)
    : res (option PyObject) :=
  match client !! id with
  | Some e => Ok (member <$> exec_status e)
  | None => Raise (RPCError ("workflow not found for ID: " +:+ id))
  end.

(** [await client.get_workflow_handle(id).result()] *)
Definition result {R : Type} (client : Client R) (id : string) : res R :=
  match client !! id with
  | Some e => exec_result e
  | None => Raise (RPCError ("workflow not found for ID: " +:+ id))
  end.

End Temporal.

(* ===================================================================== *)
(** ** The host: spawned processes and the engine connection              *)
(* ===================================================================== *)

(** What a spawned process leaves behind once both pipes are drained and
    it has been waited for.  The two stream readers and the heartbeat loop
    of the execute stage only decide when this is known, not what it is. *)
Record CompletedProcess : Type := {
  stdout_bytes : list Byte.byte;
  stderr_bytes : list Byte.byte;
  returncode : Z
}.

(** A program that may raise and that reads and writes a state [S]. *)
Definition M (S A : Type) : Type := S -> res A * S.

#[global] Instance M_ret {S : Type} : MRet (M S) := fun A a s => (Ok a, s).
#[global] Instance M_bind {S : Type} : MBind (M S) := fun A B k m s =>
  match m s with
  | (Ok a, s') => k a s'
  | (Raise e, s') => (Raise e, s')
  end.

Definition get_state {S : Type} : M S S := fun s => (Ok s, s).
Definition put_state {S : Type} (s : S) : M S unit := fun _ => (Ok tt, s).
Definition lift {S A : Type} (r : res A) : M S A := fun s => (r, s).

(* ===================================================================== *)
(** ** [generic/workflows.py]: the shell-command pipeline                 *)
(* ===================================================================== *)

Module Shell.

Import Temporal.

Record ShellCommandInput : Type := { command : string; task_id : string }.

(** The [dict] the execute stage returns and the structure stage reads
    with [raw.get(key, default)]: every key may be absent. *)
Record Raw : Type := {
  raw_stdout : option string;
  raw_stderr : option string;
  raw_exit_code : option Z
}.

(** The [dict] the structure stage returns. *)
Record Formatted : Type := {
  f_stdout : string;
  f_stderr : string;
  f_exit_code : Z;
  f_summary : string
}.

Definition validate_command (cmd_input : ShellCommandInput) : res bool :=
  if negb (Py.truthy (Py.strip (command cmd_input)))
  then Raise (ValueError "Command must not be empty")
  else Ok true.

(** The argument vector handed to [asyncio.create_subprocess_exec]. *)
Definition cmd (cmd_input : ShellCommandInput) : list string :=
  ["sh"; "-c"; command cmd_input].

Section Host.

(** [asyncio.create_subprocess_exec] on the argument vector, up to
    [proc.wait()]; it raises when the program cannot be started. *)
Variable create_subprocess_exec : list string -> res CompletedProcess.
(** [bytes.decode("utf-8", errors="replace")] *)
Variable decode : list Byte.byte -> string.

Definition run_shell_command (cmd_input : ShellCommandInput) : res Raw :=
  proc ← create_subprocess_exec (cmd cmd_input);
  let stdout_str := decode (stdout_bytes proc) in
  let stderr_str := decode (stderr_bytes proc) in
  let exit_code := returncode proc in
  Ok {| raw_stdout := Some stdout_str;
        raw_stderr := Some stderr_str;
        raw_exit_code := Some exit_code |}.

End Host.

Definition stdout_block (stdout : string) : string :=
  let preview := Py.slice_to 2000 stdout in
  let truncated := 2000 <? Py.len stdout in
  (Py.nl +:+ "stdout (" +:+ Py.str_of_int (Py.len stdout) +:+ " bytes):"
     +:+ Py.nl +:+ preview)
  +:+ (if truncated then " [truncated]" else "").

Definition stderr_block (stderr : string) : string :=
  let preview := Py.slice_to 500 stderr in
  let truncated := 500 <? Py.len stderr in
  (Py.nl +:+ "stderr (" +:+ Py.str_of_int (Py.len stderr) +:+ " bytes):"
     +:+ Py.nl +:+ preview)
  +:+ (if truncated then " [truncated]" else "").

(** The list [summary_parts] when [format_output] joins it. *)
Definition summary_parts (stdout stderr : string) (exit_code : Z) : list string :=
  let parts := ["Command exited with code " +:+ Py.str_of_int exit_code +:+ "."] in
  let parts :=
    if Py.truthy (Py.strip stdout)
    then parts ++ [stdout_block stdout]
    else parts ++ [Py.nl +:+ "No stdout output."] in
  if Py.truthy (Py.strip stderr)
  then parts ++ [stderr_block stderr]
  else parts.

Definition format_output (raw : Raw) : res Formatted :=
  let stdout := default EmptyString (raw_stdout raw) in
  let stderr := default EmptyString (raw_stderr raw) in
  let exit_code := default (-1) (raw_exit_code raw) in
  Ok {| f_stdout := stdout;
        f_stderr := stderr;
        f_exit_code := exit_code;
        f_summary := Py.join Py.nl (summary_parts stdout stderr exit_code) |}.

Definition validate_options : ActivityOptions :=
  {| start_to_close_timeout := seconds 30;
     heartbeat_timeout := None;
     retry_policy := {| maximum_attempts := 1 |} |}.

Definition execute_options : ActivityOptions :=
  {| start_to_close_timeout := hours 4;
     heartbeat_timeout := Some (minutes 2);
     retry_policy := {| maximum_attempts := 3 |} |}.

Definition structure_options : ActivityOptions :=
  {| start_to_close_timeout := seconds 60;
     heartbeat_timeout := None;
     retry_policy := {| maximum_attempts := 2 |} |}.

Section Workflow.

Variable create_subprocess_exec : list string -> res CompletedProcess.
Variable decode : list Byte.byte -> string.

(** [ShellCommandWorkflow.run] *)
Definition ShellCommandWorkflow_run (cmd_input : ShellCommandInput)
    : workflow Formatted :=
  ExecuteActivity "validate_command" validate_command cmd_input
    validate_options (fun _ =>
  ExecuteActivity "run_shell_command"
    (run_shell_command create_subprocess_exec decode) cmd_input
    execute_options (fun raw =>
  ExecuteActivity "format_output" format_output raw
    structure_options (fun result =>
  Return result))).

End Workflow.

End Shell.

(* ===================================================================== *)
(** ** [generic/mcp_server.py]: the shell task registry and poller        *)
(* ===================================================================== *)

Module ShellServer.

Import Temporal.

(** An entry of [_task_registry], as [start_command] and
    [run_quick_command] create it. *)
Record TaskMeta : Type := {
  m_command : string;
  m_label : string;
  m_started_at : string;
  m_status : string
}.

Definition set_status (m : TaskMeta) (status : string) : TaskMeta :=
  {| m_command := m_command m; m_label := m_label m;
     m_started_at := m_started_at m; m_status := status |}.

(** The module's shared state. *)
Record Server : Type := {
  _temporal_client : option (Client Shell.Formatted);
  _task_registry : Py.dict TaskMeta
}.

Definition TEMPORAL_CONNECT_RETRIES : nat := 60.

Definition _normalize_workflow_status (status_obj : option PyObject) : string :=
  match status_obj with
  | None => "UNKNOWN"
  | Some o =>
      let raw := default (to_str o) (attr_name o) in
      if Py.startswith "WORKFLOW_EXECUTION_STATUS_" raw
      then Py.replace1 "WORKFLOW_EXECUTION_STATUS_" "" raw
      else raw
  end.

(** The [dict] that [check_task_status] returns; the three middle keys
    are present for a registered task only. *)
Record CheckResult : Type := {
  c_task_id : string;
  c_status : string;
  c_label : option string;
  c_command : option string;
  c_started_at : option string;
  c_message : string
}.

(** The two [dict]s that [get_task_results] returns.  In the second the
    keys of the workflow result ([stdout], [stderr], [exit_code],
    [summary]) are merged after [task_id] and [status]. *)
Inductive FetchResult : Type :=
  | NotComplete (task_id status error : string)
  | Fetched (task_id status : string) (result : Shell.Formatted).

Definition fetch_status (r : FetchResult) : string :=
  match r with
  | NotComplete _ status _ => status
  | Fetched _ status _ => status
  end.

Section Host.

(** The environment variable [TEMPORAL_HOST] (default [temporal:7233]). *)
Variable TEMPORAL_HOST : string.
(** The outcome of the n-th [Client.connect(TEMPORAL_HOST)] of one
    [_get_client] call, n counted from 1. *)
Variable connect : nat -> res (Client Shell.Formatted).

(** The loop of [_get_client]: [remaining] attempts left, the next one
    numbered [attempt]. *)
Fixpoint connect_loop (remaining attempt : nat) : option (Client Shell.Formatted) :=
  match remaining with
  | O => None
  | S r =>
      match connect attempt with
      | Ok c => Some c
      | Raise _ => connect_loop r (S attempt)
      end
  end.

Definition _get_client : M Server (Client Shell.Formatted) := fun st =>
  match _temporal_client st with
  | Some c => (Ok c, st)
  | None =>
      match connect_loop TEMPORAL_CONNECT_RETRIES 1 with
      | Some c =>
          (Ok c, {| _temporal_client := Some c;
                    _task_registry := _task_registry st |})
      | None =>
          (Raise (RuntimeError
                    ("Failed to connect to Temporal at " +:+ TEMPORAL_HOST
                       +:+ " after 60 attempts")),
           st)
      end
  end.

(** [if task_id in _task_registry: _task_registry[task_id]["status"] = s] *)
Definition record_status (task_id status : string) : M Server unit := fun st =>
  match Py.dict_get (_task_registry st) task_id with
  | Some m =>
      (Ok tt, {| _temporal_client := _temporal_client st;
                 _task_registry :=
                   Py.dict_set (_task_registry st) task_id (set_status m status) |})
  | None => (Ok tt, st)
  end.

Definition status_message (task_id status_name : string) : string :=
  if String.eqb status_name "COMPLETED" then
    "Task finished! Use get_task_results('" +:+ task_id
      +:+ "') to retrieve results."
  else if String.eqb status_name "FAILED" then
    "Task failed. Check Temporal UI at :8080 for details."
  else if String.eqb status_name "RUNNING" then
    "Task is still running. Check again shortly."
  else "Workflow status: " +:+ status_name.

Definition check_task_status (task_id : string) : M Server CheckResult :=
  client ← _get_client;
  desc_status ← lift (describe client task_id);
  let status_name := _normalize_workflow_status desc_status in
  record_status task_id status_name;;
  st ← get_state;
  let meta := Py.dict_get (_task_registry st) task_id in
  mret {| c_task_id := task_id;
          c_status := status_name;
          c_label := m_label <$> meta;
          c_command := m_command <$> meta;
          c_started_at := m_started_at <$> meta;
          c_message := status_message task_id status_name |}.

Definition get_task_results (task_id : string) : M Server FetchResult :=
  client ← _get_client;
  desc_status ← lift (describe client task_id);
  let status_name := _normalize_workflow_status desc_status in
  if negb (String.eqb status_name "COMPLETED") then
    mret (NotComplete task_id status_name
            ("Task is not yet complete (status: " +:+ status_name
               +:+ "). Use check_task_status() to poll."))
  else
    result ← lift (Temporal.result client task_id);
    record_status task_id "COMPLETED";;
    mret (Fetched task_id "COMPLETED" result).

(** One turn of the loop of [list_recent_tasks]: the entry for
    [task_id], with the status refreshed for a task last seen
    [RUNNING] or [UNKNOWN]; a failed refresh is caught. *)
Definition refresh_entry (client : Client Shell.Formatted)
    (task_id : string) (meta : TaskMeta) : M Server (string * TaskMeta) :=
  if String.eqb (m_status meta) "RUNNING" || String.eqb (m_status meta) "UNKNOWN"
  then
    match describe client task_id with
    | Ok desc_status =>
        let status_name := _normalize_workflow_status desc_status in
        record_status task_id status_name;;
        mret (task_id, set_status meta status_name)
    | Raise _ => mret (task_id, set_status meta "UNKNOWN")
    end
  else mret (task_id, meta).

Fixpoint refresh_all (client : Client Shell.Formatted)
    (items : list (string * TaskMeta)) : M Server (list (string * TaskMeta)) :=
  match items with
  | [] => mret []
  | (task_id, meta) :: rest =>
      entry ← refresh_entry client task_id meta;
      tasks ← refresh_all client rest;
      mret (entry :: tasks)
  end.

(** [list_recent_tasks]: the count and the entries. *)
Definition list_recent_tasks : M Server (Z * list (string * TaskMeta)) :=
  client ← _get_client;
  st ← get_state;
  tasks ← refresh_all client (_task_registry st);
  mret (Z.of_nat (length tasks), tasks).

End Host.

Definition TASK_QUEUE : string := "shell-tasks".

(** The [dict] that [start_command] returns. *)
Record StartResult : Type := {
  s_task_id : string;
  s_status : string;
  s_message : string
}.

(** The [dict] that [run_quick_command] returns: [task_id], [status] and
    the keys of the workflow result. *)
Record QuickResult : Type := {
  q_task_id : string;
  q_status : string;
  q_result : Shell.Formatted
}.

(** [_task_registry[task_id] = meta] *)
Definition register (task_id : string) (meta : TaskMeta) : M Server unit := fun st =>
  (Ok tt, {| _temporal_client := _temporal_client st;
             _task_registry := Py.dict_set (_task_registry st) task_id meta |}).

Section Starting.

Variable TEMPORAL_HOST : string.
Variable connect : nat -> res (Client Shell.Formatted).
(** [uuid.uuid4().hex] as drawn by the call. *)
Variable uuid4_hex : string.
(** [datetime.now(timezone.utc).isoformat()] as read by the call. *)
Variable now_isoformat : string.
(** [await client.start_workflow(ShellCommandWorkflow.run, cmd_input,
    id=task_id, task_queue=TASK_QUEUE)]: the engine accepts the start or
    raises. *)
Variable start_workflow :
  Client Shell.Formatted -> Shell.ShellCommandInput -> string -> string -> res unit.
(** [await client.execute_workflow(...)] with the same arguments: the
    result of the run once it is over, or the error of a failed run. *)
Variable execute_workflow :
  Client Shell.Formatted -> Shell.ShellCommandInput -> string -> string
  -> res Shell.Formatted.

(** [f"task-{uuid.uuid4().hex[:12]}"] *)
Definition new_task_id : string := "task-" +:+ Py.slice_to 12 uuid4_hex.

Definition start_command (command label : string) : M Server StartResult :=
  client ← _get_client TEMPORAL_HOST connect;
  let task_id := new_task_id in
  let cmd_input := {| Shell.command := command; Shell.task_id := task_id |} in
  lift (start_workflow client cmd_input task_id TASK_QUEUE);;
  register task_id
    {| m_command := command;
       m_label := if Py.truthy label then label else Py.slice_to 60 command;
       m_started_at := now_isoformat;
       m_status := "RUNNING" |};;
  mret {| s_task_id := task_id;
          s_status := "RUNNING";
          s_message := "Command started. Use check_task_status('" +:+ task_id
                         +:+ "') to poll and get_task_results('" +:+ task_id
                         +:+ "') when complete." |}.

(** [run_quick_command].  The entry is registered before the run; its
    status is set after the run without a membership test, the key being
    the one just written. *)
Definition run_quick_command (command : string) : M Server QuickResult :=
  client ← _get_client TEMPORAL_HOST connect;
  let task_id := new_task_id in
  let cmd_input := {| Shell.command := command; Shell.task_id := task_id |} in
  register task_id
    {| m_command := command;
       m_label := Py.slice_to 60 command;
       m_started_at := now_isoformat;
       m_status := "RUNNING" |};;
  result ← lift (execute_workflow client cmd_input task_id TASK_QUEUE);
  record_status task_id "COMPLETED";;
  mret {| q_task_id := task_id; q_status := "COMPLETED"; q_result := result |}.

End Starting.

End ShellServer.

(* ===================================================================== *)
(** ** [xml.etree.ElementTree], as far as the parser uses it              *)
(* ===================================================================== *)

Module ET.

(** An element: its tag, its attributes and its child elements, in
    document order.  Text content is never read by the program. *)
#[local] Unset Elimination Schemes.
Inductive Element : Type :=
| Elem (tag : string) (attrib : gmap string string) (children : list Element).
#[local] Set Elimination Schemes.

Definition tag (e : Element) : string :=
  match e with Elem t _ _ => t end.
Definition attrib (e : Element) : gmap string string :=
  match e with Elem _ a _ => a end.
Definition children (e : Element) : list Element :=
  match e with Elem _ _ c => c end.

(** [e.get(key, default)] *)
Definition get (e : Element) (key default : string) : string :=
  match attrib e !! key with
  | Some v => v
  | None => default
  end.

(** [e.find(tag)]: the first child with this tag, or [None]. *)
Definition find (e : Element) (t : string) : option Element :=
  List.find (fun c => String.eqb (tag c) t) (children e).

(** [e.findall(tag)]: the children with this tag, in document order. *)
Definition findall (e : Element) (t : string) : list Element :=
  List.filter (fun c => String.eqb (tag c) t) (children e).

End ET.

(* ===================================================================== *)
(** ** [int(s)] on a string                                               *)
(* ===================================================================== *)

Module PyInt.

Definition is_digit (c : ascii) : bool := Py.between 48 57 c.
Definition digit_value (c : ascii) : Z := Z.of_N (Py.code c) - 48.

(** Digits with single underscores between them: the value and the
    number of digits, or [None] when the text is not of that form. *)
Fixpoint digits (cs : list ascii) (acc : Z) (count : nat) (after_digit : bool)
    : option (Z * nat) :=
  match cs with
  | [] => if after_digit then Some (acc, count) else None
  | c :: cs' =>
      if is_digit c then digits cs' (10 * acc + digit_value c) (S count) true
      else if Ascii.eqb c "_" && after_digit then digits cs' acc count false
      else None
  end.

(** The limit of CPython on the digits of a decimal literal
    ([sys.get_int_max_str_digits()], 4300 by default). *)
Definition max_str_digits : nat := 4300.

Definition invalid_literal (s : string) : exn :=
  ValueError ("invalid literal for int() with base 10: " +:+ Py.repr s).

Definition too_long (count : nat) : exn :=
  ValueError ("Exceeds the limit (4300 digits) for integer string conversion: value has "
                +:+ Py.str_of_int (Z.of_nat count)
                +:+ " digits; use sys.set_int_max_str_digits() to increase the limit").

Definition magnitude (s : string) (cs : list ascii) : res Z :=
  match digits cs 0 O false with
  | None => Raise (invalid_literal s)
  | Some (v, count) =>
      if (max_str_digits <? count)%nat then Raise (too_long count) else Ok v
  end.

(** [int(s)]: surrounding white space, an optional sign, decimal digits. *)
Definition int (s : string) : res Z :=
  match Py.chars (Py.strip s) with
  | c :: cs =>
      if Ascii.eqb c "-" then Z.opp <$> magnitude s cs
      else if Ascii.eqb c "+" then magnitude s cs
      else magnitude s (c :: cs)
  | [] => Raise (invalid_literal s)
  end.

End PyInt.

(* ===================================================================== *)
(** ** [generic/nmap/workflows.py]: the scan pipeline                     *)
(* ===================================================================== *)

Module Nmap.

Import Temporal.

Record NmapScanInput : Type := {
  target : string;
  nmap_args : string;
  scan_id : string
}.

(** The character class of [BLOCKED_METACHARACTERS]. *)
Definition metacharacters : list ascii :=
  [";"; "&"; "|"; "`"; "$"; "("; ")"; "{"; "}"; "<"; ">"; "010"; "013"]%char.

(** [BLOCKED_METACHARACTERS.search(s)] is a match: some character of [s]
    is in the class. *)
Definition BLOCKED_METACHARACTERS_search (s : string) : bool :=
  existsb (fun c => existsb (Ascii.eqb c) metacharacters) (Py.chars s).

Definition BLOCKED_FLAGS : gset string :=
  {[ "--script-args"; "-il"; "-on"; "-ox"; "-og"; "-oa"; "--datadir" ]}.

(** [token.split("=", 1)[0].lower()] *)
Definition canonical (token : string) : string :=
  Py.lower (Py.item0 (Py.split1 "=" token)).

(** The loop over the tokens: the first blocked flag raises. *)
Fixpoint check_tokens (tokens : list string) : res unit :=
  match tokens with
  | [] => Ok tt
  | token :: rest =>
      if bool_decide (canonical token ∈ BLOCKED_FLAGS)
      then Raise (ValueError ("Blocked nmap flag: " +:+ Py.repr (canonical token)))
      else check_tokens rest
  end.

(** [shlex.split(args) if args.strip() else []] *)
Definition tokens_of (args : string) : res (list string) :=
  if Py.truthy (Py.strip args) then Shlex.split args else Ok [].

Definition validate_scan_input (scan_input : NmapScanInput) : res bool :=
  let target := target scan_input in
  let args := nmap_args scan_input in
  if BLOCKED_METACHARACTERS_search target then
    Raise (ValueError ("Target contains blocked characters: " +:+ Py.repr target))
  else if BLOCKED_METACHARACTERS_search args then
    Raise (ValueError ("Arguments contain blocked characters: " +:+ Py.repr args))
  else
    match tokens_of args with
    | Raise (ValueError exc) =>
        Raise (ValueError ("Arguments are not parseable: " +:+ exc))
    | Raise e => Raise e
    | Ok tokens =>
        check_tokens tokens;;
        if negb (Py.truthy (Py.strip target)) then
          Raise (ValueError "Target must not be empty")
        else Ok true
    end.

(** The argument vector of the scan: [["nmap", *args_tokens, "-oX", "-", target]].
    [shlex.split] is not guarded here: an unparseable string raises. *)
Definition cmd (scan_input : NmapScanInput) : res (list string) :=
  args_tokens ← tokens_of (nmap_args scan_input);
  Ok (["nmap"] ++ args_tokens ++ ["-oX"; "-"; target scan_input]).

Section Host.

Variable create_subprocess_exec : list string -> res CompletedProcess.
Variable decode : list Byte.byte -> string.

Definition run_nmap_scan (scan_input : NmapScanInput) : res string :=
  argv ← cmd scan_input;
  proc ← create_subprocess_exec argv;
  let stdout_str := decode (stdout_bytes proc) in
  let stderr_str := decode (stderr_bytes proc) in
  let return_code := returncode proc in
  if negb (return_code =? 0) && negb (Py.truthy (Py.strip stdout_str)) then
    Raise (RuntimeError ("nmap exited with code " +:+ Py.str_of_int return_code
                           +:+ ". stderr: " +:+ stderr_str))
  else Ok stdout_str.

End Host.

(** *** The structured scan result *)

Record Script : Type := { script_id : string; script_output : string }.
Record Address : Type := { addr : string; addr_type : string; vendor : string }.
Record Hostname : Type := { hn_name : string; hn_type : string }.
Record OsMatch : Type := { os_name : string; os_accuracy : string }.

(** The [dict] of one port.  [state] and [reason] are present when the
    port has a [state] element, the four service keys when it has a
    [service] element, [scripts] when there is at least one script. *)
Record Port : Type := {
  port : Z;
  protocol : string;
  state : option string;
  reason : option string;
  service : option string;
  product : option string;
  version : option string;
  extra_info : option string;
  scripts : option (list Script)
}.

Record Host : Type := {
  status : option string;
  addresses : list Address;
  hostnames : list Hostname;
  ports : list Port;
  os_matches : list OsMatch;
  host_scripts : option (list Script);
  open_ports_summary : string
}.

Record ScanInfo : Type := {
  scanner : string;
  args : string;
  start_time : string;
  xml_version : string;
  end_time : option string;
  elapsed : option string;
  hosts_up : option Z;
  hosts_down : option Z;
  hosts_total : option Z
}.

Record Parsed : Type := {
  scan_info : ScanInfo;
  hosts : list Host;
  summary : string
}.

(** [int(e.get(key, 0))] *)
Definition int_attr (e : ET.Element) (key : string) : res Z :=
  match ET.attrib e !! key with
  | Some v => PyInt.int v
  | None => Ok 0
  end.

Definition parse_script (script_elem : ET.Element) : Script :=
  {| script_id := ET.get script_elem "id" "";
     script_output := ET.get script_elem "output" "" |}.

(** [port_data["scripts"] = scripts] only [if scripts]. *)
Definition nonempty {A : Type} (l : list A) : option (list A) :=
  match l with [] => None | _ => Some l end.

Definition parse_port (port_elem : ET.Element) : res Port :=
  portid ← int_attr port_elem "portid";
  let state_elem := ET.find port_elem "state" in
  let service_elem := ET.find port_elem "service" in
  Ok {| port := portid;
        protocol := ET.get port_elem "protocol" "";
        state := (fun e => ET.get e "state" "") <$> state_elem;
        reason := (fun e => ET.get e "reason" "") <$> state_elem;
        service := (fun e => ET.get e "name" "") <$> service_elem;
        product := (fun e => ET.get e "product" "") <$> service_elem;
        version := (fun e => ET.get e "version" "") <$> service_elem;
        extra_info := (fun e => ET.get e "extrainfo" "") <$> service_elem;
        scripts := nonempty (parse_script <$> ET.findall port_elem "script") |}.

(** A loop that appends one parsed item per element and stops at the
    first one that raises. *)
Fixpoint for_each {A B : Type} (f : A -> res B) (l : list A) : res (list B) :=
  match l with
  | [] => Ok []
  | a :: l' =>
      b ← f a;
      bs ← for_each f l';
      Ok (b :: bs)
  end.

(** The children named [t] of the child named [group], if there is one. *)
Definition grouped (e : ET.Element) (group t : string) : list ET.Element :=
  match ET.find e group with
  | Some g => ET.findall g t
  | None => []
  end.

(** [f"{p['port']}/{p['protocol']} ({p.get('service', 'unknown')})"] *)
Definition port_entry (p : Port) : string :=
  Py.str_of_int (port p) +:+ "/" +:+ protocol p
    +:+ " (" +:+ default "unknown" (service p) +:+ ")".

(** [p.get("state") == "open"] *)
Definition is_open (p : Port) : bool :=
  match state p with
  | Some s => String.eqb s "open"
  | None => false
  end.

Definition parse_host (host_elem : ET.Element) : res Host :=
  let status_elem := ET.find host_elem "status" in
  ports ← for_each parse_port (grouped host_elem "ports" "port");
  let open_ports := List.filter is_open ports in
  Ok {| status := (fun e => ET.get e "state" "unknown") <$> status_elem;
        addresses :=
          (fun a => {| addr := ET.get a "addr" "";
                       addr_type := ET.get a "addrtype" "";
                       vendor := ET.get a "vendor" "" |})
            <$> ET.findall host_elem "address";
        hostnames :=
          (fun hn => {| hn_name := ET.get hn "name" "";
                        hn_type := ET.get hn "type" "" |})
            <$> grouped host_elem "hostnames" "hostname";
        ports := ports;
        os_matches :=
          (fun osmatch => {| os_name := ET.get osmatch "name" "";
                             os_accuracy := ET.get osmatch "accuracy" "" |})
            <$> grouped host_elem "os" "osmatch";
        host_scripts := nonempty (parse_script <$> grouped host_elem "hostscript" "script");
        open_ports_summary := Py.join ", " (port_entry <$> open_ports) |}.

Definition parse_scan_info (root : ET.Element) : res ScanInfo :=
  let run_stats := ET.find root "runstats" in
  let finished := run_stats ≫= (fun r => ET.find r "finished") in
  let hosts_elem := run_stats ≫= (fun r => ET.find r "hosts") in
  counts ←
    match hosts_elem with
    | Some h =>
        up ← int_attr h "up";
        down ← int_attr h "down";
        total ← int_attr h "total";
        Ok (Some up, Some down, Some total)
    | None => Ok (None, None, None)
    end;
  Ok {| scanner := ET.get root "scanner" "nmap";
        args := ET.get root "args" "";
        start_time := ET.get root "startstr" "";
        xml_version := ET.get root "xmloutputversion" "";
        end_time := (fun f => ET.get f "timestr" "") <$> finished;
        elapsed := (fun f => ET.get f "elapsed" "") <$> finished;
        hosts_up := counts.1.1;
        hosts_down := counts.1.2;
        hosts_total := counts.2 |}.

(** [f"{scan_info.get(key, '?')}"] for one of the host counts. *)
Definition count_or_unknown (n : option Z) : string :=
  match n with
  | Some v => Py.str_of_int v
  | None => "?"
  end.

Definition host_label (h : Host) : string :=
  let addr_str := Py.join ", " (addr <$> addresses h) in
  let hostname_str :=
    Py.join ", "
      (hn_name <$> List.filter (fun hn => Py.truthy (hn_name hn)) (hostnames h)) in
  if Py.truthy hostname_str then addr_str +:+ " (" +:+ hostname_str +:+ ")"
  else addr_str.

(** The lines one host adds to [summary_parts]; [i] is its index in
    [hosts], from 0. *)
Definition host_lines (i : Z) (h : Host) : list string :=
  [Py.nl +:+ "Host " +:+ Py.str_of_int (i + 1) +:+ ": " +:+ host_label h
     +:+ " [" +:+ default "?" (status h) +:+ "]"]
  ++ [if Py.truthy (open_ports_summary h)
      then "  Open ports: " +:+ open_ports_summary h
      else "  No open ports found."]
  ++ ((fun osm => "  OS guess: " +:+ os_name osm +:+ " (" +:+ os_accuracy osm
                    +:+ "% accuracy)")
        <$> take 3 (os_matches h)).

(** [for i, h in enumerate(hosts)], from index [i]. *)
Fixpoint hosts_lines (i : Z) (hs : list Host) : list string :=
  match hs with
  | [] => []
  | h :: hs' => host_lines i h ++ hosts_lines (i + 1) hs'
  end.

Definition summary_parts (info : ScanInfo) (hs : list Host) : list string :=
  ["Nmap scan completed. " +:+ count_or_unknown (hosts_up info)
     +:+ " host(s) up out of " +:+ count_or_unknown (hosts_total info)
     +:+ " scanned."]
  ++ hosts_lines 0 hs.

(** [parse_nmap_xml] from the element tree on. *)
Definition parse_root (root : ET.Element) : res Parsed :=
  info ← parse_scan_info root;
  hs ← for_each parse_host (ET.findall root "host");
  Ok {| scan_info := info;
        hosts := hs;
        summary := Py.join Py.nl (summary_parts info hs) |}.

Section Parser.

(** [ET.fromstring]: the root element, or [ParseError] on malformed XML. *)
Variable fromstring : string -> res ET.Element.

Definition parse_nmap_xml (raw_xml : string) : res Parsed :=
  root ← fromstring raw_xml;
  parse_root root.

End Parser.

Definition validate_options : ActivityOptions :=
  {| start_to_close_timeout := seconds 30;
     heartbeat_timeout := None;
     retry_policy := {| maximum_attempts := 1 |} |}.

Definition execute_options : ActivityOptions :=
  {| start_to_close_timeout := hours 4;
     heartbeat_timeout := Some (minutes 2);
     retry_policy := {| maximum_attempts := 3 |} |}.

Definition structure_options : ActivityOptions :=
  {| start_to_close_timeout := seconds 60;
     heartbeat_timeout := None;
     retry_policy := {| maximum_attempts := 2 |} |}.

Section Workflow.

Variable create_subprocess_exec : list string -> res CompletedProcess.
Variable decode : list Byte.byte -> string.
Variable fromstring : string -> res ET.Element.

(** [NmapScanWorkflow.run] *)
Definition NmapScanWorkflow_run (scan_input : NmapScanInput) : workflow Parsed :=
  ExecuteActivity "validate_scan_input" validate_scan_input scan_input
    validate_options (fun _ =>
  ExecuteActivity "run_nmap_scan"
    (run_nmap_scan create_subprocess_exec decode) scan_input
    execute_options (fun raw_xml =>
  ExecuteActivity "parse_nmap_xml" (parse_nmap_xml fromstring) raw_xml
    structure_options (fun result =>
  Return result))).

End Workflow.

End Nmap.

(* ===================================================================== *)
(** ** [generic/nmap/mcp_server.py]: the scan registry and poller         *)
(* ===================================================================== *)

Module NmapServer.

Import Temporal.

(** An entry of [_scan_registry], as [start_nmap_scan] and
    [run_quick_scan] create it. *)
Record ScanMeta : Type := {
  m_target : string;
  m_nmap_args : string;
  m_label : string;
  m_started_at : string;
  m_status : string
}.

Definition set_status (m : ScanMeta) (status : string) : ScanMeta :=
  {| m_target := m_target m; m_nmap_args := m_nmap_args m; m_label := m_label m;
     m_started_at := m_started_at m; m_status := status |}.

Record Server : Type := {
  _temporal_client : option (Client Nmap.Parsed);
  _scan_registry : Py.dict ScanMeta
}.

Definition TEMPORAL_CONNECT_RETRIES : nat := 60.

Definition _normalize_workflow_status (status_obj : option PyObject) : string :=
  match status_obj with
  | None => "UNKNOWN"
  | Some o =>
      let raw := default (to_str o) (attr_name o) in
      if Py.startswith "WORKFLOW_EXECUTION_STATUS_" raw
      then Py.replace1 "WORKFLOW_EXECUTION_STATUS_" "" raw
      else raw
  end.

(** The [dict] that [check_scan_status] returns. *)
Record CheckResult : Type := {
  c_scan_id : string;
  c_status : string;
  c_label : option string;
  c_target : option string;
  c_started_at : option string;
  c_message : string
}.

(** The two [dict]s that [get_scan_results] returns; in the second the
    keys of the workflow result ([scan_info], [hosts], [summary]) are
    merged after [scan_id] and [status]. *)
Inductive FetchResult : Type :=
| NotComplete (scan_id status error : string)
| Fetched (scan_id status : string) (result : Nmap.Parsed).

Definition fetch_status (r : FetchResult) : string :=
  match r with
  | NotComplete _ status _ => status
  | Fetched _ status _ => status
  end.

Section Host.

Variable TEMPORAL_HOST : string.
Variable connect : nat -> res (Client Nmap.Parsed).

Fixpoint connect_loop (remaining attempt : nat) : option (Client Nmap.Parsed) :=
  match remaining with
  | O => None
  | S r =>
      match connect attempt with
      | Ok c => Some c
      | Raise _ => connect_loop r (S attempt)
      end
  end.

Definition _get_client : M Server (Client Nmap.Parsed) := fun st =>
  match _temporal_client st with
  | Some c => (Ok c, st)
  | None =>
      match connect_loop TEMPORAL_CONNECT_RETRIES 1 with
      | Some c =>
          (Ok c, {| _temporal_client := Some c;
                    _scan_registry := _scan_registry st |})
      | None =>
          (Raise (RuntimeError
                    ("Failed to connect to Temporal at " +:+ TEMPORAL_HOST
                       +:+ " after 60 attempts")),
           st)
      end
  end.

Definition record_status (scan_id status : string) : M Server unit := fun st =>
  match Py.dict_get (_scan_registry st) scan_id with
  | Some m =>
      (Ok tt, {| _temporal_client := _temporal_client st;
                 _scan_registry :=
                   Py.dict_set (_scan_registry st) scan_id (set_status m status) |})
  | None => (Ok tt, st)
  end.

Definition status_message (scan_id status_name : string) : string :=
  if String.eqb status_name "COMPLETED" then
    "Scan finished! Use get_scan_results('" +:+ scan_id
      +:+ "') to retrieve results."
  else if String.eqb status_name "FAILED" then
    "Scan failed. Check Temporal UI at :8080 for details."
  else if String.eqb status_name "RUNNING" then
    "Scan is still running. Check again shortly."
  else "Workflow status: " +:+ status_name.

Definition check_scan_status (scan_id : string) : M Server CheckResult :=
  client ← _get_client;
  desc_status ← lift (describe client scan_id);
  let status_name := _normalize_workflow_status desc_status in
  record_status scan_id status_name;;
  st ← get_state;
  let meta := Py.dict_get (_scan_registry st) scan_id in
  mret {| c_scan_id := scan_id;
          c_status := status_name;
          c_label := m_label <$> meta;
          c_target := m_target <$> meta;
          c_started_at := m_started_at <$> meta;
          c_message := status_message scan_id status_name |}.

Definition get_scan_results (scan_id : string) : M Server FetchResult :=
  client ← _get_client;
  desc_status ← lift (describe client scan_id);
  let status_name := _normalize_workflow_status desc_status in
  if negb (String.eqb status_name "COMPLETED") then
    mret (NotComplete scan_id status_name
            ("Scan is not yet complete (status: " +:+ status_name
               +:+ "). Use check_scan_status() to poll."))
  else
    result ← lift (Temporal.result client scan_id);
    record_status scan_id "COMPLETED";;
    mret (Fetched scan_id "COMPLETED" result).

Definition refresh_entry (client : Client Nmap.Parsed)
    (scan_id : string) (meta : ScanMeta) : M Server (string * ScanMeta) :=
  if String.eqb (m_status meta) "RUNNING" || String.eqb (m_status meta) "UNKNOWN"
  then
    match describe client scan_id with
    | Ok desc_status =>
        let status_name := _normalize_workflow_status desc_status in
        record_status scan_id status_name;;
        mret (scan_id, set_status meta status_name)
    | Raise _ => mret (scan_id, set_status meta "UNKNOWN")
    end
  else mret (scan_id, meta).

Fixpoint refresh_all (client : Client Nmap.Parsed)
    (items : list (string * ScanMeta)) : M Server (list (string * ScanMeta)) :=
  match items with
  | [] => mret []
  | (scan_id, meta) :: rest =>
      entry ← refresh_entry client scan_id meta;
      scans ← refresh_all client rest;
      mret (entry :: scans)
  end.

(** [list_recent_scans]: the count and the entries. *)
Definition list_recent_scans : M Server (Z * list (string * ScanMeta)) :=
  client ← _get_client;
  st ← get_state;
  scans ← refresh_all client (_scan_registry st);
  mret (Z.of_nat (length scans), scans).

End Host.

Definition TASK_QUEUE : string := "nmap-scans".

(** The default of [nmap_args] in [start_nmap_scan] and in
    [run_quick_scan]. *)
Definition start_default_args : string := "-sT --top-ports 100".
Definition quick_default_args : string := "-sT --top-ports 20".

(** The [dict] that [start_nmap_scan] returns. *)
Record StartResult : Type := {
  s_scan_id : string;
  s_status : string;
  s_message : string
}.

(** The [dict] that [run_quick_scan] returns: [scan_id], [status] and the
    keys of the workflow result. *)
Record QuickResult : Type := {
  q_scan_id : string;
  q_status : string;
  q_result : Nmap.Parsed
}.

(** [_scan_registry[scan_id] = meta] *)
Definition register (scan_id : string) (meta : ScanMeta) : M Server unit := fun st =>
  (Ok tt, {| _temporal_client := _temporal_client st;
             _scan_registry := Py.dict_set (_scan_registry st) scan_id meta |}).

Section Starting.

Variable TEMPORAL_HOST : string.
Variable connect : nat -> res (Client Nmap.Parsed).
Variable uuid4_hex : string.
Variable now_isoformat : string.
Variable start_workflow :
  Client Nmap.Parsed -> Nmap.NmapScanInput -> string -> string -> res unit.
Variable execute_workflow :
  Client Nmap.Parsed -> Nmap.NmapScanInput -> string -> string -> res Nmap.Parsed.

(** [f"scan-{uuid.uuid4().hex[:12]}"] *)
Definition new_scan_id : string := "scan-" +:+ Py.slice_to 12 uuid4_hex.

Definition start_nmap_scan (target nmap_args label : string) : M Server StartResult :=
  client ← _get_client TEMPORAL_HOST connect;
  let scan_id := new_scan_id in
  let scan_input :=
    {| Nmap.target := target; Nmap.nmap_args := nmap_args; Nmap.scan_id := scan_id |} in
  lift (start_workflow client scan_input scan_id TASK_QUEUE);;
  register scan_id
    {| m_target := target;
       m_nmap_args := nmap_args;
       m_label := if Py.truthy label then label else "Scan of " +:+ target;
       m_started_at := now_isoformat;
       m_status := "RUNNING" |};;
  mret {| s_scan_id := scan_id;
          s_status := "RUNNING";
          s_message := "Scan started. Use check_scan_status('" +:+ scan_id
                         +:+ "') to poll and get_scan_results('" +:+ scan_id
                         +:+ "') when complete." |}.

Definition run_quick_scan (target nmap_args : string) : M Server QuickResult :=
  client ← _get_client TEMPORAL_HOST connect;
  let scan_id := new_scan_id in
  let scan_input :=
    {| Nmap.target := target; Nmap.nmap_args := nmap_args; Nmap.scan_id := scan_id |} in
  register scan_id
    {| m_target := target;
       m_nmap_args := nmap_args;
       m_label := "Quick scan of " +:+ target;
       m_started_at := now_isoformat;
       m_status := "RUNNING" |};;
  result ← lift (execute_workflow client scan_input scan_id TASK_QUEUE);
  record_status scan_id "COMPLETED";;
  mret {| q_scan_id := scan_id; q_status := "COMPLETED"; q_result := result |}.

End Starting.

End NmapServer.

(* ===================================================================== *)
(** ** [generic/worker.py] and [generic/nmap/worker.py]                   *)
(* ===================================================================== *)

(** The two workers differ in the task queue and in what they register. *)
Module Worker.

Import Temporal.

Definition TEMPORAL_CONNECT_RETRIES : nat := 60.
Definition TEMPORAL_RETRY_DELAY_SECONDS : Z := 2.

Section Host.

Context {R : Type}.
Variable TEMPORAL_HOST : string.
(** The outcome of the n-th [Client.connect(TEMPORAL_HOST)], n from 1. *)
Variable connect : nat -> res (Client R).

(** The loop of [_connect_temporal_with_retry]: [remaining] turns left,
    this one numbered [attempt], [slept] seconds spent in
    [asyncio.sleep] so far.  A client is returned from inside the loop;
    [None] is the fall through to the [raise] after it. *)
Fixpoint retry_loop (remaining attempt : nat) (slept : Z) : option (Client R) * Z :=
  match remaining with
  | O => (None, slept)
  | S r =>
      match connect attempt with
      | Ok c => (Some c, slept)
      | Raise _ =>
          if Nat.eqb attempt TEMPORAL_CONNECT_RETRIES then (None, slept)
          else retry_loop r (S attempt) (slept + TEMPORAL_RETRY_DELAY_SECONDS)
      end
  end.

(** [_connect_temporal_with_retry]: the client or the error, and the
    seconds slept. *)
Definition _connect_temporal_with_retry : res (Client R) * Z :=
  match retry_loop TEMPORAL_CONNECT_RETRIES 1 0 with
  | (Some c, slept) => (Ok c, slept)
  | (None, slept) =>
      (Raise (RuntimeError
                ("Failed to connect to Temporal at " +:+ TEMPORAL_HOST
                   +:+ " after 60 attempts")),
       slept)
  end.

End Host.

(** What [main] hands to [Worker(...)]: the task queue, the workflow and
    the activities, by name. *)
Record Registration : Type := {
  task_queue : string;
  workflows : list string;
  activities : list string
}.

(** [generic/worker.py] *)
Definition shell_worker : Registration :=
  {| task_queue := "shell-tasks";
     workflows := ["ShellCommandWorkflow"];
     activities := ["validate_command"; "run_shell_command"; "format_output"] |}.

(** [generic/nmap/worker.py] *)
Definition nmap_worker : Registration :=
  {| task_queue := "nmap-scans";
     workflows := ["NmapScanWorkflow"];
     activities := ["validate_scan_input"; "run_nmap_scan"; "parse_nmap_xml"] |}.

End Worker.

(* ===================================================================== *)
(** * Properties                                                          *)
(* ===================================================================== *)

(** ** Characters and strings *)

(** Case analysis over the 256 characters. *)
Ltac each_char c := destruct c as [[] [] [] [] [] [] [] []]; vm_compute.

Lemma chars_cons (c : ascii) (s : string) : Py.chars (String c s) = c :: Py.chars s.
Proof. reflexivity. Qed.

Lemma app_cons (c : ascii) (a b : string) : String c a +:+ b = String c (a +:+ b).
Proof. reflexivity. Qed.

Lemma app_empty_l (s : string) : EmptyString +:+ s = s.
Proof. reflexivity. Qed.

Lemma app_empty_r (s : string) : s +:+ EmptyString = s.
Proof. induction s as [|c s IH]; [reflexivity | now rewrite app_cons, IH]. Qed.

Lemma app_assoc_str (a b c : string) : (a +:+ b) +:+ c = a +:+ (b +:+ c).
Proof. induction a as [|x a IH]; [reflexivity | now rewrite !app_cons, IH]. Qed.

Lemma chars_app (a b : string) : Py.chars (a +:+ b) = Py.chars a ++ Py.chars b.
Proof.
  induction a as [|x a IH]; [reflexivity |].
  now rewrite app_cons, !chars_cons, IH.
Qed.

Lemma length_app_str (a b : string) :
  String.length (a +:+ b) = (String.length a + String.length b)%nat.
Proof.
  induction a as [|x a IH]; [reflexivity |].
  rewrite app_cons. simpl. now rewrite IH.
Qed.

(** A string is blank when all its characters are white space. *)
Definition blank (s : string) : Prop := Forall (fun c => Py.isspace c = true) (Py.chars s).

Lemma lstrip_empty (s : string) : Py.lstrip s = EmptyString <-> blank s.
Proof.
  unfold blank, Py.chars. induction s as [|c s IH]; simpl.
  - split; [constructor | reflexivity].
  - destruct (Py.isspace c) eqn:Hc.
    + rewrite IH. split; [now constructor | now inversion 1].
    + split; [discriminate | inversion 1; congruence].
Qed.

Lemma rstrip_empty (s : string) : Py.rstrip s = EmptyString <-> blank s.
Proof.
  unfold blank, Py.chars. induction s as [|c s IH]; simpl.
  - split; [constructor | reflexivity].
  - destruct (Py.rstrip s) eqn:Hr.
    + destruct (Py.isspace c) eqn:Hc.
      * split; [intros _; constructor; [assumption | now apply IH] | reflexivity].
      * split; [discriminate | inversion 1; congruence].
    + split; [discriminate |].
      inversion 1 as [|? ? _ Hs]. apply IH in Hs. discriminate.
Qed.

Lemma lstrip_blank_suffix (s : string) : blank (Py.lstrip s) -> blank s.
Proof.
  unfold blank, Py.chars. induction s as [|c s IH]; simpl; [trivial |].
  destruct (Py.isspace c) eqn:Hc; [| trivial].
  intros H. constructor; auto.
Qed.

(** [s.strip()] is empty exactly for a blank string. *)
Lemma strip_empty (s : string) : Py.strip s = EmptyString <-> blank s.
Proof.
  unfold Py.strip. rewrite rstrip_empty. split.
  - apply lstrip_blank_suffix.
  - intros H. apply lstrip_empty in H. rewrite H. constructor.
Qed.

Lemma truthy_false (s : string) : Py.truthy s = false <-> s = EmptyString.
Proof. destruct s; simpl; split; congruence. Qed.

Lemma strip_falsy (s : string) : Py.truthy (Py.strip s) = false <-> blank s.
Proof. rewrite truthy_false. apply strip_empty. Qed.

Lemma strip_truthy (s : string) : Py.truthy (Py.strip s) = true <-> ~ blank s.
Proof.
  rewrite <- strip_falsy. destruct (Py.truthy (Py.strip s)); split; congruence.
Qed.

Lemma lower_char_eq_sign (c : ascii) : Py.lower_char c = "="%char -> c = "="%char.
Proof. each_char c; congruence. Qed.

Lemma lower_char_dash (c : ascii) : Py.lower_char c = "-"%char -> c = "-"%char.
Proof. each_char c; congruence. Qed.

Lemma isspace_plain (c : ascii) :
  Py.isspace c = true ->
  Shlex.quotes c = false /\ Shlex.escape c = false /\ c <> "-"%char.
Proof. each_char c; intros; repeat split; congruence. Qed.

(** [sub] occurs in [s]. *)
Definition occurs (sub s : string) : Prop :=
  exists before after, s = before +:+ sub +:+ after.

Lemma occurs_cons (c : ascii) (sub s : string) : occurs sub s -> occurs sub (String c s).
Proof.
  intros (before & after & ->). exists (String c before), after. reflexivity.
Qed.

Lemma occurs_app_r (a sub s : string) : occurs sub s -> occurs sub (a +:+ s).
Proof.
  intros H. induction a as [|c a IH]; [assumption |].
  rewrite app_cons. now apply occurs_cons.
Qed.

Lemma occurs_self (s : string) : occurs s s.
Proof. exists EmptyString, EmptyString. now rewrite app_empty_l, app_empty_r. Qed.

Lemma occurs_app_l (sub s b : string) : occurs sub s -> occurs sub (s +:+ b).
Proof.
  intros (before & after & ->). exists before, (after +:+ b).
  now rewrite !app_assoc_str.
Qed.

(** Every part occurs in the joined text. *)
Lemma occurs_join (sep part : string) (parts : list string) :
  In part parts -> occurs part (Py.join sep parts).
Proof.
  induction parts as [|p ps IH]; [intros [] |].
  intros Hin. cbn [Py.join]. destruct ps as [|q ps].
  - destruct Hin as [-> | []]. apply occurs_self.
  - destruct Hin as [-> | Hin].
    + apply occurs_app_l, occurs_self.
    + do 2 apply occurs_app_r. now apply IH.
Qed.

(** ** Examples *)

Example split_default_args :
  Shlex.split "-sT --top-ports 100" = Ok ["-sT"; "--top-ports"; "100"].
Proof. reflexivity. Qed.

Example split_quoted_words :
  Shlex.split "-p 22,80  'two words' --script=vuln"
  = Ok ["-p"; "22,80"; "two words"; "--script=vuln"].
Proof. reflexivity. Qed.

Example split_unclosed_quote :
  Shlex.split "-sT 'open" = Raise (ValueError "No closing quotation").
Proof. reflexivity. Qed.

Example validate_default_scan :
  Nmap.validate_scan_input
    {| Nmap.target := "scanme.nmap.org"; Nmap.nmap_args := "-sT --top-ports 100";
       Nmap.scan_id := "scan-000000000000" |}
  = Ok true.
Proof. reflexivity. Qed.

Example validate_injection :
  Nmap.validate_scan_input
    {| Nmap.target := "scanme.nmap.org; rm -rf /"; Nmap.nmap_args := "-sT";
       Nmap.scan_id := "scan-000000000000" |}
  = Raise (ValueError "Target contains blocked characters: 'scanme.nmap.org; rm -rf /'").
Proof. reflexivity. Qed.

Example validate_output_flag :
  Nmap.validate_scan_input
    {| Nmap.target := "scanme.nmap.org"; Nmap.nmap_args := "-sT -oN=/tmp/report";
       Nmap.scan_id := "scan-000000000000" |}
  = Raise (ValueError "Blocked nmap flag: '-on'").
Proof. reflexivity. Qed.

Example int_of_port : PyInt.int " 022 " = Ok 22.
Proof. reflexivity. Qed.

Example int_of_text :
  PyInt.int "ssh" = Raise (ValueError "invalid literal for int() with base 10: 'ssh'").
Proof. reflexivity. Qed.

Example format_short_output :
  Shell.f_summary <$>
    Shell.format_output
      {| Shell.raw_stdout := Some "hello"; Shell.raw_stderr := Some EmptyString;
         Shell.raw_exit_code := Some 0 |}
  = Ok ("Command exited with code 0." +:+ Py.nl +:+ Py.nl +:+ "stdout (5 bytes):"
          +:+ Py.nl +:+ "hello").
Proof. reflexivity. Qed.

(** ** The lexer *)

Lemma run_raises (s : string) :
  forall lx acc e, Shlex.run lx s acc = Raise e -> exists msg, e = ValueError msg.
Proof.
  induction s as [|c s IH]; intros lx acc e; simpl.
  - unfold Shlex.at_eof.
    destruct (Shlex.step lx None) as [lx'|lx'|msg];
      try (destruct (Shlex.result lx'); discriminate).
    intros [= <-]. eauto.
  - destruct (Shlex.step lx (Some c)) as [lx'|lx'|msg].
    + apply IH.
    + destruct (Shlex.result lx'); [apply IH | discriminate].
    + intros [= <-]. eauto.
Qed.

(** At the end of the input the loop of [read_token] always stops, and
    the [read_token] that follows a returned word returns [None]. *)
Lemma step_eof_stops (lx : Shlex.lexer) :
  match Shlex.step lx None with
  | Shlex.Continue _ => False
  | Shlex.Break lx' =>
      match Shlex.step (Shlex.fresh lx') None with
      | Shlex.Break lx'' => Shlex.result lx'' = None
      | _ => False
      end
  | Shlex.Fail _ => True
  end.
Proof.
  destruct lx as [[| | |q|e] tok q' es]; cbn; trivial.
Qed.

Lemma split_raises (s : string) (e : exn) :
  Shlex.split s = Raise e -> exists msg, e = ValueError msg.
Proof. apply run_raises. Qed.

Lemma blank_push (t : string) (c : ascii) :
  blank t -> Py.isspace c = true -> blank (t +:+ String c EmptyString).
Proof.
  unfold blank. intros Ht Hc. rewrite chars_app. apply Forall_app. split; [assumption |].
  repeat constructor. assumption.
Qed.

(** On blank input the lexer never enters a quote or an escape: it
    succeeds, and its tokens are made of the input's characters. *)
Lemma run_blank (s : string) :
  forall lx acc,
    blank s ->
    Shlex.state lx = Shlex.St_white \/ Shlex.state lx = Shlex.St_word ->
    blank (Shlex.token lx) ->
    Forall blank acc ->
    exists toks, Shlex.run lx s acc = Ok toks /\ Forall blank toks.
Proof.
  induction s as [|c s IH]; intros [st tok q es] acc Hs Hst Htok Hacc; simpl in *.
  - unfold Shlex.at_eof, Shlex.step; simpl.
    destruct Hst as [-> | ->]; unfold Shlex.result; simpl;
      destruct (negb q && negb (Py.truthy tok)); eauto;
      (eexists; split; [reflexivity |]; apply Forall_app; split; auto).
  - inversion Hs as [|? ? Hc Hs']; subst.
    destruct (isspace_plain c Hc) as (Hq & He & _).
    assert (Hone : blank (String c EmptyString)) by (repeat constructor; assumption).
    destruct Hst as [-> | ->]; unfold Shlex.step; simpl; rewrite ?Hq, ?He;
      destruct (Shlex.whitespace c); simpl;
      unfold Shlex.emit; simpl.
    + destruct (Py.truthy tok || q) eqn:Hemit.
      * unfold Shlex.result; simpl.
        destruct (negb q && negb (Py.truthy tok)).
        -- eauto.
        -- apply IH; auto; [constructor | apply Forall_app; split; auto].
      * apply IH; auto.
    + apply IH; auto.
    + destruct (Py.truthy tok || q) eqn:Hemit.
      * unfold Shlex.result; simpl.
        destruct (negb q && negb (Py.truthy tok)).
        -- eauto.
        -- apply IH; auto; [constructor | apply Forall_app; split; auto].
      * apply IH; auto.
    + apply IH; auto. simpl. apply blank_push; assumption.
Qed.

Lemma split_blank (s : string) :
  blank s -> exists toks, Shlex.split s = Ok toks /\ Forall blank toks.
Proof.
  intros Hs. apply run_blank; auto; constructor.
Qed.

(** ** The scan validator *)

(** The deny-list of characters, as the specification spells it. *)
Definition deny_listed_char (c : ascii) : Prop :=
  In c [";"; "&"; "|"; "`"; "$"; "("; ")"; "{"; "}"; "<"; ">"; "010"; "013"]%char.

Definition has_deny_listed_char (s : string) : Prop :=
  exists c, In c (Py.chars s) /\ deny_listed_char c.

(** The deny-list of flags. *)
Definition deny_flags : list string :=
  ["--script-args"; "-il"; "-on"; "-ox"; "-og"; "-oa"; "--datadir"].

(** [token] is the flag [flag], in any letter case, possibly followed by
    [=value]. *)
Definition names_flag (token flag : string) : Prop :=
  exists name,
    Py.lower name = Py.lower flag
    /\ (token = name \/ exists value, token = name +:+ "=" +:+ value).

Definition deny_listed_flag (token : string) : Prop :=
  exists flag, In flag deny_flags /\ names_flag token flag.

(** The reasons for which the specification rejects a scan input. *)
Definition scan_input_rejected (i : Nmap.NmapScanInput) : Prop :=
  has_deny_listed_char (Nmap.target i)
  \/ has_deny_listed_char (Nmap.nmap_args i)
  \/ (exists msg, Shlex.split (Nmap.nmap_args i) = Raise (ValueError msg))
  \/ (exists tokens token,
        Shlex.split (Nmap.nmap_args i) = Ok tokens
        /\ In token tokens /\ deny_listed_flag token)
  \/ blank (Nmap.target i).

Lemma search_spec (s : string) :
  Nmap.BLOCKED_METACHARACTERS_search s = true <-> has_deny_listed_char s.
Proof.
  unfold Nmap.BLOCKED_METACHARACTERS_search, has_deny_listed_char, deny_listed_char.
  rewrite existsb_exists. split; intros (c & Hin & Hc); exists c; split; auto.
  - apply existsb_exists in Hc as (d & Hd & Heq).
    apply Ascii.eqb_eq in Heq. now subst.
  - apply existsb_exists. exists c. split; [assumption | apply Ascii.eqb_refl].
Qed.

Lemma blocked_flags_spec (f : string) : f ∈ Nmap.BLOCKED_FLAGS <-> In f deny_flags.
Proof.
  unfold Nmap.BLOCKED_FLAGS, deny_flags. simpl. set_unfold.
  split; intros H; repeat (destruct H as [H | H]; auto 10); try contradiction;
    symmetry in H; auto 10.
Qed.

Definition no_eq_sign (s : string) : Prop := ~ In "="%char (Py.chars s).

Lemma split1_nonempty (sep : ascii) (s : string) : Py.split1 sep s <> [].
Proof.
  destruct s as [|c s]; simpl; [discriminate |].
  destruct (Ascii.eqb c sep); [discriminate |].
  destruct (Py.split1 sep s); discriminate.
Qed.

(** The first piece of [split("=", 1)] is the text before the first [=]. *)
Lemma split1_head (s : string) :
  no_eq_sign (Py.item0 (Py.split1 "=" s))
  /\ (s = Py.item0 (Py.split1 "=" s)
      \/ exists value, s = Py.item0 (Py.split1 "=" s) +:+ "=" +:+ value).
Proof.
  unfold no_eq_sign. induction s as [|c s IH]; simpl.
  - split; [intros [] | now left].
  - destruct (Ascii.eqb c "=") eqn:Hc.
    + apply Ascii.eqb_eq in Hc. subst. simpl. split; [intros [] |].
      right. exists s. reflexivity.
    + apply Ascii.eqb_neq in Hc.
      pose proof (split1_nonempty "=" s) as Hne.
      destruct (Py.split1 "=" s) as [|p ps]; [congruence |].
      simpl in *. destruct IH as (Hno & Hs). split.
      * unfold Py.chars in *. simpl. intros [He | Hin]; [congruence | auto].
      * destruct Hs as [-> | (v & ->)]; [now left |].
        right. exists v. reflexivity.
Qed.

Lemma split1_head_unique (name rest : string) :
  no_eq_sign name ->
  Py.item0 (Py.split1 "=" name) = name
  /\ Py.item0 (Py.split1 "=" (name +:+ "=" +:+ rest)) = name.
Proof.
  unfold no_eq_sign, Py.chars. induction name as [|c name IH]; intros Hno.
  - split; reflexivity.
  - simpl in Hno. rewrite app_cons. simpl.
    destruct (Ascii.eqb c "=") eqn:Hc.
    + apply Ascii.eqb_eq in Hc. subst. tauto.
    + destruct IH as (IH1 & IH2); [tauto |].
      pose proof (split1_nonempty "=" name) as Hne1.
      pose proof (split1_nonempty "=" (name +:+ "=" +:+ rest)) as Hne2.
      destruct (Py.split1 "=" name); [congruence |].
      destruct (Py.split1 "=" (name +:+ "=" +:+ rest)); [congruence |].
      simpl in *. subst. split; reflexivity.
Qed.

Lemma lower_no_eq_sign (s : string) : no_eq_sign (Py.lower s) -> no_eq_sign s.
Proof.
  unfold no_eq_sign, Py.chars. induction s as [|c s IH]; simpl; [trivial |].
  intros Hno [Hc | Hin].
  - apply Hno. left. subst. reflexivity.
  - apply IH; [| assumption]. intros H. apply Hno. now right.
Qed.

Lemma deny_flags_plain (flag : string) :
  In flag deny_flags -> Py.lower flag = flag /\ no_eq_sign flag.
Proof.
  unfold deny_flags, no_eq_sign. simpl.
  intros H; repeat (destruct H as [<- | H]; [split; [reflexivity | vm_compute; intuition congruence] |]).
  contradiction.
Qed.

(** The flag check of the code is the case-insensitive match of the
    specification. *)
Lemma canonical_spec (token : string) :
  Nmap.canonical token ∈ Nmap.BLOCKED_FLAGS <-> deny_listed_flag token.
Proof.
  rewrite blocked_flags_spec. unfold deny_listed_flag, names_flag, Nmap.canonical.
  split.
  - intros Hin. exists (Py.lower (Py.item0 (Py.split1 "=" token))).
    split; [assumption |].
    exists (Py.item0 (Py.split1 "=" token)). split.
    + symmetry. apply deny_flags_plain. assumption.
    + apply split1_head.
  - intros (flag & Hin & name & Hlow & Htok).
    destruct (deny_flags_plain flag Hin) as (Hfl & Hno).
    rewrite Hfl in Hlow.
    assert (Hname : no_eq_sign name) by (apply lower_no_eq_sign; now rewrite Hlow).
    destruct (split1_head_unique name EmptyString Hname) as (H1 & _).
    destruct Htok as [-> | (v & ->)].
    + rewrite H1, Hlow. assumption.
    + destruct (split1_head_unique name v Hname) as (_ & H2).
      rewrite H2, Hlow. assumption.
Qed.

Lemma check_tokens_ok (tokens : list string) :
  Nmap.check_tokens tokens = Ok tt <-> Forall (fun t => ~ deny_listed_flag t) tokens.
Proof.
  induction tokens as [|t ts IH]; simpl.
  - split; [constructor | reflexivity].
  - case_bool_decide as Hd; rewrite canonical_spec in Hd.
    + split; [discriminate | inversion 1; contradiction].
    + rewrite IH. split; [now constructor | now inversion 1].
Qed.

Lemma check_tokens_cases (tokens : list string) :
  Nmap.check_tokens tokens = Ok tt
  \/ exists msg, Nmap.check_tokens tokens = Raise (ValueError msg).
Proof.
  induction tokens as [|t ts IH]; simpl; [now left |].
  case_bool_decide; [right; eauto | assumption].
Qed.

(** A blank token names no flag. *)
Lemma blank_not_flag (t : string) : blank t -> ~ deny_listed_flag t.
Proof.
  intros Hb (flag & Hin & name & Hlow & Htok).
  assert (Hdash : exists rest, flag = String "-" rest).
  { unfold deny_flags in Hin. simpl in Hin.
    repeat (destruct Hin as [<- | Hin]; [eauto |]). contradiction. }
  destruct Hdash as (rest & ->).
  destruct (deny_flags_plain _ Hin) as (Hfl & _). rewrite Hfl in Hlow.
  destruct name as [|c name]; [discriminate |].
  simpl in Hlow. injection Hlow as Hc _. apply lower_char_dash in Hc. subst c.
  assert (Hin' : In "-"%char (Py.chars t)).
  { destruct Htok as [-> | (v & ->)]; [now left |]. rewrite app_cons. now left. }
  unfold blank in Hb. rewrite List.Forall_forall in Hb. apply Hb in Hin'. discriminate.
Qed.

(** What the guarded tokenization of the code returns, against the plain
    tokenization of the specification. *)
Lemma tokens_of_spec (args : string) :
  match Nmap.tokens_of args with
  | Ok tokens =>
      exists tokens',
        Shlex.split args = Ok tokens'
        /\ (Forall (fun t => ~ deny_listed_flag t) tokens
            <-> Forall (fun t => ~ deny_listed_flag t) tokens')
  | Raise e => Shlex.split args = Raise e
  end.
Proof.
  unfold Nmap.tokens_of. destruct (Py.truthy (Py.strip args)) eqn:Hs.
  - destruct (Shlex.split args) as [toks|e]; [| reflexivity].
    exists toks. split; [reflexivity | tauto].
  - apply strip_falsy in Hs. destruct (split_blank args Hs) as (toks & Heq & Hb).
    exists toks. split; [assumption |]. split; [| constructor].
    intros _. eapply List.Forall_impl; [| exact Hb]. apply blank_not_flag.
Qed.

Lemma validate_scan_input_cases (i : Nmap.NmapScanInput) :
  Nmap.validate_scan_input i = Ok true
  \/ exists msg, Nmap.validate_scan_input i = Raise (ValueError msg).
Proof.
  unfold Nmap.validate_scan_input.
  destruct (Nmap.BLOCKED_METACHARACTERS_search (Nmap.target i)); [right; eauto |].
  destruct (Nmap.BLOCKED_METACHARACTERS_search (Nmap.nmap_args i)); [right; eauto |].
  pose proof (tokens_of_spec (Nmap.nmap_args i)) as Htok.
  destruct (Nmap.tokens_of (Nmap.nmap_args i)) as [toks|e].
  - destruct (check_tokens_cases toks) as [-> | (msg & ->)]; simpl.
    + destruct (negb (Py.truthy (Py.strip (Nmap.target i)))); [right; eauto | now left].
    + right. eauto.
  - apply split_raises in Htok as (msg & ->). right. eauto.
Qed.

Lemma validate_scan_input_ok (i : Nmap.NmapScanInput) :
  Nmap.validate_scan_input i = Ok true <-> ~ scan_input_rejected i.
Proof.
  unfold Nmap.validate_scan_input, scan_input_rejected.
  rewrite <- !search_spec.
  destruct (Nmap.BLOCKED_METACHARACTERS_search (Nmap.target i));
    [split; [discriminate | tauto] |].
  destruct (Nmap.BLOCKED_METACHARACTERS_search (Nmap.nmap_args i));
    [split; [discriminate | tauto] |].
  pose proof (tokens_of_spec (Nmap.nmap_args i)) as Htok.
  destruct (Nmap.tokens_of (Nmap.nmap_args i)) as [toks|e].
  - destruct Htok as (toks' & Hsplit & Hsame). rewrite Hsplit.
    destruct (Nmap.check_tokens toks) as [[]|e] eqn:Hchk; simpl.
    + apply check_tokens_ok in Hchk. apply Hsame in Hchk.
      rewrite List.Forall_forall in Hchk.
      destruct (Py.truthy (Py.strip (Nmap.target i))) eqn:Ht; simpl.
      * apply strip_truthy in Ht. split; [| reflexivity].
        intros _ [H | [H | [(msg & H) | [(ts & t & H & Hin & Hd) | H]]]];
          try discriminate; try contradiction.
        injection H as <-. exact (Hchk t Hin Hd).
      * apply strip_falsy in Ht. split; [discriminate | tauto].
    + split; [discriminate |]. intros Hno. exfalso.
      assert (Hbad : ~ Forall (fun t => ~ deny_listed_flag t) toks').
      { rewrite <- Hsame, <- check_tokens_ok, Hchk. discriminate. }
      apply Hbad. apply List.Forall_forall. intros t Hin Hd.
      apply Hno. do 3 right. left. exists toks', t. auto.
  - pose proof Htok as Hv. apply split_raises in Hv as (msg & ->).
    split; [discriminate |]. intros Hno. exfalso. apply Hno.
    do 2 right. left. eauto.
Qed.

(** C1. [validate_scan_input] raises whenever the target or the option
    string has a deny-listed character, the option string does not
    tokenize, a token names a deny-listed flag (in any letter case, with
    or without [=value]) or the target is blank; on every other input it
    returns [True]. *)
Theorem validate_scan_input_spec (i : Nmap.NmapScanInput) :
  (scan_input_rejected i ->
     exists msg, Nmap.validate_scan_input i = Raise (ValueError msg))
  /\ (~ scan_input_rejected i -> Nmap.validate_scan_input i = Ok true).
Proof.
  split.
  - intros Hrej. destruct (validate_scan_input_cases i) as [Hok | Hraise].
    + apply validate_scan_input_ok in Hok. contradiction.
    + assumption.
  - apply validate_scan_input_ok.
Qed.

(** ** The scan with no option flags *)

(** [create_subprocess_exec] restricted to one argument vector: any other
    one is refused. *)
Definition only_on (argv : list string)
    (create_subprocess_exec : list string -> res CompletedProcess)
    : list string -> res CompletedProcess :=
  fun a =>
    if decide (a = argv) then create_subprocess_exec a
    else Raise (OSError "unexpected argument vector").

Definition newline_args_input : Nmap.NmapScanInput :=
  {| Nmap.target := "scanme.nmap.org";
     Nmap.nmap_args := Py.nl;
     Nmap.scan_id := "scan-000000000000" |}.

Definition blank_args_input : Nmap.NmapScanInput :=
  {| Nmap.target := "scanme.nmap.org";
     Nmap.nmap_args := "  ";
     Nmap.scan_id := "scan-000000000000" |}.

(** Option flags that are one line feed are white space only, the target
    is clean and not blank, and validation raises all the same: the
    deny-list of characters holds the line feed. *)
Lemma blank_args_with_newline_rejected :
  blank (Nmap.nmap_args newline_args_input)
  /\ ~ has_deny_listed_char (Nmap.target newline_args_input)
  /\ ~ blank (Nmap.target newline_args_input)
  /\ Nmap.validate_scan_input newline_args_input
     = Raise (ValueError
                ("Arguments contain blocked characters: '" +:+ String Py.backslash "n'")).
Proof.
  split; [| split; [| split]].
  - repeat constructor.
  - rewrite <- search_spec. vm_compute. discriminate.
  - rewrite <- strip_truthy. reflexivity.
  - reflexivity.
Qed.

(** C10, amended.  When the option flags are empty or white space other
    than line feed and carriage return (no deny-listed character), and the
    target has no deny-listed character and is not blank, validation
    returns [True], the argument vector is [nmap -oX - target], and that
    vector is the only thing the execute stage asks the host to run. *)
Theorem blank_args_scan (i : Nmap.NmapScanInput) :
  blank (Nmap.nmap_args i) ->
  ~ has_deny_listed_char (Nmap.nmap_args i) ->
  ~ has_deny_listed_char (Nmap.target i) ->
  ~ blank (Nmap.target i) ->
  Nmap.validate_scan_input i = Ok true
  /\ Nmap.tokens_of (Nmap.nmap_args i) = Ok []
  /\ Nmap.cmd i = Ok ["nmap"; "-oX"; "-"; Nmap.target i]
  /\ forall create_subprocess_exec decode,
       Nmap.run_nmap_scan create_subprocess_exec decode i
       = Nmap.run_nmap_scan
           (only_on ["nmap"; "-oX"; "-"; Nmap.target i] create_subprocess_exec)
           decode i.
Proof.
  intros Hargs Hclean Htarget Hnonblank.
  assert (Htok : Nmap.tokens_of (Nmap.nmap_args i) = Ok []).
  { unfold Nmap.tokens_of. apply strip_falsy in Hargs. now rewrite Hargs. }
  assert (Hcmd : Nmap.cmd i = Ok ["nmap"; "-oX"; "-"; Nmap.target i]).
  { unfold Nmap.cmd. rewrite Htok. reflexivity. }
  split; [| split; [assumption | split; [assumption |]]].
  - unfold Nmap.validate_scan_input.
    rewrite <- search_spec in Hclean, Htarget.
    apply not_true_is_false in Hclean, Htarget. rewrite Hclean, Htarget, Htok.
    apply strip_truthy in Hnonblank. simpl. now rewrite Hnonblank.
  - intros cse dec. unfold Nmap.run_nmap_scan. rewrite Hcmd. simpl.
    unfold only_on. rewrite decide_True by reflexivity. reflexivity.
Qed.

Lemma blank_args_scan_witness :
  Nmap.validate_scan_input blank_args_input = Ok true
  /\ Nmap.tokens_of (Nmap.nmap_args blank_args_input) = Ok []
  /\ Nmap.cmd blank_args_input = Ok ["nmap"; "-oX"; "-"; "scanme.nmap.org"]
  /\ forall create_subprocess_exec decode,
       Nmap.run_nmap_scan create_subprocess_exec decode blank_args_input
       = Nmap.run_nmap_scan
           (only_on ["nmap"; "-oX"; "-"; "scanme.nmap.org"] create_subprocess_exec)
           decode blank_args_input.
Proof.
  apply (blank_args_scan blank_args_input).
  - repeat constructor.
  - rewrite <- search_spec. vm_compute. discriminate.
  - rewrite <- search_spec. vm_compute. discriminate.
  - rewrite <- strip_truthy. reflexivity.
Defined.

(** ** The open-ports summary of the scan parser *)

Lemma for_each_Forall {A B : Type} (f : A -> res B) (l : list A) (bs : list B) :
  Nmap.for_each f l = Ok bs -> Forall (fun b => exists a, In a l /\ f a = Ok b) bs.
Proof.
  revert bs. induction l as [|a l IH]; intros bs; simpl.
  - intros [= <-]. constructor.
  - destruct (f a) as [b|e] eqn:Hfa; simpl; [| discriminate].
    destruct (Nmap.for_each f l) as [bs'|e]; simpl; [| discriminate].
    intros [= <-]. constructor; [eauto |].
    eapply List.Forall_impl; [| apply IH; reflexivity].
    intros b' (a' & Hin & Hb'). eauto.
Qed.

(** The summary of one host, as the specification words it: the entries
    [port/protocol (service)] of the ports whose state is the string
    [open], joined with a comma and a space. *)
Definition open_ports_line (ports : list Nmap.Port) : string :=
  Py.join ", "
    (map (fun p => Py.str_of_int (Nmap.port p) +:+ "/" +:+ Nmap.protocol p
                     +:+ " (" +:+ default "unknown" (Nmap.service p) +:+ ")")
         (List.filter (fun p => bool_decide (Nmap.state p = Some "open")) ports)).

Lemma is_open_spec (p : Nmap.Port) :
  Nmap.is_open p = bool_decide (Nmap.state p = Some "open").
Proof.
  unfold Nmap.is_open. destruct (Nmap.state p) as [s|].
  - destruct (String.eqb_spec s "open") as [-> | Hne].
    + now rewrite bool_decide_eq_true_2.
    + rewrite bool_decide_eq_false_2; [reflexivity | congruence].
  - now rewrite bool_decide_eq_false_2.
Qed.

Lemma parse_host_summary (host_elem : ET.Element) (h : Nmap.Host) :
  Nmap.parse_host host_elem = Ok h ->
  Nmap.open_ports_summary h = open_ports_line (Nmap.ports h).
Proof.
  unfold Nmap.parse_host.
  destruct (Nmap.for_each Nmap.parse_port _) as [ports|e]; simpl; [| discriminate].
  intros [= <-]. simpl. unfold open_ports_line.
  rewrite (List.filter_ext _ _ is_open_spec). reflexivity.
Qed.

Definition element (tag : string) (attrib : list (string * string))
    (children : list ET.Element) : ET.Element :=
  ET.Elem tag (list_to_map attrib) children.

(** A scan report with one host that has one open port, 22/tcp, running
    ssh. *)
Definition fixture_xml : string :=
  "<nmaprun scanner='nmap' args='nmap -sT -oX - 192.0.2.7' startstr='Mon'>"
  +:+ "<host><status state='up'/>"
  +:+ "<address addr='192.0.2.7' addrtype='ipv4'/>"
  +:+ "<ports><port protocol='tcp' portid='22'>"
  +:+ "<state state='open' reason='syn-ack'/><service name='ssh'/>"
  +:+ "</port></ports></host>"
  +:+ "<runstats><finished timestr='Mon' elapsed='0.10'/>"
  +:+ "<hosts up='1' down='0' total='1'/></runstats></nmaprun>".

Definition fixture_root : ET.Element :=
  element "nmaprun"
    [("scanner", "nmap"); ("args", "nmap -sT -oX - 192.0.2.7"); ("startstr", "Mon")]
    [ element "host" []
        [ element "status" [("state", "up")] [];
          element "address" [("addr", "192.0.2.7"); ("addrtype", "ipv4")] [];
          element "ports" []
            [ element "port" [("protocol", "tcp"); ("portid", "22")]
                [ element "state" [("state", "open"); ("reason", "syn-ack")] [];
                  element "service" [("name", "ssh")] [] ] ] ];
      element "runstats" []
        [ element "finished" [("timestr", "Mon"); ("elapsed", "0.10")] [];
          element "hosts" [("up", "1"); ("down", "0"); ("total", "1")] [] ] ].

(** A parser that knows the fixture document and nothing else. *)
Definition fixture_parser (raw_xml : string) : res ET.Element :=
  if String.eqb raw_xml fixture_xml then Ok fixture_root
  else Raise (ParseError "syntax error").

Definition fixture_digest : string :=
  "Nmap scan completed. 1 host(s) up out of 1 scanned." +:+ Py.nl
  +:+ Py.nl +:+ "Host 1: 192.0.2.7 [up]" +:+ Py.nl
  +:+ "  Open ports: 22/tcp (ssh)".

Example parse_fixture :
  Nmap.summary <$> Nmap.parse_nmap_xml fixture_parser fixture_xml = Ok fixture_digest.
Proof. reflexivity. Qed.

(** C6. In every parsed scan result the open-ports summary of each host is
    the comma-joined list of the entries [port/protocol (service)] of
    exactly the ports of that host whose state is the string [open]; and
    when the result has one host with one port, 22/tcp, open, running ssh,
    the summary of the host is [22/tcp (ssh)] and the digest has the line
    that shows it. *)
Theorem open_ports_summary_spec
    (fromstring : string -> res ET.Element) (raw_xml : string) (parsed : Nmap.Parsed) :
  Nmap.parse_nmap_xml fromstring raw_xml = Ok parsed ->
  Forall (fun h =>
            Nmap.open_ports_summary h = open_ports_line (Nmap.ports h)
            /\ forall p,
                 In p (List.filter (fun p => bool_decide (Nmap.state p = Some "open"))
                                   (Nmap.ports h))
                 <-> In p (Nmap.ports h) /\ Nmap.state p = Some "open")
         (Nmap.hosts parsed)
  /\ (forall h p,
        Nmap.hosts parsed = [h] ->
        Nmap.ports h = [p] ->
        Nmap.port p = 22 -> Nmap.protocol p = "tcp" ->
        Nmap.state p = Some "open" -> Nmap.service p = Some "ssh" ->
        Nmap.open_ports_summary h = "22/tcp (ssh)"
        /\ In "  Open ports: 22/tcp (ssh)"
              (Nmap.summary_parts (Nmap.scan_info parsed) (Nmap.hosts parsed))
        /\ occurs "  Open ports: 22/tcp (ssh)" (Nmap.summary parsed)).
Proof.
  unfold Nmap.parse_nmap_xml. intros Hparse.
  destruct (fromstring raw_xml) as [root|e];
    cbn [mbind res_mbind res_bind] in Hparse; [| discriminate].
  unfold Nmap.parse_root in Hparse.
  destruct (Nmap.parse_scan_info root) as [info|e];
    cbn [mbind res_mbind res_bind] in Hparse; [| discriminate].
  destruct (Nmap.for_each Nmap.parse_host _) as [hs|e] eqn:Hhosts;
    cbn [mbind res_mbind res_bind] in Hparse; [| discriminate].
  assert (Hhs : Nmap.hosts parsed = hs) by (now injection Hparse as <-).
  assert (Hdigest : Nmap.summary parsed
                    = Py.join Py.nl (Nmap.summary_parts (Nmap.scan_info parsed)
                                       (Nmap.hosts parsed)))
    by (now injection Hparse as <-).
  clear Hparse. rewrite Hdigest, Hhs. clear Hdigest Hhs.
  apply for_each_Forall in Hhosts.
  assert (Hall : Forall (fun h => Nmap.open_ports_summary h = open_ports_line (Nmap.ports h)) hs).
  { eapply List.Forall_impl; [| exact Hhosts].
    intros h (e & _ & Hh). eapply parse_host_summary; eassumption. }
  split.
  - eapply List.Forall_impl; [| exact Hall]. intros h Hh. split; [exact Hh |].
    intros p. rewrite List.filter_In, bool_decide_eq_true. tauto.
  - intros h p -> Hports Hport Hproto Hstate Hservice.
    inversion Hall as [|? ? Hsum _]; subst.
    assert (Hline : Nmap.open_ports_summary h = "22/tcp (ssh)").
    { rewrite Hsum, Hports. unfold open_ports_line. cbn [List.filter].
      rewrite bool_decide_eq_true_2 by assumption. cbn [map Py.join].
      now rewrite Hport, Hproto, Hservice. }
    assert (Hin : In "  Open ports: 22/tcp (ssh)"
                     (Nmap.summary_parts (Nmap.scan_info parsed) [h])).
    { unfold Nmap.summary_parts, Nmap.hosts_lines, Nmap.host_lines.
      rewrite Hline. cbn. auto. }
    split; [exact Hline | split; [exact Hin |]].
    now apply occurs_join.
Qed.

Lemma open_ports_summary_spec_witness :
  exists parsed h,
    Nmap.parse_nmap_xml fixture_parser fixture_xml = Ok parsed
    /\ Nmap.hosts parsed = [h]
    /\ Nmap.open_ports_summary h = "22/tcp (ssh)"
    /\ occurs "  Open ports: 22/tcp (ssh)" (Nmap.summary parsed).
Proof.
  destruct (Nmap.parse_nmap_xml fixture_parser fixture_xml) as [parsed|e] eqn:Hp;
    [| vm_compute in Hp; discriminate].
  destruct (open_ports_summary_spec fixture_parser fixture_xml parsed Hp) as (_ & Hone).
  vm_compute in Hp. injection Hp as <-.
  eexists _, _. split; [reflexivity | split; [reflexivity |]].
  destruct (Hone _ _ eq_refl eq_refl eq_refl eq_refl eq_refl eq_refl) as (Hsum & _ & Hocc).
  split; [exact Hsum | exact Hocc].
Defined.

(** ** The orchestrator *)

(** What a history entry says about the policy of its stage: the name of
    the activity, the attempt limit, the per-attempt deadline in seconds
    and the heartbeat deadline in seconds, if any. *)
Definition policy_of (d : Temporal.dispatch) : string * Z * Z * option Z :=
  (Temporal.d_name d,
   Temporal.maximum_attempts (Temporal.retry_policy (Temporal.d_options d)),
   Temporal.total_seconds (Temporal.start_to_close_timeout (Temporal.d_options d)),
   Temporal.total_seconds <$> Temporal.heartbeat_timeout (Temporal.d_options d)).

(** The policy table of the specification: 1 attempt and 30 seconds for
    validate, 3 attempts, 4 hours and a heartbeat every 2 minutes for
    execute, 2 attempts and 60 seconds for structure. *)
Definition policy_table (validate execute structure : string)
    : list (string * Z * Z * option Z) :=
  [ (validate, 1, 30, None);
    (execute, 3, 4 * 60 * 60, Some (2 * 60));
    (structure, 2, 60, None) ].

(** The shape both workflows have: three awaited stages, the second fed
    the input again, the third fed the result of the second. *)
Definition three_stages {I X Y : Type} (names : string * string * string)
    (validate : I -> res bool) (execute : I -> res X) (structure : X -> res Y)
    (input : I) : Temporal.workflow Y :=
  Temporal.ExecuteActivity names.1.1 validate input Shell.validate_options (fun _ =>
  Temporal.ExecuteActivity names.1.2 execute input Shell.execute_options (fun x =>
  Temporal.ExecuteActivity names.2 structure x Shell.structure_options (fun y =>
  Temporal.Return y))).

(** What the history [log] and the [outcome] of one run must satisfy,
    for the three activities [validate], [execute] and [structure] on
    [input] under the fault [schedule]. *)
Record history_ok {I X Y : Type} (names : string * string * string)
    (validate : I -> res bool) (execute : I -> res X) (structure : X -> res Y)
    (input : I) (schedule : list (list Temporal.lost))
    (log : list Temporal.dispatch) (outcome : res Y) : Prop := {
  (* the stages are dispatched in order, each under its policy *)
  in_order :
    exists n, (1 <= n <= 3)%nat
              /\ map policy_of log = take n (policy_table names.1.1 names.1.2 names.2);
  (* no stage is attempted more often than its limit *)
  within_limits :
    Forall (fun d => 1 <= Z.of_nat (Temporal.d_attempts d)
                     <= Temporal.maximum_attempts
                          (Temporal.retry_policy (Temporal.d_options d))) log;
  (* a stage is dispatched only after every earlier one has succeeded *)
  one_after_another :
    forall k d, log !! k = Some d -> (S k < length log)%nat ->
                Temporal.d_succeeded d = true;
  (* a failed validation ends the run: execute is never dispatched *)
  validate_gates :
    forall e, validate input = Raise e -> length log = 1%nat;
  (* execute was dispatched: validate had returned, whatever its value *)
  validate_dropped :
    (2 <= length log)%nat -> exists b, validate input = Ok b;
  (* structure was dispatched: it was fed what execute had returned *)
  execute_feeds_structure :
    (3 <= length log)%nat ->
    exists x, execute input = Ok x /\ forall y, outcome = Ok y -> structure x = Ok y;
  (* the run succeeds exactly when the three stages did *)
  success :
    is_ok outcome = true <->
    length log = 3%nat /\ Forall (fun d => Temporal.d_succeeded d = true) log;
  (* without faults, three stages that return make the run return *)
  fault_free :
    schedule = [] ->
    forall b x y, validate input = Ok b -> execute input = Ok x -> structure x = Ok y ->
                  outcome = Ok y
}.

(** The guarantee of the orchestration of one task: the history is in
    order whatever faults the engine meets. *)
Definition orchestrated {I X Y : Type} (names : string * string * string)
    (validate : I -> res bool) (execute : I -> res X) (structure : X -> res Y)
    (input : I) (w : Temporal.workflow Y) : Prop :=
  forall schedule : list (list Temporal.lost),
    history_ok names validate execute structure input schedule
      (Temporal.execute w schedule).1 (Temporal.execute w schedule).2.

Lemma run_stage_spec {A B : Type} (fn : A -> res B) (arg : A)
    (opts : Temporal.ActivityOptions) (faults : list Temporal.lost) :
  1 <= Temporal.maximum_attempts (Temporal.retry_policy opts) ->
  let r := Temporal.run_stage fn arg opts faults in
  1 <= Z.of_nat r.1 <= Temporal.maximum_attempts (Temporal.retry_policy opts)
  /\ (forall b, r.2 = Ok b -> fn arg = Ok b)
  /\ (faults = [] -> forall b, fn arg = Ok b -> r.2 = Ok b).
Proof.
  intros Hmax. unfold Temporal.run_stage, Temporal.budget.
  set (hits := List.filter _ faults).
  destruct (Nat.ltb_spec (length hits) (Z.to_nat (Z.max 1 (Temporal.maximum_attempts
                                                    (Temporal.retry_policy opts))))) as [Hlt | Hge].
  - destruct (fn arg) as [b|e]; simpl; split; try lia;
      (split; [intros b'; congruence | intros _ b'; congruence]).
  - simpl. split; [lia |]. split.
    + destruct (List.last hits Temporal.WorkerLost); discriminate.
    + intros ->. simpl in Hge. lia.
Qed.

Lemma three_stages_orchestrated {I X Y : Type} (names : string * string * string)
    (validate : I -> res bool) (execute : I -> res X) (structure : X -> res Y)
    (input : I) :
  orchestrated names validate execute structure input
    (three_stages names validate execute structure input).
Proof.
  intros schedule. unfold three_stages. cbn [Temporal.execute].
  pose proof (run_stage_spec validate input Shell.validate_options (hd [] schedule)
                ltac:(cbn; lia)) as H1.
  destruct (Temporal.run_stage validate input Shell.validate_options (hd [] schedule))
    as [n1 [b|e1]]; cbn in H1; destruct H1 as (Hn1 & Hv & Hv0).
  2:{ cbn. split.
      - exists 1%nat. split; [lia | reflexivity].
      - repeat constructor; cbn; lia.
      - intros [|k] d; cbn; [lia | discriminate].
      - reflexivity.
      - cbn. lia.
      - cbn. lia.
      - split; [discriminate | intros [[=] _]].
      - intros -> b x y Hb _ _. specialize (Hv0 eq_refl b Hb). discriminate. }
  pose proof (run_stage_spec execute input Shell.execute_options (hd [] (tl schedule))
                ltac:(cbn; lia)) as H2.
  destruct (Temporal.run_stage execute input Shell.execute_options (hd [] (tl schedule)))
    as [n2 [x|e2]]; cbn in H2; destruct H2 as (Hn2 & Hx & Hx0).
  2:{ cbn. split.
      - exists 2%nat. split; [lia | reflexivity].
      - repeat constructor; cbn; lia.
      - intros [|[|k]] d; cbn; try lia; try discriminate. now intros [= <-].
      - intros e He. rewrite (Hv b eq_refl) in He. discriminate.
      - intros _. exists b. now apply Hv.
      - cbn. lia.
      - split; [discriminate | intros [[=] _]].
      - intros -> b' x y _ Hx' _. specialize (Hx0 eq_refl x Hx'). discriminate. }
  pose proof (run_stage_spec structure x Shell.structure_options
                (hd [] (tl (tl schedule))) ltac:(cbn; lia)) as H3.
  destruct (Temporal.run_stage structure x Shell.structure_options
              (hd [] (tl (tl schedule))))
    as [n3 [y|e3]]; cbn in H3; destruct H3 as (Hn3 & Hy & Hy0).
  - cbn. split.
    + exists 3%nat. split; [lia | reflexivity].
    + repeat constructor; cbn; lia.
    + intros [|[|[|k]]] d; cbn; try lia; try discriminate; now intros [= <-].
    + intros e He. rewrite (Hv b eq_refl) in He. discriminate.
    + intros _. exists b. now apply Hv.
    + intros _. exists x. split; [now apply Hx |]. intros y' [= <-]. now apply Hy.
    + split; [intros _; split; [reflexivity | repeat constructor] | reflexivity].
    + intros -> b' x' y' _ Hx' Hy'. rewrite (Hx x eq_refl) in Hx'. injection Hx' as <-.
      exact (Hy0 eq_refl y' Hy').
  - cbn. split.
    + exists 3%nat. split; [lia | reflexivity].
    + repeat constructor; cbn; lia.
    + intros [|[|[|k]]] d; cbn; try lia; try discriminate; now intros [= <-].
    + intros e He. rewrite (Hv b eq_refl) in He. discriminate.
    + intros _. exists b. now apply Hv.
    + intros _. exists x. split; [now apply Hx |]. intros y' [=].
    + split; [discriminate |].
      intros [_ Hall]. inversion Hall as [|? ? _ Hall2]. inversion Hall2 as [|? ? _ Hall3].
      inversion Hall3 as [|? ? Hbad _]. discriminate.
    + intros -> b' x' y' _ Hx' Hy'. rewrite (Hx x eq_refl) in Hx'. injection Hx' as <-.
      specialize (Hy0 eq_refl y' Hy'). discriminate.
Qed.

Lemma pipeline_policy_for_scans
    (create_subprocess_exec : list string -> res CompletedProcess)
    (decode : list Byte.byte -> string)
    (fromstring : string -> res ET.Element) (scan_input : Nmap.NmapScanInput) :
  orchestrated ("validate_scan_input", "run_nmap_scan", "parse_nmap_xml")
    Nmap.validate_scan_input
    (Nmap.run_nmap_scan create_subprocess_exec decode)
    (Nmap.parse_nmap_xml fromstring)
    scan_input
    (Nmap.NmapScanWorkflow_run create_subprocess_exec decode fromstring scan_input).
Proof.
  apply (three_stages_orchestrated
           ("validate_scan_input", "run_nmap_scan", "parse_nmap_xml")).
Qed.

Lemma pipeline_policy_for_commands
    (create_subprocess_exec : list string -> res CompletedProcess)
    (decode : list Byte.byte -> string) (cmd_input : Shell.ShellCommandInput) :
  orchestrated ("validate_command", "run_shell_command", "format_output")
    Shell.validate_command
    (Shell.run_shell_command create_subprocess_exec decode)
    Shell.format_output
    cmd_input
    (Shell.ShellCommandWorkflow_run create_subprocess_exec decode cmd_input).
Proof.
  apply (three_stages_orchestrated
           ("validate_command", "run_shell_command", "format_output")).
Qed.

(** C7. Both workflows dispatch validate, execute and structure in this
    order, each awaited before the next, under the policies of the table:
    validate 1 attempt, 30 seconds, no heartbeat; execute 3 attempts,
    4 hours, heartbeat every 2 minutes; structure 2 attempts, 60 seconds,
    no heartbeat.  Execute receives the task input (the boolean of
    validate is dropped) and structure receives what execute returned. *)
Theorem pipeline_policy
    (create_subprocess_exec : list string -> res CompletedProcess)
    (decode : list Byte.byte -> string)
    (fromstring : string -> res ET.Element) :
  (forall cmd_input,
     orchestrated ("validate_command", "run_shell_command", "format_output")
       Shell.validate_command
       (Shell.run_shell_command create_subprocess_exec decode)
       Shell.format_output
       cmd_input
       (Shell.ShellCommandWorkflow_run create_subprocess_exec decode cmd_input))
  /\ (forall scan_input,
        orchestrated ("validate_scan_input", "run_nmap_scan", "parse_nmap_xml")
          Nmap.validate_scan_input
          (Nmap.run_nmap_scan create_subprocess_exec decode)
          (Nmap.parse_nmap_xml fromstring)
          scan_input
          (Nmap.NmapScanWorkflow_run create_subprocess_exec decode fromstring scan_input)).
Proof.
  split; intros input.
  - apply pipeline_policy_for_commands.
  - apply pipeline_policy_for_scans.
Qed.

(** ** The execute stage *)

(** A decoder for the examples: every byte is taken as the character of
    the same code (right for ASCII output). *)
Definition ascii_decode (bytes : list Byte.byte) : string :=
  string_of_list_byte bytes.

Definition bytes_of (s : string) : list Byte.byte := list_byte_of_string s.

(** A host on which every command ends the same way. *)
Definition always (proc : CompletedProcess) : list string -> res CompletedProcess :=
  fun _ => Ok proc.

Definition failed_silently : CompletedProcess :=
  {| stdout_bytes := []; stderr_bytes := bytes_of "boom"; returncode := 1 |}.

Definition failed_with_newline : CompletedProcess :=
  {| stdout_bytes := bytes_of Py.nl; stderr_bytes := bytes_of "boom"; returncode := 1 |}.

Definition failed_with_output : CompletedProcess :=
  {| stdout_bytes := bytes_of "<nmaprun/>"; stderr_bytes := bytes_of "boom";
     returncode := 1 |}.

Definition succeeded_quietly : CompletedProcess :=
  {| stdout_bytes := bytes_of "<nmaprun/>"; stderr_bytes := []; returncode := 0 |}.

Definition some_command : Shell.ShellCommandInput :=
  {| Shell.command := "false"; Shell.task_id := "task-000000000000" |}.

Definition some_scan : Nmap.NmapScanInput :=
  {| Nmap.target := "scanme.nmap.org";
     Nmap.nmap_args := "-sT --top-ports 100";
     Nmap.scan_id := "scan-000000000000" |}.

(** A shell command that exits with code 1 and prints nothing on its
    standard output does not fail the execute stage; and a scan that exits
    with code 1 having printed a line feed, which is some output, does. *)
Lemma exit_code_rule_differs :
  Shell.run_shell_command (always failed_silently) ascii_decode some_command
  = Ok {| Shell.raw_stdout := Some EmptyString;
          Shell.raw_stderr := Some "boom";
          Shell.raw_exit_code := Some 1 |}
  /\ stdout_bytes failed_with_newline <> []
  /\ Nmap.run_nmap_scan (always failed_with_newline) ascii_decode some_scan
     = Raise (RuntimeError "nmap exited with code 1. stderr: boom").
Proof. split; [reflexivity | split; [discriminate | reflexivity]]. Qed.

(** C2, amended.  In the scan variant, a process that exits with a
    non-zero code and whose decoded standard output is empty or white
    space only fails the execute stage with an error whose message carries
    the exit code and the decoded standard error; with a zero exit code,
    or with some non-blank standard output, the stage returns the decoded
    output.  In the shell variant the execute stage never fails on the
    exit code: whatever the process printed and however it exited, the
    stage returns the record of its output and exit code. *)
Theorem execute_exit_code_rule
    (create_subprocess_exec : list string -> res CompletedProcess)
    (decode : list Byte.byte -> string) :
  (forall scan_input argv proc,
     Nmap.cmd scan_input = Ok argv ->
     create_subprocess_exec argv = Ok proc ->
     (returncode proc <> 0 -> blank (decode (stdout_bytes proc)) ->
      Nmap.run_nmap_scan create_subprocess_exec decode scan_input
      = Raise (RuntimeError
                 ("nmap exited with code " +:+ Py.str_of_int (returncode proc)
                    +:+ ". stderr: " +:+ decode (stderr_bytes proc))))
     /\ (returncode proc = 0 \/ ~ blank (decode (stdout_bytes proc)) ->
         Nmap.run_nmap_scan create_subprocess_exec decode scan_input
         = Ok (decode (stdout_bytes proc))))
  /\ (forall cmd_input proc,
        create_subprocess_exec (Shell.cmd cmd_input) = Ok proc ->
        Shell.run_shell_command create_subprocess_exec decode cmd_input
        = Ok {| Shell.raw_stdout := Some (decode (stdout_bytes proc));
                Shell.raw_stderr := Some (decode (stderr_bytes proc));
                Shell.raw_exit_code := Some (returncode proc) |}).
Proof.
  split.
  - intros i argv proc Hcmd Hproc. unfold Nmap.run_nmap_scan.
    rewrite Hcmd. simpl. rewrite Hproc. simpl. split.
    + intros Hcode Hblank. apply Z.eqb_neq in Hcode. rewrite Hcode.
      apply strip_falsy in Hblank. rewrite Hblank. reflexivity.
    + intros [Hcode | Hout].
      * rewrite Hcode. reflexivity.
      * apply strip_truthy in Hout. rewrite Hout.
        now rewrite andb_false_r.
  - intros i proc Hproc. unfold Shell.run_shell_command.
    rewrite Hproc. reflexivity.
Qed.

Lemma execute_exit_code_rule_witness :
  Nmap.run_nmap_scan (always failed_silently) ascii_decode some_scan
  = Raise (RuntimeError "nmap exited with code 1. stderr: boom")
  /\ Nmap.run_nmap_scan (always failed_with_output) ascii_decode some_scan
     = Ok "<nmaprun/>"
  /\ Shell.run_shell_command (always failed_silently) ascii_decode some_command
     = Ok {| Shell.raw_stdout := Some EmptyString;
             Shell.raw_stderr := Some "boom";
             Shell.raw_exit_code := Some 1 |}.
Proof.
  destruct (execute_exit_code_rule (always failed_silently) ascii_decode) as [Hscan Hshell].
  destruct (execute_exit_code_rule (always failed_with_output) ascii_decode) as [Hscan' _].
  split; [| split].
  - apply (Hscan some_scan ["nmap"; "-sT"; "--top-ports"; "100"; "-oX"; "-"; "scanme.nmap.org"]
             failed_silently); [reflexivity | reflexivity | discriminate | constructor].
  - apply (Hscan' some_scan ["nmap"; "-sT"; "--top-ports"; "100"; "-oX"; "-"; "scanme.nmap.org"]
             failed_with_output); [reflexivity | reflexivity |].
    right. rewrite <- strip_truthy. reflexivity.
  - apply (Hshell some_command failed_silently). reflexivity.
Defined.

(** Two scans with the same standard output, one clean and one with a
    warning on standard error and exit code 1: the execute stage returns
    the same value for both, so the value holds neither of the two. *)
Lemma scan_result_is_stdout_only :
  Nmap.run_nmap_scan (always succeeded_quietly) ascii_decode some_scan = Ok "<nmaprun/>"
  /\ Nmap.run_nmap_scan (always failed_with_output) ascii_decode some_scan = Ok "<nmaprun/>"
  /\ stderr_bytes succeeded_quietly <> stderr_bytes failed_with_output
  /\ returncode succeeded_quietly <> returncode failed_with_output.
Proof. repeat split; try reflexivity; discriminate. Qed.

(** C8, amended.  A successful execute stage of the shell variant returns
    a record with the three fields: the decoded standard output, the
    decoded standard error and the exit code of the process.  A successful
    execute stage of the scan variant returns the decoded standard output
    alone. *)
Theorem execute_result_fields
    (create_subprocess_exec : list string -> res CompletedProcess)
    (decode : list Byte.byte -> string) :
  (forall cmd_input raw,
     Shell.run_shell_command create_subprocess_exec decode cmd_input = Ok raw ->
     exists proc,
       create_subprocess_exec ["sh"; "-c"; Shell.command cmd_input] = Ok proc
       /\ Shell.raw_stdout raw = Some (decode (stdout_bytes proc))
       /\ Shell.raw_stderr raw = Some (decode (stderr_bytes proc))
       /\ Shell.raw_exit_code raw = Some (returncode proc))
  /\ (forall scan_input raw_xml,
        Nmap.run_nmap_scan create_subprocess_exec decode scan_input = Ok raw_xml ->
        exists argv proc,
          Nmap.cmd scan_input = Ok argv
          /\ create_subprocess_exec argv = Ok proc
          /\ raw_xml = decode (stdout_bytes proc)).
Proof.
  split.
  - intros i raw. unfold Shell.run_shell_command, Shell.cmd.
    destruct (create_subprocess_exec _) as [proc|e]; simpl; [| discriminate].
    intros [= <-]. exists proc. repeat split.
  - intros i raw. unfold Nmap.run_nmap_scan.
    destruct (Nmap.cmd i) as [argv|e]; simpl; [| discriminate].
    destruct (create_subprocess_exec argv) as [proc|e] eqn:Hproc; simpl; [| discriminate].
    destruct (_ && _); [discriminate |].
    intros [= <-]. exists argv, proc. repeat split. assumption.
Qed.

Lemma execute_result_fields_witness :
  (exists proc,
     Some EmptyString = Some (ascii_decode (stdout_bytes proc))
     /\ Some "boom" = Some (ascii_decode (stderr_bytes proc))
     /\ Some 1 = Some (returncode proc))
  /\ (exists argv proc,
        Nmap.cmd some_scan = Ok argv
        /\ "<nmaprun/>" = ascii_decode (stdout_bytes proc)).
Proof.
  split.
  - destruct (execute_result_fields (always failed_silently) ascii_decode) as [Hshell _].
    destruct (Hshell some_command _ eq_refl) as (proc & _ & Hout & Herr & Hcode).
    exists proc. repeat split; assumption.
  - destruct (execute_result_fields (always succeeded_quietly) ascii_decode) as [_ Hscan].
    destruct (Hscan some_scan _ eq_refl) as (argv & proc & Hcmd & _ & Hout).
    exists argv, proc. split; assumption.
Defined.

(** ** Status translation *)

(** The four values of the specification's Run Status. *)
Definition run_statuses : list string := ["RUNNING"; "COMPLETED"; "FAILED"; "UNKNOWN"].

Lemma normalize_same (status_obj : option Temporal.PyObject) :
  NmapServer._normalize_workflow_status status_obj
  = ShellServer._normalize_workflow_status status_obj.
Proof. reflexivity. Qed.

Lemma prefix_app (p s : string) : String.prefix p (p +:+ s) = true.
Proof.
  induction p as [|c p IH]; [now destruct s |].
  rewrite app_cons. simpl. destruct (ascii_dec c c); [exact IH | congruence].
Qed.

Lemma drop_app (p s : string) : Py.drop (String.length p) (p +:+ s) = s.
Proof.
  induction p as [|c p IH]; [now destruct s |].
  rewrite app_cons. simpl. exact IH.
Qed.

Lemma replace1_unfold (old new s : string) :
  Py.replace1 old new s
  = if String.prefix old s then new +:+ Py.drop (String.length old) s
    else match s with
         | EmptyString => EmptyString
         | String c s' => String c (Py.replace1 old new s')
         end.
Proof. destruct s; reflexivity. Qed.

Lemma replace1_prefix (p s : string) : Py.replace1 p EmptyString (p +:+ s) = s.
Proof. rewrite replace1_unfold, prefix_app, drop_app. reflexivity. Qed.

(** A terminated run is reported as [TERMINATED], which is none of the
    four values (and likewise for the scan server). *)
Lemma terminated_is_not_normalized :
  ShellServer._normalize_workflow_status (Some (Temporal.member Temporal.TERMINATED))
  = "TERMINATED"
  /\ NmapServer._normalize_workflow_status (Some (Temporal.member Temporal.TERMINATED))
     = "TERMINATED"
  /\ ~ In "TERMINATED" run_statuses.
Proof.
  split; [reflexivity | split; [reflexivity |]].
  unfold run_statuses. simpl. intuition discriminate.
Qed.

(** C3, amended.  Both servers translate a status the same way: [None]
    becomes [UNKNOWN]; a member of the engine's status enumeration becomes
    its own name, so [RUNNING], [COMPLETED] and [FAILED] are themselves and
    [CANCELED], [TERMINATED], [CONTINUED_AS_NEW] and [TIMED_OUT] pass
    through under their own names, outside the four values; any other
    object becomes its name (or its text when it has no name) with a
    leading [WORKFLOW_EXECUTION_STATUS_] removed. *)
Theorem normalize_workflow_status_spec :
  (forall status_obj,
     NmapServer._normalize_workflow_status status_obj
     = ShellServer._normalize_workflow_status status_obj)
  /\ ShellServer._normalize_workflow_status None = "UNKNOWN"
  /\ (forall s,
        ShellServer._normalize_workflow_status (Some (Temporal.member s))
        = Temporal.status_name s)
  /\ (forall s,
        In (ShellServer._normalize_workflow_status (Some (Temporal.member s))) run_statuses
        <-> s = Temporal.RUNNING \/ s = Temporal.COMPLETED \/ s = Temporal.FAILED)
  /\ (forall o rest,
        default (Temporal.to_str o) (Temporal.attr_name o)
        = "WORKFLOW_EXECUTION_STATUS_" +:+ rest ->
        ShellServer._normalize_workflow_status (Some o) = rest)
  /\ (forall o,
        Py.startswith "WORKFLOW_EXECUTION_STATUS_"
          (default (Temporal.to_str o) (Temporal.attr_name o)) = false ->
        ShellServer._normalize_workflow_status (Some o)
        = default (Temporal.to_str o) (Temporal.attr_name o)).
Proof.
  split; [reflexivity |]. split; [reflexivity |]. split; [intros []; reflexivity |].
  split; [| split].
  - intros s. unfold run_statuses.
    destruct s; vm_compute; intuition discriminate.
  - intros o rest Hraw. unfold ShellServer._normalize_workflow_status.
    rewrite Hraw. unfold Py.startswith. rewrite prefix_app. apply replace1_prefix.
  - intros o Hraw. unfold ShellServer._normalize_workflow_status. now rewrite Hraw.
Qed.

(** ** Polling: check and fetch *)

(** A server that is connected to an engine with no runs. *)
Definition idle_shell_server : ShellServer.Server :=
  {| ShellServer._temporal_client := Some ∅; ShellServer._task_registry := [] |}.

Definition idle_scan_server : NmapServer.Server :=
  {| NmapServer._temporal_client := Some ∅; NmapServer._scan_registry := [] |}.

Definition unreachable {R : Type} : nat -> res (Temporal.Client R) :=
  fun _ => Raise (OSError "connection refused").

(** Polling an identifier that the engine does not know raises the
    engine's error in the caller; no result with status [UNKNOWN] is
    returned. *)
Lemma unknown_task_raises :
  ShellServer.check_task_status "temporal:7233" unreachable "task-0123456789ab"
    idle_shell_server
  = (Raise (RPCError "workflow not found for ID: task-0123456789ab"), idle_shell_server)
  /\ ShellServer.get_task_results "temporal:7233" unreachable "task-0123456789ab"
       idle_shell_server
     = (Raise (RPCError "workflow not found for ID: task-0123456789ab"), idle_shell_server)
  /\ NmapServer.check_scan_status "temporal:7233" unreachable "scan-0123456789ab"
       idle_scan_server
     = (Raise (RPCError "workflow not found for ID: scan-0123456789ab"), idle_scan_server).
Proof. repeat split. Qed.

(** What [check_task_status] and [get_task_results] do for [task_id]
    from the state [st]. *)
Definition shell_polling (TEMPORAL_HOST : string)
    (connect : nat -> res (Temporal.Client Shell.Formatted))
    (task_id : string) (st : ShellServer.Server) : Prop :=
  let check := ShellServer.check_task_status TEMPORAL_HOST connect task_id st in
  let fetch := ShellServer.get_task_results TEMPORAL_HOST connect task_id st in
  match ShellServer._get_client TEMPORAL_HOST connect st with
  | (Raise e, st') =>
      (* no connection: the error reaches the caller *)
      check = (Raise e, st') /\ fetch = (Raise e, st')
  | (Ok client, st') =>
      match client !! task_id with
      | None =>
          (* unknown identifier: the engine's error reaches the caller *)
          check = (Raise (RPCError ("workflow not found for ID: " +:+ task_id)), st')
          /\ fetch = (Raise (RPCError ("workflow not found for ID: " +:+ task_id)), st')
      | Some run =>
          let status :=
            ShellServer._normalize_workflow_status
              (Temporal.member <$> Temporal.exec_status run) in
          (exists r st'',
             check = (Ok r, st'')
             /\ ShellServer.c_task_id r = task_id
             /\ ShellServer.c_status r = status)
          /\ (status <> "COMPLETED" ->
              exists error, fetch = (Ok (ShellServer.NotComplete task_id status error), st'))
          /\ (status = "COMPLETED" ->
              match Temporal.exec_result run with
              | Ok result =>
                  exists st'',
                    fetch = (Ok (ShellServer.Fetched task_id "COMPLETED" result), st'')
              | Raise e => fetch = (Raise e, st')
              end)
      end
  end.

Definition scan_polling (TEMPORAL_HOST : string)
    (connect : nat -> res (Temporal.Client Nmap.Parsed))
    (scan_id : string) (st : NmapServer.Server) : Prop :=
  let check := NmapServer.check_scan_status TEMPORAL_HOST connect scan_id st in
  let fetch := NmapServer.get_scan_results TEMPORAL_HOST connect scan_id st in
  match NmapServer._get_client TEMPORAL_HOST connect st with
  | (Raise e, st') =>
      check = (Raise e, st') /\ fetch = (Raise e, st')
  | (Ok client, st') =>
      match client !! scan_id with
      | None =>
          check = (Raise (RPCError ("workflow not found for ID: " +:+ scan_id)), st')
          /\ fetch = (Raise (RPCError ("workflow not found for ID: " +:+ scan_id)), st')
      | Some run =>
          let status :=
            NmapServer._normalize_workflow_status
              (Temporal.member <$> Temporal.exec_status run) in
          (exists r st'',
             check = (Ok r, st'')
             /\ NmapServer.c_scan_id r = scan_id
             /\ NmapServer.c_status r = status)
          /\ (status <> "COMPLETED" ->
              exists error, fetch = (Ok (NmapServer.NotComplete scan_id status error), st'))
          /\ (status = "COMPLETED" ->
              match Temporal.exec_result run with
              | Ok result =>
                  exists st'',
                    fetch = (Ok (NmapServer.Fetched scan_id "COMPLETED" result), st'')
              | Raise e => fetch = (Raise e, st')
              end)
      end
  end.

Lemma shell_polling_holds TEMPORAL_HOST connect task_id st :
  shell_polling TEMPORAL_HOST connect task_id st.
Proof.
  unfold shell_polling, ShellServer.check_task_status, ShellServer.get_task_results.
  unfold mbind, M_bind, lift, mret, M_ret, get_state.
  destruct (ShellServer._get_client TEMPORAL_HOST connect st) as [[client|e] st'];
    [| split; reflexivity].
  unfold Temporal.describe, Temporal.result.
  destruct (client !! task_id) as [run|]; [| split; reflexivity].
  set (status := ShellServer._normalize_workflow_status _).
  split; [| split].
  - destruct (ShellServer.record_status task_id status st') as [[[]|e] st''] eqn:Hrec.
    + eexists _, _. split; [reflexivity | split; reflexivity].
    + unfold ShellServer.record_status in Hrec.
      destruct (Py.dict_get _ _); discriminate.
  - intros Hne. apply String.eqb_neq in Hne. rewrite Hne. simpl. eauto.
  - intros Heq. rewrite Heq. simpl.
    destruct (Temporal.exec_result run) as [result|e]; [| reflexivity].
    unfold ShellServer.record_status. destruct (Py.dict_get _ _); eauto.
Qed.

Lemma scan_polling_holds TEMPORAL_HOST connect scan_id st :
  scan_polling TEMPORAL_HOST connect scan_id st.
Proof.
  unfold scan_polling, NmapServer.check_scan_status, NmapServer.get_scan_results.
  unfold mbind, M_bind, lift, mret, M_ret, get_state.
  destruct (NmapServer._get_client TEMPORAL_HOST connect st) as [[client|e] st'];
    [| split; reflexivity].
  unfold Temporal.describe, Temporal.result.
  destruct (client !! scan_id) as [run|]; [| split; reflexivity].
  set (status := NmapServer._normalize_workflow_status _).
  split; [| split].
  - destruct (NmapServer.record_status scan_id status st') as [[[]|e] st''] eqn:Hrec.
    + eexists _, _. split; [reflexivity | split; reflexivity].
    + unfold NmapServer.record_status in Hrec.
      destruct (Py.dict_get _ _); discriminate.
  - intros Hne. apply String.eqb_neq in Hne. rewrite Hne. simpl. eauto.
  - intros Heq. rewrite Heq. simpl.
    destruct (Temporal.exec_result run) as [result|e]; [| reflexivity].
    unfold NmapServer.record_status. destruct (Py.dict_get _ _); eauto.
Qed.

(** C4, amended.  For a task identifier that the engine knows, check
    returns a result that carries the identifier and the translated
    status, and fetch returns the not-complete record with that status, or
    the result of the run once the status is [COMPLETED].  For an
    identifier that the engine does not know, and when no connection to
    the engine can be made, check and fetch raise: the error reaches the
    caller and no [UNKNOWN] result is made. *)
Theorem poll_results (TEMPORAL_HOST : string) :
  (forall connect task_id st, shell_polling TEMPORAL_HOST connect task_id st)
  /\ (forall connect scan_id st, scan_polling TEMPORAL_HOST connect scan_id st).
Proof.
  split; intros connect id st;
    [apply shell_polling_holds | apply scan_polling_holds].
Qed.

(** ** The summary of the shell structurer *)

(** The truncation marker. *)
Definition marker : string := "[truncated]".

(** [s] has no opening bracket (the first character of the marker). *)
Definition bracket_free (s : string) : Prop := ~ In "["%char (Py.chars s).

Lemma bracket_free_app (a b : string) :
  bracket_free a -> bracket_free b -> bracket_free (a +:+ b).
Proof.
  unfold bracket_free. rewrite chars_app, in_app_iff. tauto.
Qed.

Lemma bracket_free_uint (d : Decimal.uint) : bracket_free (NilEmpty.string_of_uint d).
Proof.
  unfold bracket_free, Py.chars.
  induction d; simpl; intros H; try (destruct H as [H | H]; [discriminate | auto]); auto.
Qed.

Lemma bracket_free_int (n : Z) : bracket_free (Py.str_of_int n).
Proof.
  unfold Py.str_of_int, NilZero.string_of_int, NilZero.string_of_uint.
  destruct (Z.to_int n) as [d|d].
  - destruct d; try apply bracket_free_uint. vm_compute. intuition discriminate.
  - intros [H | H]; [discriminate |]. revert H.
    destruct d; try apply bracket_free_uint. vm_compute. intuition discriminate.
Qed.

(** An occurrence cannot start inside a text that lacks its first
    character. *)
Lemma occurs_skip (c : ascii) (sub a b : string) :
  ~ In c (Py.chars a) ->
  occurs (String c sub) (a +:+ b) -> occurs (String c sub) b.
Proof.
  unfold Py.chars. induction a as [|x a IH]; intros Hno Hocc; [assumption |].
  simpl in Hno. apply IH; [tauto |].
  destruct Hocc as (before & after & Heq). rewrite app_cons in Heq.
  destruct before as [|y before].
  - rewrite app_empty_l, app_cons in Heq. injection Heq as Hx _. tauto.
  - rewrite app_cons in Heq. injection Heq as _ Heq. now exists before, after.
Qed.

Lemma prefix_before (d : ascii) (sub after a b : string) :
  ~ In d (Py.chars sub) ->
  sub +:+ after = a +:+ String d b ->
  exists rest, a = sub +:+ rest.
Proof.
  unfold Py.chars. revert a. induction sub as [|c sub IH]; intros a Hno Heq.
  - exists a. reflexivity.
  - simpl in Hno. rewrite app_cons in Heq. destruct a as [|x a].
    + rewrite app_empty_l in Heq. injection Heq as Hc _. tauto.
    + rewrite app_cons in Heq. injection Heq as -> Heq.
      destruct (IH a) as (rest & ->); [tauto | assumption |].
      exists rest. reflexivity.
Qed.

(** An occurrence cannot run across a character that it does not hold. *)
Lemma occurs_split (d : ascii) (sub a b : string) :
  ~ In d (Py.chars sub) ->
  occurs sub (a +:+ String d b) -> occurs sub a \/ occurs sub b.
Proof.
  intros Hno. induction a as [|x a IH]; intros (before & after & Heq).
  - rewrite app_empty_l in Heq. destruct before as [|y before].
    + rewrite app_empty_l in Heq. symmetry in Heq.
      destruct (prefix_before d sub after EmptyString b Hno Heq) as (rest & Hrest).
      left. exists EmptyString, rest. exact Hrest.
    + rewrite app_cons in Heq. injection Heq as _ ->. right. now exists before, after.
  - rewrite app_cons in Heq. destruct before as [|y before].
    + rewrite app_empty_l in Heq. symmetry in Heq. rewrite <- app_cons in Heq.
      destruct (prefix_before d sub after (String x a) b Hno Heq) as (rest & Hrest).
      left. exists EmptyString, rest. exact Hrest.
    + rewrite app_cons in Heq. injection Heq as _ Heq.
      destruct IH as [Ha | Hb]; [now exists before, after | | now right].
      left. now apply occurs_cons.
Qed.

Lemma not_occurs_empty (c : ascii) (sub : string) : ~ occurs (String c sub) EmptyString.
Proof.
  intros (before & after & Heq). destruct before; discriminate.
Qed.

Lemma slice_to_all (n : nat) (s : string) :
  (String.length s <= n)%nat -> Py.slice_to n s = s.
Proof.
  revert s. induction n as [|n IH]; intros [|c s]; simpl; try reflexivity; try lia.
  intros Hlen. rewrite IH; [reflexivity | lia].
Qed.

Lemma slice_to_split (n : nat) (s : string) :
  (n <= String.length s)%nat ->
  s = Py.slice_to n s +:+ Py.drop n s /\ String.length (Py.slice_to n s) = n.
Proof.
  revert s. induction n as [|n IH]; intros s Hlen.
  - destruct s; split; reflexivity.
  - destruct s as [|c s]; simpl in Hlen; [lia |].
    destruct (IH s) as (Heq & Hn); [lia |]. simpl. rewrite app_cons, <- Heq, Hn.
    split; reflexivity.
Qed.

(** The marker can come into the summary through the standard-error
    block only: the standard error is not blank, and it either is longer
    than 500 characters (the block is truncated) or holds the marker
    itself. *)
Definition marker_from_stderr (stderr : string) : Prop :=
  ~ blank stderr /\ (500 < Py.len stderr \/ occurs marker stderr).

Definition exit_line (exit_code : Z) : string :=
  "Command exited with code " +:+ Py.str_of_int exit_code +:+ ".".

Definition stdout_header (stdout : string) : string :=
  Py.nl +:+ "stdout (" +:+ Py.str_of_int (Py.len stdout) +:+ " bytes):" +:+ Py.nl.

Definition stderr_header (stderr : string) : string :=
  Py.nl +:+ "stderr (" +:+ Py.str_of_int (Py.len stderr) +:+ " bytes):" +:+ Py.nl.

Create HintDb brackets.
#[local] Hint Resolve bracket_free_app bracket_free_int : brackets.
#[local] Hint Extern 4 (bracket_free _) => (vm_compute; intuition discriminate) : brackets.

Lemma bracket_free_exit_line (n : Z) : bracket_free (exit_line n).
Proof. unfold exit_line. auto with brackets. Qed.

Lemma bracket_free_stdout_header (s : string) : bracket_free (stdout_header s).
Proof. unfold stdout_header. auto 6 with brackets. Qed.

Lemma bracket_free_stderr_header (s : string) : bracket_free (stderr_header s).
Proof. unfold stderr_header. auto 6 with brackets. Qed.

#[local] Hint Resolve bracket_free_exit_line bracket_free_stdout_header
  bracket_free_stderr_header : brackets.

Lemma stdout_block_layout (stdout : string) :
  Shell.stdout_block stdout
  = stdout_header stdout +:+ Py.slice_to 2000 stdout
    +:+ (if 2000 <? Py.len stdout then " [truncated]" else EmptyString).
Proof.
  unfold Shell.stdout_block, stdout_header. now rewrite !app_assoc_str.
Qed.

Lemma stderr_block_layout (stderr : string) :
  Shell.stderr_block stderr
  = stderr_header stderr +:+ Py.slice_to 500 stderr
    +:+ (if 500 <? Py.len stderr then " [truncated]" else EmptyString).
Proof.
  unfold Shell.stderr_block, stderr_header. now rewrite !app_assoc_str.
Qed.

(** The text that follows the standard-output part of the summary. *)
Definition stderr_tail (stderr : string) : string :=
  if Py.truthy (Py.strip stderr) then Py.nl +:+ Shell.stderr_block stderr
  else EmptyString.

Lemma marker_in_stderr_tail (stderr : string) :
  occurs marker (stderr_tail stderr) -> marker_from_stderr stderr.
Proof.
  unfold stderr_tail, marker_from_stderr.
  destruct (Py.truthy (Py.strip stderr)) eqn:Hs.
  - apply strip_truthy in Hs. intros Hocc. split; [assumption |].
    destruct (Z.ltb_spec 500 (Py.len stderr)) as [Hlong | Hshort]; [now left | right].
    rewrite stderr_block_layout in Hocc.
    apply Z.ltb_ge in Hshort as Hb. rewrite Hb, app_empty_r in Hocc.
    rewrite slice_to_all in Hocc by (unfold Py.len in Hshort; lia).
    rewrite <- app_assoc_str in Hocc. unfold marker in *.
    eapply occurs_skip; [| exact Hocc].
    fold (bracket_free (Py.nl +:+ stderr_header stderr)). auto with brackets.
  - intros Hocc. now apply not_occurs_empty in Hocc.
Qed.

Lemma join2 (sep a b : string) : Py.join sep [a; b] = a +:+ sep +:+ b.
Proof. reflexivity. Qed.

Lemma join3 (sep a b c : string) : Py.join sep [a; b; c] = a +:+ sep +:+ b +:+ sep +:+ c.
Proof. reflexivity. Qed.

(** The summary, laid out: the exit line, then the standard-output part,
    then the standard-error part when there is one. *)
Lemma summary_layout (stdout stderr : string) (exit_code : Z) :
  Py.join Py.nl (Shell.summary_parts stdout stderr exit_code)
  = exit_line exit_code +:+ Py.nl
    +:+ (if Py.truthy (Py.strip stdout) then Shell.stdout_block stdout
         else Py.nl +:+ "No stdout output.")
    +:+ stderr_tail stderr.
Proof.
  unfold Shell.summary_parts, stderr_tail. fold (exit_line exit_code).
  destruct (Py.truthy (Py.strip stdout)), (Py.truthy (Py.strip stderr));
    cbn [app]; rewrite ?join2, ?join3, ?app_empty_r, ?app_assoc_str; reflexivity.
Qed.

Lemma prefix_spec (p s : string) :
  String.prefix p s = true <-> exists rest, s = p +:+ rest.
Proof.
  revert s. induction p as [|c p IH]; intros s.
  - split; [intros _; exists s; reflexivity | now destruct s].
  - destruct s as [|x s]; simpl.
    + split; [discriminate | intros (rest & H); discriminate].
    + destruct (ascii_dec c x) as [<- | Hne].
      * rewrite IH. split; intros (rest & H); exists rest.
        -- rewrite app_cons. now f_equal.
        -- rewrite app_cons in H. now injection H.
      * split; [discriminate |]. intros (rest & H). rewrite app_cons in H.
        injection H as H _. congruence.
Qed.

(** [sub in s] computes whether [sub] occurs in [s]. *)
Lemma contains_spec (sub s : string) : Py.contains sub s = true <-> occurs sub s.
Proof.
  induction s as [|c s IH].
  - cbn [Py.contains]. rewrite orb_false_r, prefix_spec. split.
    + intros (rest & H). exists EmptyString, rest. exact H.
    + intros (before & after & H). destruct before; [| discriminate].
      exists after. exact H.
  - cbn [Py.contains]. rewrite orb_true_iff, prefix_spec, IH. split.
    + intros [(rest & H) | H]; [exists EmptyString, rest; exact H | now apply occurs_cons].
    + intros (before & after & H). destruct before as [|y before].
      * left. exists after. exact H.
      * right. rewrite app_cons in H. injection H as _ H. now exists before, after.
Qed.

(** The summary that [format_output] builds for [raw]. *)
Definition summary_of (raw : Shell.Raw) : string :=
  match Shell.format_output raw with
  | Ok out => Shell.f_summary out
  | Raise _ => EmptyString
  end.

Definition text_of (c : ascii) (n : nat) : string := string_of_list_ascii (repeat c n).

Definition blank_long_output : Shell.Raw :=
  {| Shell.raw_stdout := Some (text_of " " 2001);
     Shell.raw_stderr := Some EmptyString;
     Shell.raw_exit_code := Some 0 |}.

Definition short_output_long_errors : Shell.Raw :=
  {| Shell.raw_stdout := Some "ok";
     Shell.raw_stderr := Some (text_of "x" 501);
     Shell.raw_exit_code := Some 0 |}.

Definition blank_output_long_errors : Shell.Raw :=
  {| Shell.raw_stdout := Some " ";
     Shell.raw_stderr := Some (text_of "x" 501);
     Shell.raw_exit_code := Some 0 |}.

Definition long_output : Shell.Raw :=
  {| Shell.raw_stdout := Some (text_of "a" 2001);
     Shell.raw_stderr := Some EmptyString;
     Shell.raw_exit_code := Some 0 |}.

(** A standard output of 2001 spaces is longer than 2000 characters and
    its summary has no marker; a standard output of two characters comes
    with a marker in the summary when the standard error is 501 characters
    long. *)
Lemma truncation_law_fails :
  (2000 < Py.len (text_of " " 2001)
   /\ ~ occurs marker (summary_of blank_long_output))
  /\ (Py.len "ok" <= 2000
      /\ occurs marker (summary_of short_output_long_errors)).
Proof.
  split; split.
  - reflexivity.
  - rewrite <- contains_spec. vm_compute. discriminate.
  - discriminate.
  - rewrite <- contains_spec. vm_compute. reflexivity.
Qed.

(** C5, amended.  When the standard output is not blank and longer than
    2000 characters, the summary holds, right after the header of the
    standard-output block, exactly the first 2000 characters of the
    standard output followed by [ [truncated]].  When the standard output
    has at most 2000 characters, the marker [[truncated]] occurs in the
    summary only if it occurs in the standard output itself or comes from
    the standard-error block. *)
Theorem stdout_truncation (raw : Shell.Raw) (out : Shell.Formatted) :
  Shell.format_output raw = Ok out ->
  let stdout := default EmptyString (Shell.raw_stdout raw) in
  let stderr := default EmptyString (Shell.raw_stderr raw) in
  (~ blank stdout -> 2000 < Py.len stdout ->
   exists first rest,
     stdout = first +:+ rest
     /\ Py.len first = 2000
     /\ Shell.f_summary out
        = exit_line (Shell.f_exit_code out) +:+ Py.nl
          +:+ stdout_header stdout +:+ first +:+ " [truncated]"
          +:+ stderr_tail stderr)
  /\ (Py.len stdout <= 2000 ->
      occurs marker (Shell.f_summary out) ->
      occurs marker stdout \/ marker_from_stderr stderr).
Proof.
  unfold Shell.format_output. intros [= <-]. cbn zeta. simpl Shell.f_summary.
  simpl Shell.f_exit_code.
  set (stdout := default EmptyString (Shell.raw_stdout raw)).
  set (stderr := default EmptyString (Shell.raw_stderr raw)).
  set (exit_code := default (-1) (Shell.raw_exit_code raw)).
  rewrite summary_layout. split.
  - intros Hnonblank Hlong. apply strip_truthy in Hnonblank. rewrite Hnonblank.
    destruct (slice_to_split 2000 stdout) as (Hsplit & Hlen);
      [unfold Py.len in Hlong; lia |].
    exists (Py.slice_to 2000 stdout), (Py.drop 2000 stdout).
    split; [exact Hsplit |]. split; [unfold Py.len; rewrite Hlen; reflexivity |].
    rewrite stdout_block_layout. apply Z.ltb_lt in Hlong. rewrite Hlong.
    now rewrite !app_assoc_str.
  - intros Hshort Hocc. unfold marker in *.
    apply occurs_skip in Hocc; [| fold (bracket_free (exit_line exit_code)); auto with brackets].
    change (Py.nl +:+ ?x) with (String "010" x) in Hocc at 1.
    destruct (Py.truthy (Py.strip stdout)) eqn:Hs.
    + rewrite stdout_block_layout in Hocc.
      apply Z.ltb_ge in Hshort as Hb. rewrite Hb, app_empty_r in Hocc.
      rewrite slice_to_all in Hocc by (unfold Py.len in Hshort; lia).
      rewrite app_assoc_str, <- app_cons in Hocc.
      apply occurs_skip in Hocc.
      2:{ fold (bracket_free (String "010" (stdout_header stdout))).
          apply (bracket_free_app Py.nl); auto with brackets. }
      unfold stderr_tail in *. destruct (Py.truthy (Py.strip stderr)) eqn:He.
      * change (Py.nl +:+ ?x) with (String "010" x) in Hocc.
        apply occurs_split in Hocc; [| vm_compute; intuition discriminate].
        destruct Hocc as [Hout | Herr]; [now left | right].
        apply marker_in_stderr_tail. unfold stderr_tail. rewrite He.
        now apply (occurs_app_r Py.nl).
      * rewrite app_empty_r in Hocc. now left.
    + right. apply marker_in_stderr_tail.
      rewrite <- app_cons in Hocc.
      apply occurs_skip in Hocc; [assumption |].
      vm_compute. intuition discriminate.
Qed.

Lemma stdout_truncation_witness :
  exists first rest,
    text_of "a" 2001 = first +:+ rest
    /\ Py.len first = 2000
    /\ summary_of long_output
       = exit_line 0 +:+ Py.nl +:+ stdout_header (text_of "a" 2001) +:+ first
         +:+ " [truncated]" +:+ stderr_tail EmptyString.
Proof.
  destruct (stdout_truncation long_output _ eq_refl) as (Hlong & _).
  apply Hlong.
  - rewrite <- strip_truthy. vm_compute. reflexivity.
  - reflexivity.
Defined.

(** A standard output of one space with a standard error of 501
    characters: the output is white space only, and the summary holds the
    marker. *)
Lemma blank_stdout_summary_has_marker :
  Shell.raw_stdout blank_output_long_errors = Some " "
  /\ blank " "
  /\ occurs marker (summary_of blank_output_long_errors).
Proof.
  split; [reflexivity | split; [repeat constructor |]].
  rewrite <- contains_spec. vm_compute. reflexivity.
Qed.

(** C9, amended.  When the standard output is not empty and white space
    only, whatever its length: the summary is made of the exit line, the
    line [No stdout output.] and, for a standard error that is not blank,
    the standard-error block, with no standard-output block; the [stdout]
    field of the result is the white-space text unchanged; and the marker
    [[truncated]] occurs in the summary only if it comes from the
    standard-error block. *)
Theorem blank_stdout_summary (raw : Shell.Raw) (out : Shell.Formatted) :
  Shell.format_output raw = Ok out ->
  let stdout := default EmptyString (Shell.raw_stdout raw) in
  let stderr := default EmptyString (Shell.raw_stderr raw) in
  stdout <> EmptyString ->
  blank stdout ->
  Shell.f_stdout out = stdout
  /\ (exists error_blocks,
        (error_blocks = [] \/ (~ blank stderr /\ error_blocks = [Shell.stderr_block stderr]))
        /\ Shell.summary_parts stdout stderr (Shell.f_exit_code out)
           = [exit_line (Shell.f_exit_code out); Py.nl +:+ "No stdout output."]
             ++ error_blocks
        /\ Shell.f_summary out
           = Py.join Py.nl (Shell.summary_parts stdout stderr (Shell.f_exit_code out)))
  /\ ~ In (Shell.stdout_block stdout)
          (Shell.summary_parts stdout stderr (Shell.f_exit_code out))
  /\ (occurs marker (Shell.f_summary out) -> marker_from_stderr stderr).
Proof.
  unfold Shell.format_output. intros [= <-]. cbn zeta.
  simpl Shell.f_summary. simpl Shell.f_exit_code. simpl Shell.f_stdout.
  set (stdout := default EmptyString (Shell.raw_stdout raw)).
  set (stderr := default EmptyString (Shell.raw_stderr raw)).
  set (exit_code := default (-1) (Shell.raw_exit_code raw)).
  intros _ Hblank. apply strip_falsy in Hblank.
  assert (Hparts :
    Shell.summary_parts stdout stderr exit_code
    = [exit_line exit_code; Py.nl +:+ "No stdout output."]
      ++ (if Py.truthy (Py.strip stderr) then [Shell.stderr_block stderr] else [])).
  { unfold Shell.summary_parts. rewrite Hblank.
    destruct (Py.truthy (Py.strip stderr)); reflexivity. }
  split; [reflexivity | split; [| split]].
  - exists (if Py.truthy (Py.strip stderr) then [Shell.stderr_block stderr] else []).
    split; [| split; [exact Hparts | reflexivity]].
    destruct (Py.truthy (Py.strip stderr)) eqn:He; [right | now left].
    apply strip_truthy in He. now split.
  - rewrite Hparts. intros Hin.
    assert (Hfive : forall part,
              In part ([exit_line exit_code; Py.nl +:+ "No stdout output."]
                         ++ (if Py.truthy (Py.strip stderr)
                             then [Shell.stderr_block stderr] else [])) ->
              Py.slice_to 5 part <> Py.slice_to 5 (Shell.stdout_block stdout)).
    { intros part Hpart. destruct (Py.truthy (Py.strip stderr));
        cbn [app In] in Hpart;
        repeat (destruct Hpart as [<- | Hpart]; [vm_compute; discriminate |]);
        contradiction. }
    now apply Hfive in Hin.
  - rewrite summary_layout, Hblank. intros Hocc. unfold marker in *.
    apply marker_in_stderr_tail.
    apply occurs_skip in Hocc; [| apply bracket_free_exit_line].
    change (Py.nl +:+ ?x) with (String "010" x) in Hocc at 1.
    rewrite <- app_cons in Hocc.
    apply occurs_skip in Hocc; [assumption |].
    vm_compute. intuition discriminate.
Qed.

Lemma blank_stdout_summary_witness :
  (exists error_blocks,
     (error_blocks = []
      \/ (~ blank "warning" /\ error_blocks = [Shell.stderr_block "warning"]))
     /\ Shell.summary_parts "   " "warning" 2
        = [exit_line 2; Py.nl +:+ "No stdout output."] ++ error_blocks)
  /\ (occurs marker
        (summary_of {| Shell.raw_stdout := Some "   ";
                       Shell.raw_stderr := Some "warning";
                       Shell.raw_exit_code := Some 2 |})
      -> marker_from_stderr "warning").
Proof.
  destruct (blank_stdout_summary
              {| Shell.raw_stdout := Some "   "; Shell.raw_stderr := Some "warning";
                 Shell.raw_exit_code := Some 2 |} _ eq_refl)
    as (_ & (blocks & Hblocks & Hparts & _) & _ & Hmarker).
  - discriminate.
  - repeat constructor.
  - split; [exists blocks; split; assumption | exact Hmarker].
Defined.

(** ** Further properties of the pipeline *)

(** The shell validator rejects exactly the blank commands. *)
Theorem validate_command_spec (cmd_input : Shell.ShellCommandInput) :
  (blank (Shell.command cmd_input) ->
   Shell.validate_command cmd_input = Raise (ValueError "Command must not be empty"))
  /\ (~ blank (Shell.command cmd_input) -> Shell.validate_command cmd_input = Ok true).
Proof.
  unfold Shell.validate_command. split; intros H.
  - apply strip_falsy in H. now rewrite H.
  - apply strip_truthy in H. now rewrite H.
Qed.

(** A scan input with a deny-listed character never reaches the execute
    stage: the history of the run holds the validate stage alone, tried
    once, and the run fails. *)
Theorem rejected_scan_spawns_nothing
    (create_subprocess_exec : list string -> res CompletedProcess)
    (decode : list Byte.byte -> string)
    (fromstring : string -> res ET.Element)
    (scan_input : Nmap.NmapScanInput) (schedule : list (list Temporal.lost)) :
  has_deny_listed_char (Nmap.target scan_input)
  \/ has_deny_listed_char (Nmap.nmap_args scan_input) ->
  let run :=
    Temporal.execute
      (Nmap.NmapScanWorkflow_run create_subprocess_exec decode fromstring scan_input)
      schedule in
  map Temporal.d_name run.1 = ["validate_scan_input"]
  /\ Forall (fun d => Temporal.d_attempts d = 1%nat) run.1
  /\ is_ok run.2 = false.
Proof.
  intros Hbad.
  destruct (validate_scan_input_cases scan_input) as [Hok | (msg & Hraise)].
  { apply validate_scan_input_ok in Hok. exfalso. apply Hok.
    unfold scan_input_rejected. tauto. }
  destruct (pipeline_policy_for_scans create_subprocess_exec decode fromstring
              scan_input schedule) as [Hord Hlim _ Hgate _ _ Hsucc _].
  specialize (Hgate _ Hraise). cbn zeta.
  destruct (Temporal.execute _ schedule) as [log out]. cbn [fst snd] in *.
  destruct log as [|d [|d' log]]; try discriminate.
  destruct Hord as (n & Hn & Hpol).
  assert (n = 1%nat) as -> by (apply (f_equal length) in Hpol; destruct n as [|[|n]];
                               cbn in Hpol; lia).
  cbn in Hpol. injection Hpol as Hname Hmax _ _.
  inversion Hlim as [|? ? Hd _]. subst. rewrite Hmax in Hd.
  split; [cbn; now rewrite Hname | split].
  - repeat constructor. lia.
  - destruct out; [| reflexivity]. destruct Hsucc as [Hs _].
    destruct (Hs eq_refl) as [Hlen _]. discriminate.
Qed.

Definition injection_attempt : Nmap.NmapScanInput :=
  {| Nmap.target := "scanme.nmap.org; rm -rf /";
     Nmap.nmap_args := "-sT";
     Nmap.scan_id := "scan-000000000000" |}.

Lemma rejected_scan_spawns_nothing_witness :
  map Temporal.d_name
    (Temporal.execute
       (Nmap.NmapScanWorkflow_run (always succeeded_quietly) ascii_decode fixture_parser
          injection_attempt) []).1
  = ["validate_scan_input"].
Proof.
  apply (rejected_scan_spawns_nothing (always succeeded_quietly) ascii_decode
           fixture_parser injection_attempt []).
  left. rewrite <- search_spec. reflexivity.
Defined.

(** *** Listing and repeated fetches *)

Lemma dict_get_set {V : Type} (d : Py.dict V) (k : string) (v : V) :
  Py.dict_get (Py.dict_set d k v) k = Some v.
Proof.
  induction d as [|[k' v'] d IH]; simpl.
  - now rewrite String.eqb_refl.
  - destruct (String.eqb k' k) eqn:Hk; simpl; rewrite Hk; [reflexivity | exact IH].
Qed.

Lemma dict_set_set {V : Type} (d : Py.dict V) (k : string) (v v' : V) :
  Py.dict_set (Py.dict_set d k v) k v' = Py.dict_set d k v'.
Proof.
  induction d as [|[k1 v1] d IH]; simpl.
  - now rewrite String.eqb_refl.
  - destruct (String.eqb k1 k) eqn:Hk; simpl; rewrite Hk; [reflexivity | now rewrite IH].
Qed.

Lemma record_status_twice (TEMPORAL_HOST : string)
    (connect : nat -> res (Temporal.Client Shell.Formatted))
    (task_id status : string) (st : ShellServer.Server) :
  let st' := (ShellServer.record_status task_id status st).2 in
  ShellServer.record_status task_id status st' = (Ok tt, st')
  /\ ShellServer._temporal_client st' = ShellServer._temporal_client st
  /\ ShellServer._get_client TEMPORAL_HOST connect st'
     = match ShellServer._temporal_client st with
       | Some c => (Ok c, st')
       | None => ShellServer._get_client TEMPORAL_HOST connect st'
       end.
Proof.
  unfold ShellServer.record_status.
  destruct (Py.dict_get (ShellServer._task_registry st) task_id) as [m|] eqn:Hget; cbn.
  - rewrite dict_get_set, dict_set_set. repeat split.
    unfold ShellServer._get_client. cbn. now destruct (ShellServer._temporal_client st).
  - rewrite Hget. repeat split.
    unfold ShellServer._get_client. now destruct (ShellServer._temporal_client st).
Qed.

Lemma get_client_connected (TEMPORAL_HOST : string)
    (connect : nat -> res (Temporal.Client Shell.Formatted))
    (st st' : ShellServer.Server) (client : Temporal.Client Shell.Formatted) :
  ShellServer._get_client TEMPORAL_HOST connect st = (Ok client, st') ->
  ShellServer._temporal_client st' = Some client.
Proof.
  unfold ShellServer._get_client.
  destruct (ShellServer._temporal_client st) as [c|] eqn:Hc.
  - intros [= <- <-]. exact Hc.
  - destruct (ShellServer.connect_loop connect _ _); [| discriminate].
    now intros [= <- <-].
Qed.

(** Fetching is a repeatable read: a fetch that returned a value returns
    the same value again, and leaves the state it had left. *)
Theorem fetch_is_repeatable (TEMPORAL_HOST : string)
    (connect : nat -> res (Temporal.Client Shell.Formatted))
    (task_id : string) (st st' : ShellServer.Server) (r : ShellServer.FetchResult) :
  ShellServer.get_task_results TEMPORAL_HOST connect task_id st = (Ok r, st') ->
  ShellServer.get_task_results TEMPORAL_HOST connect task_id st' = (Ok r, st').
Proof.
  unfold ShellServer.get_task_results at 1.
  unfold mbind, M_bind, lift, mret, M_ret.
  destruct (ShellServer._get_client TEMPORAL_HOST connect st) as [[client|e] st1] eqn:Hc;
    [| discriminate].
  apply get_client_connected in Hc.
  destruct (Temporal.describe client task_id) as [desc|e] eqn:Hdesc; [| discriminate].
  destruct (negb _) eqn:Hdone.
  - intros [= <- <-].
    unfold ShellServer.get_task_results, mbind, M_bind, lift, mret, M_ret.
    unfold ShellServer._get_client at 1. rewrite Hc, Hdesc, Hdone. reflexivity.
  - destruct (Temporal.result client task_id) as [result|e] eqn:Hres; [| discriminate].
    pose proof (record_status_twice TEMPORAL_HOST connect task_id "COMPLETED" st1)
      as (Htwice & Hsame & Hget).
    destruct (ShellServer.record_status task_id "COMPLETED" st1) as [[[]|e] st2] eqn:Hrec;
      [| discriminate].
    cbn [snd] in *. intros [= <- <-].
    unfold ShellServer.get_task_results, mbind, M_bind, lift, mret, M_ret.
    rewrite Hget, Hc, Hdesc, Hdone, Hres, Htwice. reflexivity.
Qed.

Definition finished_run : Temporal.Execution Shell.Formatted :=
  {| Temporal.exec_status := Some Temporal.COMPLETED;
     Temporal.exec_result :=
       Ok {| Shell.f_stdout := "ok"; Shell.f_stderr := EmptyString;
             Shell.f_exit_code := 0; Shell.f_summary := "Command exited with code 0." |} |}.

Definition serving : ShellServer.Server :=
  {| ShellServer._temporal_client := Some {[ "task-0123456789ab" := finished_run ]};
     ShellServer._task_registry :=
       [("task-0123456789ab",
         {| ShellServer.m_command := "echo ok"; ShellServer.m_label := "echo ok";
            ShellServer.m_started_at := "2024-01-01T00:00:00+00:00";
            ShellServer.m_status := "RUNNING" |})] |}.

Lemma fetch_is_repeatable_witness :
  exists r st',
    ShellServer.fetch_status r = "COMPLETED"
    /\ ShellServer.get_task_results "temporal:7233" unreachable "task-0123456789ab" st'
       = (Ok r, st').
Proof.
  destruct (ShellServer.get_task_results "temporal:7233" unreachable
              "task-0123456789ab" serving) as [[r|e] st'] eqn:Hfetch;
    [| vm_compute in Hfetch; discriminate].
  exists r, st'. split.
  - vm_compute in Hfetch. injection Hfetch as <- _. reflexivity.
  - exact (fetch_is_repeatable _ _ _ _ _ _ Hfetch).
Defined.






(* ===================================================================== *)
(** * Further properties of the code around the claims                    *)
(* ===================================================================== *)

(** ** Connecting to the engine *)

(** The loop of [_get_client] returns the client of the first attempt
    that succeeds among the [remaining] ones. *)
Lemma connect_loop_first {R : Type}
    (loop : nat -> nat -> option (Temporal.Client R))
    (connect : nat -> res (Temporal.Client R)) :
  (forall remaining attempt,
     loop remaining attempt
     = match remaining with
       | O => None
       | S r => match connect attempt with
                | Ok c => Some c
                | Raise _ => loop r (S attempt)
                end
       end) ->
  forall remaining attempt,
    match loop remaining attempt with
    | Some c =>
        exists k, (k < remaining)%nat
                  /\ connect (attempt + k)%nat = Ok c
                  /\ forall j, (j < k)%nat -> is_ok (connect (attempt + j)%nat) = false
    | None =>
        forall j, (j < remaining)%nat -> is_ok (connect (attempt + j)%nat) = false
    end.
Proof.
  intros Hloop remaining. induction remaining as [|r IH]; intros attempt; rewrite Hloop.
  - intros j Hj. lia.
  - destruct (connect attempt) as [c|e] eqn:Hc.
    + exists 0%nat. rewrite Nat.add_0_r. split; [lia | split; [exact Hc |]].
      intros j Hj. lia.
    + specialize (IH (S attempt)). destruct (loop r (S attempt)) as [c|].
      * destruct IH as (k & Hk & Hok & Hfail). exists (S k).
        split; [lia | split].
        -- now rewrite Nat.add_succ_r.
        -- intros [|j] Hj; [now rewrite Nat.add_0_r, Hc |].
           rewrite Nat.add_succ_r. apply Hfail. lia.
      * intros [|j] Hj; [now rewrite Nat.add_0_r, Hc |].
        rewrite Nat.add_succ_r. apply IH. lia.
Qed.

Lemma shell_connect_loop_unfold (connect : nat -> res (Temporal.Client Shell.Formatted))
    (remaining attempt : nat) :
  ShellServer.connect_loop connect remaining attempt
  = match remaining with
    | O => None
    | S r => match connect attempt with
             | Ok c => Some c
             | Raise _ => ShellServer.connect_loop connect r (S attempt)
             end
    end.
Proof. destruct remaining; reflexivity. Qed.

Lemma scan_connect_loop_unfold (connect : nat -> res (Temporal.Client Nmap.Parsed))
    (remaining attempt : nat) :
  NmapServer.connect_loop connect remaining attempt
  = match remaining with
    | O => None
    | S r => match connect attempt with
             | Ok c => Some c
             | Raise _ => NmapServer.connect_loop connect r (S attempt)
             end
    end.
Proof. destruct remaining; reflexivity. Qed.

(** The attempts 1 to 60 of one [_get_client] call all fail. *)
Definition all_fail {R : Type} (connect : nat -> res (Temporal.Client R)) : Prop :=
  forall n, (1 <= n <= 60)%nat -> is_ok (connect n) = false.

(** Attempt [n] is the first of the attempts 1 to 60 to succeed, with
    client [c]. *)
Definition first_success {R : Type} (connect : nat -> res (Temporal.Client R))
    (n : nat) (c : Temporal.Client R) : Prop :=
  (1 <= n <= 60)%nat
  /\ connect n = Ok c
  /\ forall m, (1 <= m < n)%nat -> is_ok (connect m) = false.

Lemma connect_loop_60 {R : Type}
    (loop : nat -> nat -> option (Temporal.Client R))
    (connect : nat -> res (Temporal.Client R)) :
  (forall remaining attempt,
     loop remaining attempt
     = match remaining with
       | O => None
       | S r => match connect attempt with
                | Ok c => Some c
                | Raise _ => loop r (S attempt)
                end
       end) ->
  match loop 60%nat 1%nat with
  | Some c => exists n, first_success connect n c
  | None => all_fail connect
  end.
Proof.
  intros Hloop. pose proof (connect_loop_first loop connect Hloop 60 1) as H.
  destruct (loop 60%nat 1%nat) as [c|].
  - destruct H as (k & Hk & Hok & Hfail). exists (S k).
    split; [lia | split; [exact Hok |]].
    intros m Hm. replace m with (1 + (m - 1))%nat by lia. apply Hfail. lia.
  - intros n Hn. replace n with (1 + (n - 1))%nat by lia. apply H. lia.
Qed.

Lemma first_success_unique {R : Type} (connect : nat -> res (Temporal.Client R))
    (n n' : nat) (c c' : Temporal.Client R) :
  first_success connect n c -> first_success connect n' c' -> n = n' /\ c = c'.
Proof.
  intros (Hn & Hc & Hf) (Hn' & Hc' & Hf').
  assert (n = n') as <-.
  { destruct (Nat.lt_trichotomy n n') as [Hlt | [Heq | Hgt]]; [| exact Heq |].
    - specialize (Hf' n ltac:(lia)). rewrite Hc in Hf'. discriminate.
    - specialize (Hf n' ltac:(lia)). rewrite Hc' in Hf. discriminate. }
  split; [reflexivity | congruence].
Qed.

Lemma first_success_not_all_fail {R : Type} (connect : nat -> res (Temporal.Client R))
    (n : nat) (c : Temporal.Client R) :
  first_success connect n c -> all_fail connect -> False.
Proof.
  intros (Hn & Hc & _) Hall. specialize (Hall n Hn). rewrite Hc in Hall. discriminate.
Qed.

(** [_get_client] connects once and for all.  A state that holds a client
    returns it without any attempt.  A state that holds none makes the
    attempts 1 to 60 in order: the first that succeeds gives the client,
    which is kept for the next calls; if all 60 fail the call raises and
    the state is as before, so the next call tries again.  No 61st attempt
    is made.  The scan server does the same. *)
Theorem get_client_spec (TEMPORAL_HOST : string)
    (connect : nat -> res (Temporal.Client Shell.Formatted))
    (scan_connect : nat -> res (Temporal.Client Nmap.Parsed)) :
  (forall st c,
     ShellServer._temporal_client st = Some c ->
     ShellServer._get_client TEMPORAL_HOST connect st = (Ok c, st))
  /\ (forall st n c,
        ShellServer._temporal_client st = None ->
        first_success connect n c ->
        let st' := {| ShellServer._temporal_client := Some c;
                      ShellServer._task_registry := ShellServer._task_registry st |} in
        ShellServer._get_client TEMPORAL_HOST connect st = (Ok c, st')
        /\ forall other, ShellServer._get_client TEMPORAL_HOST other st' = (Ok c, st'))
  /\ (forall st,
        ShellServer._temporal_client st = None ->
        all_fail connect ->
        ShellServer._get_client TEMPORAL_HOST connect st
        = (Raise (RuntimeError ("Failed to connect to Temporal at " +:+ TEMPORAL_HOST
                                  +:+ " after 60 attempts")), st))
  /\ (forall st n c,
        NmapServer._temporal_client st = None ->
        first_success scan_connect n c ->
        NmapServer._get_client TEMPORAL_HOST scan_connect st
        = (Ok c, {| NmapServer._temporal_client := Some c;
                    NmapServer._scan_registry := NmapServer._scan_registry st |}))
  /\ (forall st,
        NmapServer._temporal_client st = None ->
        all_fail scan_connect ->
        NmapServer._get_client TEMPORAL_HOST scan_connect st
        = (Raise (RuntimeError ("Failed to connect to Temporal at " +:+ TEMPORAL_HOST
                                  +:+ " after 60 attempts")), st)).
Proof.
  pose proof (connect_loop_60 _ connect (shell_connect_loop_unfold connect)) as Hshell.
  pose proof (connect_loop_60 _ scan_connect (scan_connect_loop_unfold scan_connect))
    as Hscan.
  split; [| split; [| split; [| split]]].
  - intros st c Hc. unfold ShellServer._get_client. now rewrite Hc.
  - intros st n c Hnone Hfirst st'.
    assert (ShellServer._get_client TEMPORAL_HOST connect st = (Ok c, st')) as Hfresh.
    { unfold ShellServer._get_client. rewrite Hnone.
      unfold ShellServer.TEMPORAL_CONNECT_RETRIES.
      destruct (ShellServer.connect_loop connect 60 1) as [c'|].
      - destruct Hshell as (n' & Hn').
        destruct (first_success_unique _ _ _ _ _ Hfirst Hn') as [_ <-]. reflexivity.
      - exfalso. eapply first_success_not_all_fail; eassumption. }
    split; [exact Hfresh |]. intros other. reflexivity.
  - intros st Hnone Hall. unfold ShellServer._get_client. rewrite Hnone.
    unfold ShellServer.TEMPORAL_CONNECT_RETRIES.
    destruct (ShellServer.connect_loop connect 60 1) as [c'|]; [| reflexivity].
    destruct Hshell as (n' & Hn'). exfalso.
    eapply first_success_not_all_fail; eassumption.
  - intros st n c Hnone Hfirst. unfold NmapServer._get_client. rewrite Hnone.
    unfold NmapServer.TEMPORAL_CONNECT_RETRIES.
    destruct (NmapServer.connect_loop scan_connect 60 1) as [c'|].
    + destruct Hscan as (n' & Hn').
      destruct (first_success_unique _ _ _ _ _ Hfirst Hn') as [_ <-]. reflexivity.
    + exfalso. eapply first_success_not_all_fail; eassumption.
  - intros st Hnone Hall. unfold NmapServer._get_client. rewrite Hnone.
    unfold NmapServer.TEMPORAL_CONNECT_RETRIES.
    destruct (NmapServer.connect_loop scan_connect 60 1) as [c'|]; [| reflexivity].
    destruct Hscan as (n' & Hn'). exfalso.
    eapply first_success_not_all_fail; eassumption.
Qed.

(** The worker's loop, with the seconds it sleeps: as long as the turns
    left end at attempt 60, the loop sleeps 2 seconds after each failure
    but the last. *)
Lemma retry_loop_spec {R : Type} (connect : nat -> res (Temporal.Client R)) :
  forall remaining attempt slept,
    (attempt + remaining = 61)%nat ->
    match Worker.retry_loop connect remaining attempt slept with
    | (Some c, slept') =>
        exists k, (k < remaining)%nat
                  /\ connect (attempt + k)%nat = Ok c
                  /\ (forall j, (j < k)%nat -> is_ok (connect (attempt + j)%nat) = false)
                  /\ slept' = slept + 2 * Z.of_nat k
    | (None, slept') =>
        (forall j, (j < remaining)%nat -> is_ok (connect (attempt + j)%nat) = false)
        /\ slept' = slept + 2 * Z.of_nat (remaining - 1)
    end.
Proof.
  induction remaining as [|r IH]; intros attempt slept Hsum; cbn [Worker.retry_loop].
  - split; [intros j Hj; lia | lia].
  - destruct (connect attempt) as [c|e] eqn:Hc.
    + exists 0%nat. rewrite Nat.add_0_r.
      split; [lia | split; [exact Hc | split; [intros j Hj; lia | lia]]].
    + unfold Worker.TEMPORAL_CONNECT_RETRIES.
      destruct (Nat.eqb_spec attempt 60) as [-> | Hne].
      * assert (r = 0%nat) as -> by lia. split; [| cbn; lia].
        intros j Hj. assert (j = 0%nat) as -> by lia. now rewrite Nat.add_0_r, Hc.
      * specialize (IH (S attempt) (slept + Worker.TEMPORAL_RETRY_DELAY_SECONDS)
                       ltac:(lia)).
        unfold Worker.TEMPORAL_RETRY_DELAY_SECONDS in *.
        destruct (Worker.retry_loop connect r (S attempt) (slept + 2))
          as [[c|] slept'].
        -- destruct IH as (k & Hk & Hok & Hfail & Hslept). exists (S k).
           split; [lia | split; [now rewrite Nat.add_succ_r | split; [| lia]]].
           intros [|j] Hj; [now rewrite Nat.add_0_r, Hc |].
           rewrite Nat.add_succ_r. apply Hfail. lia.
        -- destruct IH as [Hfail Hslept]. split; [| lia].
           intros [|j] Hj; [now rewrite Nat.add_0_r, Hc |].
           rewrite Nat.add_succ_r. apply Hfail. lia.
Qed.

(** The worker connects like the servers do, and waits 2 seconds between
    attempts: when attempt [n] is the first to succeed the worker has the
    client after sleeping [2 * (n - 1)] seconds; when all 60 attempts fail
    it raises the same error as the servers after sleeping 118 seconds
    (there is no sleep after the last attempt).  On the same outcomes of
    [Client.connect], worker and server end with the same client or the
    same error. *)
Theorem worker_connect_spec (TEMPORAL_HOST : string)
    (connect : nat -> res (Temporal.Client Shell.Formatted)) :
  (forall n c,
     first_success connect n c ->
     Worker._connect_temporal_with_retry TEMPORAL_HOST connect
     = (Ok c, 2 * (Z.of_nat n - 1)))
  /\ (all_fail connect ->
      Worker._connect_temporal_with_retry TEMPORAL_HOST connect
      = (Raise (RuntimeError ("Failed to connect to Temporal at " +:+ TEMPORAL_HOST
                                +:+ " after 60 attempts")), 118))
  /\ (forall registry,
        fst (Worker._connect_temporal_with_retry TEMPORAL_HOST connect)
        = fst (ShellServer._get_client TEMPORAL_HOST connect
                 {| ShellServer._temporal_client := None;
                    ShellServer._task_registry := registry |})).
Proof.
  pose proof (retry_loop_spec connect 60 1 0 ltac:(lia)) as Hloop.
  pose proof (connect_loop_60 _ connect (shell_connect_loop_unfold connect)) as Hserver.
  unfold Worker._connect_temporal_with_retry, Worker.TEMPORAL_CONNECT_RETRIES.
  destruct (Worker.retry_loop connect 60 1 0) as [[c|] slept].
  - destruct Hloop as (k & Hk & Hok & Hfail & ->).
    assert (first_success connect (S k) c) as Hfirst.
    { split; [lia | split; [exact Hok |]].
      intros m Hm. replace m with (1 + (m - 1))%nat by lia. apply Hfail. lia. }
    split; [| split].
    + intros n c' Hn. destruct (first_success_unique _ _ _ _ _ Hn Hfirst) as [-> ->].
      f_equal. lia.
    + intros Hall. exfalso. eapply first_success_not_all_fail; eassumption.
    + intros registry. unfold ShellServer._get_client; cbn [ShellServer._temporal_client].
      unfold ShellServer.TEMPORAL_CONNECT_RETRIES.
      destruct (ShellServer.connect_loop connect 60 1) as [c'|].
      * destruct Hserver as (n' & Hn').
        destruct (first_success_unique _ _ _ _ _ Hfirst Hn') as [_ <-]. reflexivity.
      * exfalso. eapply first_success_not_all_fail; eassumption.
  - destruct Hloop as [Hfail ->].
    assert (all_fail connect) as Hall.
    { intros n Hn. replace n with (1 + (n - 1))%nat by lia. apply Hfail. lia. }
    split; [| split].
    + intros n c Hn. exfalso. eapply first_success_not_all_fail; eassumption.
    + intros _. reflexivity.
    + intros registry. unfold ShellServer._get_client; cbn [ShellServer._temporal_client].
      unfold ShellServer.TEMPORAL_CONNECT_RETRIES.
      destruct (ShellServer.connect_loop connect 60 1) as [c'|]; [| reflexivity].
      destruct Hserver as (n' & Hn'). exfalso.
      eapply first_success_not_all_fail; eassumption.
Qed.

(** ** The registry of started tasks *)

Lemma dict_get_set_other {V : Type} (d : Py.dict V) (k k' : string) (v : V) :
  k' <> k -> Py.dict_get (Py.dict_set d k v) k' = Py.dict_get d k'.
Proof.
  intros Hne. induction d as [|[k1 v1] d IH]; simpl.
  - destruct (String.eqb_spec k k'); [congruence | reflexivity].
  - destruct (String.eqb_spec k1 k) as [-> | Hk]; simpl.
    + destruct (String.eqb_spec k k'); [congruence | reflexivity].
    + now rewrite IH.
Qed.

(** A task is polled from a state whose client is connected. *)
Definition connected (view : Temporal.Client Shell.Formatted)
    (registry : Py.dict ShellServer.TaskMeta) : ShellServer.Server :=
  {| ShellServer._temporal_client := Some view;
     ShellServer._task_registry := registry |}.

(** The label under which [start_command] registers a task. *)
Definition shown_label (command label : string) : string :=
  if Py.truthy label then label else Py.slice_to 60 command.

(** [start_command] registers what the status check reports.  A start
    that succeeds returns the identifier [task-] followed by the first
    12 characters of the drawn hex, registers under it the command, the
    label (the first 60 characters of the command when no label is
    given), the start time and the status RUNNING, and leaves every other
    entry as it was; whenever the engine then knows the identifier,
    [check_task_status] succeeds, reports label, command and start time
    exactly as registered and puts the engine's status in the registry.
    A start that fails (no connection, or the engine raises) registers
    nothing. *)
Theorem start_then_check (TEMPORAL_HOST : string)
    (connect : nat -> res (Temporal.Client Shell.Formatted))
    (uuid4_hex now_isoformat : string)
    (start_workflow : Temporal.Client Shell.Formatted -> Shell.ShellCommandInput
                      -> string -> string -> res unit)
    (command label : string) (st : ShellServer.Server) :
  let task_id := "task-" +:+ Py.slice_to 12 uuid4_hex in
  let meta status :=
    {| ShellServer.m_command := command;
       ShellServer.m_label := shown_label command label;
       ShellServer.m_started_at := now_isoformat;
       ShellServer.m_status := status |} in
  match ShellServer.start_command TEMPORAL_HOST connect uuid4_hex now_isoformat
          start_workflow command label st with
  | (Ok started, st') =>
      ShellServer.s_task_id started = task_id
      /\ ShellServer.s_status started = "RUNNING"
      /\ Py.dict_get (ShellServer._task_registry st') task_id = Some (meta "RUNNING")
      /\ (forall other, other <> task_id ->
            Py.dict_get (ShellServer._task_registry st') other
            = Py.dict_get (ShellServer._task_registry st) other)
      /\ (forall view run later_connect,
            view !! task_id = Some run ->
            let status :=
              ShellServer._normalize_workflow_status
                (Temporal.member <$> Temporal.exec_status run) in
            exists st'',
              ShellServer.check_task_status TEMPORAL_HOST later_connect task_id
                (connected view (ShellServer._task_registry st'))
              = (Ok {| ShellServer.c_task_id := task_id;
                       ShellServer.c_status := status;
                       ShellServer.c_label := Some (shown_label command label);
                       ShellServer.c_command := Some command;
                       ShellServer.c_started_at := Some now_isoformat;
                       ShellServer.c_message :=
                         ShellServer.status_message task_id status |}, st'')
              /\ Py.dict_get (ShellServer._task_registry st'') task_id
                 = Some (meta status))
  | (Raise _, st') =>
      ShellServer._task_registry st' = ShellServer._task_registry st
  end.
Proof.
  intros task_id meta.
  unfold ShellServer.start_command, ShellServer.new_task_id, mbind, M_bind, lift,
    mret, M_ret.
  fold task_id.
  destruct (ShellServer._get_client TEMPORAL_HOST connect st) as [[client|e] st1] eqn:Hc.
  2:{ unfold ShellServer._get_client in Hc.
      destruct (ShellServer._temporal_client st); [discriminate |].
      destruct (ShellServer.connect_loop connect _ _); [discriminate |].
      now injection Hc as _ <-. }
  assert (ShellServer._task_registry st1 = ShellServer._task_registry st) as Hreg.
  { unfold ShellServer._get_client in Hc.
    destruct (ShellServer._temporal_client st); [now injection Hc as _ <- |].
    destruct (ShellServer.connect_loop connect _ _); [| discriminate].
    now injection Hc as _ <-. }
  destruct (start_workflow client _ task_id ShellServer.TASK_QUEUE) as [[]|e];
    [| exact Hreg].
  unfold ShellServer.register. cbn [ShellServer.s_task_id ShellServer.s_status
    ShellServer._task_registry]. rewrite Hreg.
  split; [reflexivity | split; [reflexivity | split; [apply dict_get_set | split]]].
  - intros other Hother. now apply dict_get_set_other.
  - intros view run later_connect Hrun.
    unfold ShellServer.check_task_status, mbind, M_bind, lift, mret, M_ret, get_state,
      connected, ShellServer._get_client, Temporal.describe.
    cbn [ShellServer._temporal_client]. rewrite Hrun.
    unfold ShellServer.record_status. cbn [ShellServer._task_registry].
    rewrite dict_get_set. cbn [ShellServer._task_registry]. rewrite dict_get_set.
    eexists. split; [reflexivity |].
    cbn [ShellServer._task_registry]. now rewrite dict_get_set.
Qed.

Lemma shell_get_client_registry (TEMPORAL_HOST : string)
    (connect : nat -> res (Temporal.Client Shell.Formatted))
    (st st' : ShellServer.Server) (r : res (Temporal.Client Shell.Formatted)) :
  ShellServer._get_client TEMPORAL_HOST connect st = (r, st') ->
  ShellServer._task_registry st' = ShellServer._task_registry st.
Proof.
  unfold ShellServer._get_client.
  destruct (ShellServer._temporal_client st); [now intros [= _ <-] |].
  destruct (ShellServer.connect_loop connect _ _); now intros [= _ <-].
Qed.

Lemma scan_get_client_registry (TEMPORAL_HOST : string)
    (connect : nat -> res (Temporal.Client Nmap.Parsed))
    (st st' : NmapServer.Server) (r : res (Temporal.Client Nmap.Parsed)) :
  NmapServer._get_client TEMPORAL_HOST connect st = (r, st') ->
  NmapServer._scan_registry st' = NmapServer._scan_registry st.
Proof.
  unfold NmapServer._get_client.
  destruct (NmapServer._temporal_client st); [now intros [= _ <-] |].
  destruct (NmapServer.connect_loop connect _ _); now intros [= _ <-].
Qed.

(** [run_quick_command] registers the task before it runs it.  When the
    run returns, the call returns its result under the new identifier and
    the registry holds the task as COMPLETED, labelled with the first 60
    characters of the command.  When the run raises, the call raises the
    same error and the entry stays in the registry as RUNNING: nothing
    marks it failed.  Only a call that could not connect registers
    nothing. *)
Theorem quick_command_bookkeeping (TEMPORAL_HOST : string)
    (connect : nat -> res (Temporal.Client Shell.Formatted))
    (uuid4_hex now_isoformat : string)
    (execute_workflow : Temporal.Client Shell.Formatted -> Shell.ShellCommandInput
                        -> string -> string -> res Shell.Formatted)
    (command : string) (st : ShellServer.Server) :
  let task_id := "task-" +:+ Py.slice_to 12 uuid4_hex in
  let cmd_input := {| Shell.command := command; Shell.task_id := task_id |} in
  let meta status :=
    {| ShellServer.m_command := command;
       ShellServer.m_label := Py.slice_to 60 command;
       ShellServer.m_started_at := now_isoformat;
       ShellServer.m_status := status |} in
  let outcome :=
    ShellServer.run_quick_command TEMPORAL_HOST connect uuid4_hex now_isoformat
      execute_workflow command st in
  match ShellServer._get_client TEMPORAL_HOST connect st with
  | (Ok client, _) =>
      match execute_workflow client cmd_input task_id "shell-tasks" with
      | Ok result =>
          fst outcome = Ok {| ShellServer.q_task_id := task_id;
                              ShellServer.q_status := "COMPLETED";
                              ShellServer.q_result := result |}
          /\ Py.dict_get (ShellServer._task_registry (snd outcome)) task_id
             = Some (meta "COMPLETED")
      | Raise e =>
          fst outcome = Raise e
          /\ Py.dict_get (ShellServer._task_registry (snd outcome)) task_id
             = Some (meta "RUNNING")
      end
      /\ forall other, other <> task_id ->
           Py.dict_get (ShellServer._task_registry (snd outcome)) other
           = Py.dict_get (ShellServer._task_registry st) other
  | (Raise e, _) =>
      fst outcome = Raise e
      /\ ShellServer._task_registry (snd outcome) = ShellServer._task_registry st
  end.
Proof.
  intros task_id cmd_input meta outcome. subst outcome.
  unfold ShellServer.run_quick_command, ShellServer.new_task_id, mbind, M_bind, lift,
    mret, M_ret.
  fold task_id. fold cmd_input.
  destruct (ShellServer._get_client TEMPORAL_HOST connect st) as [[client|e] st1] eqn:Hc;
    pose proof (shell_get_client_registry _ _ _ _ _ Hc) as Hreg;
    [| split; [reflexivity | exact Hreg]].
  unfold ShellServer.register, ShellServer.TASK_QUEUE.
  destruct (execute_workflow client cmd_input task_id "shell-tasks") as [result|e].
  - unfold ShellServer.record_status. cbn [ShellServer._task_registry].
    rewrite dict_get_set.
    cbn [fst snd ShellServer._task_registry ShellServer.set_status
           ShellServer.m_command ShellServer.m_label ShellServer.m_started_at].
    rewrite dict_set_set, Hreg.
    split; [split; [reflexivity | apply dict_get_set] |].
    intros other Hother. now apply dict_get_set_other.
  - cbn [fst snd ShellServer._task_registry]. rewrite Hreg.
    split; [split; [reflexivity | apply dict_get_set] |].
    intros other Hother. now apply dict_get_set_other.
Qed.

(** A scan is polled from a state whose client is connected. *)
Definition scan_connected (view : Temporal.Client Nmap.Parsed)
    (registry : Py.dict NmapServer.ScanMeta) : NmapServer.Server :=
  {| NmapServer._temporal_client := Some view;
     NmapServer._scan_registry := registry |}.

(** The label under which [start_nmap_scan] registers a scan. *)
Definition scan_label (target label : string) : string :=
  if Py.truthy label then label else "Scan of " +:+ target.

(** [start_nmap_scan] hands the engine the target and the arguments as
    given, under the identifier [scan-] followed by the first 12
    characters of the drawn hex, and only once the engine has accepted the
    start registers target, arguments, label ([Scan of] the target when no
    label is given), start time and the status RUNNING.  Whenever the
    engine then knows the identifier, [check_scan_status] reports label,
    target and start time as registered.  A start that fails registers
    nothing. *)
Theorem start_scan_then_check (TEMPORAL_HOST : string)
    (connect : nat -> res (Temporal.Client Nmap.Parsed))
    (uuid4_hex now_isoformat : string)
    (start_workflow : Temporal.Client Nmap.Parsed -> Nmap.NmapScanInput
                      -> string -> string -> res unit)
    (target nmap_args label : string) (st : NmapServer.Server) :
  let scan_id := "scan-" +:+ Py.slice_to 12 uuid4_hex in
  let scan_input :=
    {| Nmap.target := target; Nmap.nmap_args := nmap_args; Nmap.scan_id := scan_id |} in
  let meta status :=
    {| NmapServer.m_target := target;
       NmapServer.m_nmap_args := nmap_args;
       NmapServer.m_label := scan_label target label;
       NmapServer.m_started_at := now_isoformat;
       NmapServer.m_status := status |} in
  match NmapServer.start_nmap_scan TEMPORAL_HOST connect uuid4_hex now_isoformat
          start_workflow target nmap_args label st with
  | (Ok started, st') =>
      NmapServer.s_scan_id started = scan_id
      /\ NmapServer.s_status started = "RUNNING"
      /\ (exists client, start_workflow client scan_input scan_id "nmap-scans" = Ok tt)
      /\ Py.dict_get (NmapServer._scan_registry st') scan_id = Some (meta "RUNNING")
      /\ (forall other, other <> scan_id ->
            Py.dict_get (NmapServer._scan_registry st') other
            = Py.dict_get (NmapServer._scan_registry st) other)
      /\ (forall view run later_connect,
            view !! scan_id = Some run ->
            let status :=
              NmapServer._normalize_workflow_status
                (Temporal.member <$> Temporal.exec_status run) in
            exists st'',
              NmapServer.check_scan_status TEMPORAL_HOST later_connect scan_id
                (scan_connected view (NmapServer._scan_registry st'))
              = (Ok {| NmapServer.c_scan_id := scan_id;
                       NmapServer.c_status := status;
                       NmapServer.c_label := Some (scan_label target label);
                       NmapServer.c_target := Some target;
                       NmapServer.c_started_at := Some now_isoformat;
                       NmapServer.c_message :=
                         NmapServer.status_message scan_id status |}, st'')
              /\ Py.dict_get (NmapServer._scan_registry st'') scan_id
                 = Some (meta status))
  | (Raise _, st') =>
      NmapServer._scan_registry st' = NmapServer._scan_registry st
  end.
Proof.
  intros scan_id scan_input meta.
  unfold NmapServer.start_nmap_scan, NmapServer.new_scan_id, mbind, M_bind, lift,
    mret, M_ret.
  fold scan_id. fold scan_input.
  destruct (NmapServer._get_client TEMPORAL_HOST connect st) as [[client|e] st1] eqn:Hc;
    pose proof (scan_get_client_registry _ _ _ _ _ Hc) as Hreg; [| exact Hreg].
  unfold NmapServer.TASK_QUEUE.
  destruct (start_workflow client scan_input scan_id "nmap-scans") as [[]|e] eqn:Hstart;
    [| exact Hreg].
  unfold NmapServer.register. cbn [NmapServer.s_scan_id NmapServer.s_status
    NmapServer._scan_registry]. rewrite Hreg.
  split; [reflexivity | split; [reflexivity | split; [now exists client | ]]].
  split; [apply dict_get_set | split].
  - intros other Hother. now apply dict_get_set_other.
  - intros view run later_connect Hrun.
    unfold NmapServer.check_scan_status, mbind, M_bind, lift, mret, M_ret, get_state,
      scan_connected, NmapServer._get_client, Temporal.describe.
    cbn [NmapServer._temporal_client]. rewrite Hrun.
    unfold NmapServer.record_status. cbn [NmapServer._scan_registry].
    rewrite dict_get_set. cbn [NmapServer._scan_registry]. rewrite dict_get_set.
    eexists. split; [reflexivity |].
    cbn [NmapServer._scan_registry]. now rewrite dict_get_set.
Qed.

(** [run_quick_scan] registers the scan, labelled [Quick scan of] the
    target, before it runs it.  A run that returns leaves the entry
    COMPLETED and its result is returned under the new identifier; a run
    that raises leaves the entry RUNNING and the error reaches the
    caller. *)
Theorem quick_scan_bookkeeping (TEMPORAL_HOST : string)
    (connect : nat -> res (Temporal.Client Nmap.Parsed))
    (uuid4_hex now_isoformat : string)
    (execute_workflow : Temporal.Client Nmap.Parsed -> Nmap.NmapScanInput
                        -> string -> string -> res Nmap.Parsed)
    (target nmap_args : string) (st : NmapServer.Server) :
  let scan_id := "scan-" +:+ Py.slice_to 12 uuid4_hex in
  let scan_input :=
    {| Nmap.target := target; Nmap.nmap_args := nmap_args; Nmap.scan_id := scan_id |} in
  let meta status :=
    {| NmapServer.m_target := target;
       NmapServer.m_nmap_args := nmap_args;
       NmapServer.m_label := "Quick scan of " +:+ target;
       NmapServer.m_started_at := now_isoformat;
       NmapServer.m_status := status |} in
  let outcome :=
    NmapServer.run_quick_scan TEMPORAL_HOST connect uuid4_hex now_isoformat
      execute_workflow target nmap_args st in
  match NmapServer._get_client TEMPORAL_HOST connect st with
  | (Ok client, _) =>
      match execute_workflow client scan_input scan_id "nmap-scans" with
      | Ok result =>
          fst outcome = Ok {| NmapServer.q_scan_id := scan_id;
                              NmapServer.q_status := "COMPLETED";
                              NmapServer.q_result := result |}
          /\ Py.dict_get (NmapServer._scan_registry (snd outcome)) scan_id
             = Some (meta "COMPLETED")
      | Raise e =>
          fst outcome = Raise e
          /\ Py.dict_get (NmapServer._scan_registry (snd outcome)) scan_id
             = Some (meta "RUNNING")
      end
      /\ forall other, other <> scan_id ->
           Py.dict_get (NmapServer._scan_registry (snd outcome)) other
           = Py.dict_get (NmapServer._scan_registry st) other
  | (Raise e, _) =>
      fst outcome = Raise e
      /\ NmapServer._scan_registry (snd outcome) = NmapServer._scan_registry st
  end.
Proof.
  intros scan_id scan_input meta outcome. subst outcome.
  unfold NmapServer.run_quick_scan, NmapServer.new_scan_id, mbind, M_bind, lift,
    mret, M_ret.
  fold scan_id. fold scan_input.
  destruct (NmapServer._get_client TEMPORAL_HOST connect st) as [[client|e] st1] eqn:Hc;
    pose proof (scan_get_client_registry _ _ _ _ _ Hc) as Hreg;
    [| split; [reflexivity | exact Hreg]].
  unfold NmapServer.register, NmapServer.TASK_QUEUE.
  destruct (execute_workflow client scan_input scan_id "nmap-scans") as [result|e].
  - unfold NmapServer.record_status. cbn [NmapServer._scan_registry].
    rewrite dict_get_set.
    cbn [fst snd NmapServer._scan_registry NmapServer.set_status
           NmapServer.m_target NmapServer.m_nmap_args NmapServer.m_label
           NmapServer.m_started_at].
    rewrite dict_set_set, Hreg.
    split; [split; [reflexivity | apply dict_get_set] |].
    intros other Hother. now apply dict_get_set_other.
  - cbn [fst snd NmapServer._scan_registry]. rewrite Hreg.
    split; [split; [reflexivity | apply dict_get_set] |].
    intros other Hother. now apply dict_get_set_other.
Qed.

(** Two registries hold the same tasks in the same order, and differ at
    most in the recorded statuses. *)
Definition same_tasks (before after : Py.dict ShellServer.TaskMeta) : Prop :=
  Forall2 (fun old new =>
             new.1 = old.1
             /\ ShellServer.m_command new.2 = ShellServer.m_command old.2
             /\ ShellServer.m_label new.2 = ShellServer.m_label old.2
             /\ ShellServer.m_started_at new.2 = ShellServer.m_started_at old.2)
          before after.

Lemma same_tasks_refl (d : Py.dict ShellServer.TaskMeta) : same_tasks d d.
Proof. induction d; constructor; auto. Qed.

Lemma same_tasks_trans (a b c : Py.dict ShellServer.TaskMeta) :
  same_tasks a b -> same_tasks b c -> same_tasks a c.
Proof.
  intros Hab. revert c. induction Hab as [|x y a b Hxy Hab IH]; intros c Hbc.
  - inversion Hbc. constructor.
  - inversion Hbc as [|y' z b' c' Hyz Hbc']; subst. constructor; [| now apply IH].
    destruct Hxy as (? & ? & ? & ?), Hyz as (? & ? & ? & ?). repeat split; congruence.
Qed.

Lemma record_status_same_tasks (task_id status : string) (st : ShellServer.Server) :
  fst (ShellServer.record_status task_id status st) = Ok tt
  /\ same_tasks (ShellServer._task_registry st)
       (ShellServer._task_registry (snd (ShellServer.record_status task_id status st)))
  /\ ShellServer._temporal_client (snd (ShellServer.record_status task_id status st))
     = ShellServer._temporal_client st
  /\ (Py.dict_get (ShellServer._task_registry st) task_id = None ->
      snd (ShellServer.record_status task_id status st) = st).
Proof.
  unfold ShellServer.record_status.
  destruct (Py.dict_get (ShellServer._task_registry st) task_id) as [m|] eqn:Hget;
    cbn [fst snd ShellServer._task_registry ShellServer._temporal_client].
  2:{ repeat split. apply same_tasks_refl. }
  split; [reflexivity | split; [| split; [reflexivity | discriminate]]].
  revert Hget. generalize (ShellServer._task_registry st) as d.
  induction d as [|[k v] d IH]; cbn [Py.dict_get Py.dict_set]; [discriminate |].
  destruct (String.eqb k task_id).
  - intros [= ->]. constructor; [now repeat split | apply same_tasks_refl].
  - intros Hget. constructor; [now repeat split | now apply IH].
Qed.

Lemma refresh_all_same_tasks (client : Temporal.Client Shell.Formatted)
    (items : list (string * ShellServer.TaskMeta)) :
  forall st,
    same_tasks (ShellServer._task_registry st)
      (ShellServer._task_registry (snd (ShellServer.refresh_all client items st))).
Proof.
  induction items as [|[task_id meta] items IH]; intros st.
  - apply same_tasks_refl.
  - cbn [ShellServer.refresh_all]. unfold mbind, M_bind, mret, M_ret.
    assert (Hentry : exists entry st1,
               ShellServer.refresh_entry client task_id meta st = (Ok entry, st1)
               /\ same_tasks (ShellServer._task_registry st)
                    (ShellServer._task_registry st1)).
    { unfold ShellServer.refresh_entry.
      destruct (_ || _); [| eexists _, _; split; [reflexivity | apply same_tasks_refl]].
      destruct (Temporal.describe client task_id) as [desc|e];
        [| eexists _, _; split; [reflexivity | apply same_tasks_refl]].
      unfold mbind, M_bind, mret, M_ret.
      pose proof (record_status_same_tasks task_id
                    (ShellServer._normalize_workflow_status desc) st)
        as (Hok & Hsame & _).
      destruct (ShellServer.record_status task_id _ st) as [r st1].
      cbn [fst snd] in *. subst r. eexists _, _. split; [reflexivity | exact Hsame]. }
    destruct Hentry as (entry & st1 & -> & Hsame).
    specialize (IH st1).
    destruct (ShellServer.refresh_all client items st1) as [[tasks|e] st2];
      cbn [snd] in *; eapply same_tasks_trans; eassumption.
Qed.

(** Polling only ever rewrites statuses.  Whatever they return or raise,
    [check_task_status], [get_task_results] and [list_recent_tasks] leave
    the registry with the same tasks in the same order, each with the
    command, label and start time it had; and a status check or a fetch
    for an identifier that is not registered leaves the registry exactly
    as it was (the check then reports no label, command or start
    time). *)
Theorem polling_keeps_tasks (TEMPORAL_HOST : string)
    (connect : nat -> res (Temporal.Client Shell.Formatted))
    (task_id : string) (st : ShellServer.Server) :
  let check := ShellServer.check_task_status TEMPORAL_HOST connect task_id st in
  let fetch := ShellServer.get_task_results TEMPORAL_HOST connect task_id st in
  let listing := ShellServer.list_recent_tasks TEMPORAL_HOST connect st in
  same_tasks (ShellServer._task_registry st) (ShellServer._task_registry (snd check))
  /\ same_tasks (ShellServer._task_registry st) (ShellServer._task_registry (snd fetch))
  /\ same_tasks (ShellServer._task_registry st) (ShellServer._task_registry (snd listing))
  /\ (Py.dict_get (ShellServer._task_registry st) task_id = None ->
      ShellServer._task_registry (snd check) = ShellServer._task_registry st
      /\ ShellServer._task_registry (snd fetch) = ShellServer._task_registry st
      /\ forall r, fst check = Ok r ->
           ShellServer.c_label r = None
           /\ ShellServer.c_command r = None
           /\ ShellServer.c_started_at r = None).
Proof.
  intros check fetch listing. subst check fetch listing.
  unfold ShellServer.check_task_status, ShellServer.get_task_results,
    ShellServer.list_recent_tasks, mbind, M_bind, lift, mret, M_ret, get_state.
  destruct (ShellServer._get_client TEMPORAL_HOST connect st) as [[client|e] st1] eqn:Hc;
    pose proof (shell_get_client_registry _ _ _ _ _ Hc) as Hreg; cbn [snd fst].
  2:{ rewrite Hreg. repeat split; try apply same_tasks_refl; discriminate. }
  rewrite <- Hreg.
  split; [| split; [| split]].
  - destruct (Temporal.describe client task_id) as [desc|e]; [| apply same_tasks_refl].
    pose proof (record_status_same_tasks task_id
                  (ShellServer._normalize_workflow_status desc) st1) as (Hok & Hsame & _).
    destruct (ShellServer.record_status task_id _ st1) as [r st2].
    cbn [fst snd] in *. subst r. exact Hsame.
  - destruct (Temporal.describe client task_id) as [desc|e]; [| apply same_tasks_refl].
    destruct (negb _); [apply same_tasks_refl |].
    destruct (Temporal.result client task_id) as [result|e]; [| apply same_tasks_refl].
    pose proof (record_status_same_tasks task_id "COMPLETED" st1) as (Hok & Hsame & _).
    destruct (ShellServer.record_status task_id "COMPLETED" st1) as [r st2].
    cbn [fst snd] in *. subst r. exact Hsame.
  - pose proof (refresh_all_same_tasks client (ShellServer._task_registry st1) st1)
      as Hsame.
    destruct (ShellServer.refresh_all client _ st1) as [[tasks|e] st2]; exact Hsame.
  - intros Hnone.
    split; [| split].
    + destruct (Temporal.describe client task_id) as [desc|e]; [| reflexivity].
      pose proof (record_status_same_tasks task_id
                    (ShellServer._normalize_workflow_status desc) st1)
        as (Hok & _ & _ & Hsame).
      destruct (ShellServer.record_status task_id _ st1) as [r st2].
      cbn [fst snd] in *. subst r. now rewrite (Hsame Hnone).
    + destruct (Temporal.describe client task_id) as [desc|e]; [| reflexivity].
      destruct (negb _); [reflexivity |].
      destruct (Temporal.result client task_id) as [result|e]; [| reflexivity].
      pose proof (record_status_same_tasks task_id "COMPLETED" st1)
        as (Hok & _ & _ & Hsame).
      destruct (ShellServer.record_status task_id "COMPLETED" st1) as [r st2].
      cbn [fst snd] in *. subst r. now rewrite (Hsame Hnone).
    + intros r.
      destruct (Temporal.describe client task_id) as [desc|e]; [| discriminate].
      pose proof (record_status_same_tasks task_id
                    (ShellServer._normalize_workflow_status desc) st1)
        as (Hok & _ & _ & Hsame).
      destruct (ShellServer.record_status task_id _ st1) as [r' st2].
      cbn [fst snd] in *. subst r'. rewrite (Hsame Hnone), Hnone.
      intros [= <-]. repeat split.
Qed.

Lemma dict_get_in {V : Type} (d : Py.dict V) (k : string) (v : V) :
  List.NoDup (map fst d) -> In (k, v) d -> Py.dict_get d k = Some v.
Proof.
  induction d as [|[k1 v1] d IH]; cbn [map fst Py.dict_get]; [intros _ [] |].
  intros Hnodup [[= -> ->] | Hin].
  - now rewrite String.eqb_refl.
  - apply List.NoDup_cons_iff in Hnodup as [Hfresh Hnodup].
    destruct (String.eqb_spec k1 k) as [-> | Hne]; [| now apply IH].
    exfalso. apply Hfresh. change k with (fst (k, v)). now apply in_map.
Qed.

(** A task that [list_recent_tasks] asks the engine about: last seen
    RUNNING or UNKNOWN. *)
Definition refreshable (meta : ShellServer.TaskMeta) : bool :=
  String.eqb (ShellServer.m_status meta) "RUNNING"
  || String.eqb (ShellServer.m_status meta) "UNKNOWN".

(** A task the listing asks about and the engine does not know. *)
Definition lost (client : Temporal.Client Shell.Formatted)
    (item : string * ShellServer.TaskMeta) : bool :=
  refreshable item.2 && bool_decide (client !! item.1 = None).

Lemma refresh_entry_spec (client : Temporal.Client Shell.Formatted)
    (task_id : string) (meta : ShellServer.TaskMeta) (st : ShellServer.Server) :
  Py.dict_get (ShellServer._task_registry st) task_id = Some meta ->
  exists entry st1,
    ShellServer.refresh_entry client task_id meta st = (Ok entry, st1)
    /\ Py.dict_get (ShellServer._task_registry st1) task_id
       = Some (if lost client (task_id, meta) then meta else entry.2)
    /\ (lost client (task_id, meta) = true -> ShellServer.m_status entry.2 = "UNKNOWN")
    /\ forall other, other <> task_id ->
         Py.dict_get (ShellServer._task_registry st1) other
         = Py.dict_get (ShellServer._task_registry st) other.
Proof.
  intros Hget. unfold ShellServer.refresh_entry, lost, refreshable, Temporal.describe.
  cbn [fst snd].
  destruct (_ || _); cbn [andb].
  2:{ eexists _, _. split; [reflexivity |]. cbn [snd].
      split; [exact Hget | split; [discriminate | reflexivity]]. }
  destruct (client !! task_id) as [run|] eqn:Hrun.
  - rewrite bool_decide_eq_false_2 by discriminate.
    unfold mbind, M_bind, mret, M_ret, ShellServer.record_status. rewrite Hget.
    eexists _, _. split; [reflexivity |].
    cbn [snd ShellServer._task_registry].
    split; [apply dict_get_set | split; [discriminate |]].
    intros other Hother. now apply dict_get_set_other.
  - rewrite bool_decide_eq_true_2 by reflexivity.
    eexists _, _. split; [reflexivity |]. cbn [snd].
    split; [exact Hget | split; [reflexivity | reflexivity]].
Qed.

Lemma refresh_all_registry (client : Temporal.Client Shell.Formatted)
    (items : list (string * ShellServer.TaskMeta)) :
  forall st,
    List.NoDup (map fst items) ->
    (forall k v, In (k, v) items -> Py.dict_get (ShellServer._task_registry st) k = Some v) ->
    exists tasks st',
      ShellServer.refresh_all client items st = (Ok tasks, st')
      /\ Forall2 (fun item entry =>
                    Py.dict_get (ShellServer._task_registry st') item.1
                    = Some (if lost client item then item.2 else entry.2)
                    /\ (lost client item = true ->
                        ShellServer.m_status entry.2 = "UNKNOWN"))
           items tasks
      /\ forall other, ~ In other (map fst items) ->
           Py.dict_get (ShellServer._task_registry st') other
           = Py.dict_get (ShellServer._task_registry st) other.
Proof.
  induction items as [|[task_id meta] items IH]; intros st Hnodup Hitems.
  - exists [], st. split; [reflexivity | split; [constructor | reflexivity]].
  - cbn [map fst] in Hnodup. apply List.NoDup_cons_iff in Hnodup as [Hfresh Hnodup].
    cbn [ShellServer.refresh_all]. unfold mbind, M_bind, mret, M_ret.
    destruct (refresh_entry_spec client task_id meta st (Hitems _ _ (or_introl eq_refl)))
      as (entry & st1 & -> & Hentry & Hlost & Hframe).
    destruct (IH st1 Hnodup) as (tasks & st' & -> & Hall & Hrest).
    { intros k v Hin. rewrite Hframe; [apply Hitems; now right |].
      intros ->. apply Hfresh. change task_id with (fst (task_id, v)). now apply in_map. }
    exists (entry :: tasks), st'. split; [reflexivity | split].
    + constructor; [| exact Hall]. cbn [fst]. rewrite (Hrest _ Hfresh). now split.
    + intros other Hother. cbn [map fst] in Hother.
      rewrite Hrest.
      * apply Hframe. intros ->. apply Hother. now left.
      * intros Hin. apply Hother. now right.
Qed.

(** What the listing shows and what the registry keeps can differ.  For a
    registry without repeated identifiers (any [dict]), after
    [list_recent_tasks] the registry holds each task exactly as listed,
    except the tasks it asked about and the engine did not know: those
    are listed as UNKNOWN while the registry keeps the entry it had, so a
    lost task that was RUNNING is still recorded as RUNNING. *)
Theorem listing_vs_registry (TEMPORAL_HOST : string)
    (connect : nat -> res (Temporal.Client Shell.Formatted))
    (st : ShellServer.Server) (client : Temporal.Client Shell.Formatted) :
  ShellServer._temporal_client st = Some client ->
  List.NoDup (map fst (ShellServer._task_registry st)) ->
  exists tasks st',
    ShellServer.list_recent_tasks TEMPORAL_HOST connect st
    = (Ok (Z.of_nat (length tasks), tasks), st')
    /\ Forall2 (fun item entry =>
                  Py.dict_get (ShellServer._task_registry st') item.1
                  = Some (if lost client item then item.2 else entry.2)
                  /\ (lost client item = true ->
                      ShellServer.m_status entry.2 = "UNKNOWN"))
         (ShellServer._task_registry st) tasks.
Proof.
  intros Hc Hnodup.
  unfold ShellServer.list_recent_tasks, mbind, M_bind, mret, M_ret, get_state.
  unfold ShellServer._get_client. rewrite Hc.
  destruct (refresh_all_registry client (ShellServer._task_registry st) st Hnodup)
    as (tasks & st' & -> & Hall & _).
  { intros k v Hin. now apply dict_get_in. }
  exists tasks, st'. split; [reflexivity | exact Hall].
Qed.

(** A server that started one task and whose engine has since lost it. *)
Definition forgotten_task : ShellServer.Server :=
  {| ShellServer._temporal_client := Some ∅;
     ShellServer._task_registry :=
       [("task-00112233aabb",
         {| ShellServer.m_command := "make all"; ShellServer.m_label := "build";
            ShellServer.m_started_at := "2024-05-01T12:00:00+00:00";
            ShellServer.m_status := "RUNNING" |})] |}.

Lemma listing_vs_registry_witness :
  exists tasks st',
    ShellServer.list_recent_tasks "temporal:7233" (fun _ => Raise (RPCError "down"))
      forgotten_task
    = (Ok (Z.of_nat (length tasks), tasks), st')
    /\ Forall (fun entry => ShellServer.m_status entry.2 = "UNKNOWN") tasks
    /\ Py.dict_get (ShellServer._task_registry st') "task-00112233aabb"
       = Py.dict_get (ShellServer._task_registry forgotten_task) "task-00112233aabb".
Proof.
  destruct (listing_vs_registry "temporal:7233" (fun _ => Raise (RPCError "down"))
              forgotten_task ∅ eq_refl)
    as (tasks & st' & Hlist & Hall).
  { repeat constructor. intros []. }
  exists tasks, st'. split; [exact Hlist |].
  inversion Hall as [|item entry items tasks' [Hkept Hunknown] Hrest]; subst.
  inversion Hrest; subst. split; [| exact Hkept].
  repeat constructor. apply Hunknown. reflexivity.
Defined.

(** ** The structure stage of the shell pipeline *)

(** The summary up to the standard-error block: the exit line and the
    standard-output part. *)
Definition summary_head (stdout : string) (exit_code : Z) : string :=
  exit_line exit_code +:+ Py.nl
  +:+ (if Py.truthy (Py.strip stdout) then Shell.stdout_block stdout
       else Py.nl +:+ "No stdout output.").

Lemma summary_head_layout (stdout stderr : string) (exit_code : Z) :
  Py.join Py.nl (Shell.summary_parts stdout stderr exit_code)
  = summary_head stdout exit_code +:+ stderr_tail stderr.
Proof. rewrite summary_layout. unfold summary_head. now rewrite !app_assoc_str. Qed.

(** [format_output] never raises, and the standard error is previewed
    like the standard output but at 500 characters.  A blank standard
    error (empty or white space only) adds nothing to the summary; one of
    at most 500 characters is appended whole under its header; a longer
    one is cut to its first 500 characters followed by [ [truncated]]. *)
Theorem stderr_truncation (raw : Shell.Raw) :
  let stdout := default EmptyString (Shell.raw_stdout raw) in
  let stderr := default EmptyString (Shell.raw_stderr raw) in
  exists out,
    Shell.format_output raw = Ok out
    /\ let head := summary_head stdout (Shell.f_exit_code out) in
       (blank stderr -> Shell.f_summary out = head)
       /\ (~ blank stderr -> Py.len stderr <= 500 ->
           Shell.f_summary out = head +:+ Py.nl +:+ stderr_header stderr +:+ stderr)
       /\ (~ blank stderr -> 500 < Py.len stderr ->
           exists first rest,
             stderr = first +:+ rest
             /\ Py.len first = 500
             /\ Shell.f_summary out
                = head +:+ Py.nl +:+ stderr_header stderr +:+ first +:+ " [truncated]").
Proof.
  intros stdout stderr. eexists. split; [reflexivity |].
  cbn [Shell.f_summary Shell.f_exit_code]. fold stdout. fold stderr.
  set (exit_code := default (-1) (Shell.raw_exit_code raw)).
  rewrite summary_head_layout. unfold stderr_tail.
  split; [| split].
  - intros Hblank. apply strip_falsy in Hblank. rewrite Hblank. apply app_empty_r.
  - intros Hnonblank Hshort. apply strip_truthy in Hnonblank. rewrite Hnonblank.
    rewrite stderr_block_layout. apply Z.ltb_ge in Hshort as Hb. rewrite Hb, app_empty_r.
    rewrite slice_to_all by (unfold Py.len in Hshort; lia). reflexivity.
  - intros Hnonblank Hlong. apply strip_truthy in Hnonblank. rewrite Hnonblank.
    destruct (slice_to_split 500 stderr) as (Hsplit & Hlen);
      [unfold Py.len in Hlong; lia |].
    exists (Py.slice_to 500 stderr), (Py.drop 500 stderr).
    split; [exact Hsplit |]. split; [unfold Py.len; rewrite Hlen; reflexivity |].
    rewrite stderr_block_layout. apply Z.ltb_lt in Hlong. rewrite Hlong.
    reflexivity.
Qed.

Lemma slice_to_length (n : nat) (s : string) :
  (String.length (Py.slice_to n s) <= n)%nat.
Proof.
  revert s. induction n as [|n IH]; intros [|c s]; simpl; try lia.
  specialize (IH s). lia.
Qed.

(** The number of characters of [str(n)]. *)
Definition digits (n : Z) : nat := String.length (Py.str_of_int n).

(** The result carries the two streams in full, whatever their size, and
    a summary of bounded size: at most 2588 characters besides the
    decimal digits of the exit code and of the two lengths. *)
Theorem summary_is_bounded (raw : Shell.Raw) :
  let stdout := default EmptyString (Shell.raw_stdout raw) in
  let stderr := default EmptyString (Shell.raw_stderr raw) in
  let exit_code := default (-1) (Shell.raw_exit_code raw) in
  exists out,
    Shell.format_output raw = Ok out
    /\ Shell.f_stdout out = stdout
    /\ Shell.f_stderr out = stderr
    /\ Shell.f_exit_code out = exit_code
    /\ (String.length (Shell.f_summary out)
        <= 2588 + digits exit_code + digits (Py.len stdout) + digits (Py.len stderr))%nat.
Proof.
  intros stdout stderr exit_code. eexists. split; [reflexivity |].
  cbn [Shell.f_summary Shell.f_exit_code Shell.f_stdout Shell.f_stderr].
  fold stdout. fold stderr. fold exit_code.
  split; [reflexivity | split; [reflexivity | split; [reflexivity |]]].
  rewrite summary_layout. unfold stderr_tail, exit_line, digits.
  assert (Hout : (String.length
                    (if Py.truthy (Py.strip stdout) then Shell.stdout_block stdout
                     else Py.nl +:+ "No stdout output.")
                  <= 2030 + String.length (Py.str_of_int (Py.len stdout)))%nat).
  { destruct (Py.truthy (Py.strip stdout));
      [| rewrite length_app_str; cbn [String.length Py.nl]; lia].
    rewrite stdout_block_layout. unfold stdout_header.
    rewrite !length_app_str. pose proof (slice_to_length 2000 stdout).
    destruct (2000 <? Py.len stdout); cbn [String.length Py.nl]; lia. }
  assert (Herr : (String.length
                    (if Py.truthy (Py.strip stderr)
                     then Py.nl +:+ Shell.stderr_block stderr else EmptyString)
                  <= 531 + String.length (Py.str_of_int (Py.len stderr)))%nat).
  { destruct (Py.truthy (Py.strip stderr)); [| cbn; lia].
    rewrite stderr_block_layout. unfold stderr_header.
    rewrite !length_app_str. pose proof (slice_to_length 500 stderr).
    destruct (500 <? Py.len stderr); cbn [String.length Py.nl]; lia. }
  rewrite !length_app_str.
  change (String.length "Command exited with code ") with 25%nat.
  change (String.length ".") with 1%nat.
  change (String.length Py.nl) with 1%nat.
  lia.
Qed.

(** ** A whole run of the shell pipeline *)

(** The attempts of the [k]-th dispatched stage that the [schedule]
    loses, for a stage dispatched under [opts]. *)
Definition lost_attempts (opts : Temporal.ActivityOptions)
    (schedule : list (list Temporal.lost)) (k : nat) : nat :=
  length (List.filter (Temporal.applies opts) (nth k schedule [])).

Lemma schedule_nth (schedule : list (list Temporal.lost)) :
  hd [] schedule = nth 0 schedule []
  /\ hd [] (tl schedule) = nth 1 schedule []
  /\ hd [] (tl (tl schedule)) = nth 2 schedule [].
Proof. destruct schedule as [|a [|b [|c s]]]; repeat split. Qed.

(** A run of [ShellCommandWorkflow] returns exactly what the command left
    behind.  Under any fault schedule, a run that returns has validated a
    command that is not blank, has spawned [sh -c] on it once per
    attempt, and its result holds the decoded streams of the process,
    its return code and the summary built from them, after all three
    stages were dispatched; this happens whenever the process can be
    spawned and the engine loses no validate attempt, at most two execute
    attempts and at most one structure attempt.  A run that fails has a
    blank command, a process that could not be spawned, or more lost
    attempts than that. *)
Theorem command_run_end_to_end
    (create_subprocess_exec : list string -> res CompletedProcess)
    (decode : list Byte.byte -> string)
    (cmd_input : Shell.ShellCommandInput) (schedule : list (list Temporal.lost)) :
  let run :=
    Temporal.execute
      (Shell.ShellCommandWorkflow_run create_subprocess_exec decode cmd_input) schedule in
  let argv := ["sh"; "-c"; Shell.command cmd_input] in
  let tolerated :=
    lost_attempts Shell.validate_options schedule 0 = 0%nat
    /\ (lost_attempts Shell.execute_options schedule 1 <= 2)%nat
    /\ (lost_attempts Shell.structure_options schedule 2 <= 1)%nat in
  match run.2 with
  | Ok out =>
      ~ blank (Shell.command cmd_input)
      /\ tolerated
      /\ map Temporal.d_name run.1
         = ["validate_command"; "run_shell_command"; "format_output"]
      /\ exists proc,
           create_subprocess_exec argv = Ok proc
           /\ Shell.f_stdout out = decode (stdout_bytes proc)
           /\ Shell.f_stderr out = decode (stderr_bytes proc)
           /\ Shell.f_exit_code out = returncode proc
           /\ Shell.f_summary out
              = Py.join Py.nl
                  (Shell.summary_parts (decode (stdout_bytes proc))
                     (decode (stderr_bytes proc)) (returncode proc))
  | Raise _ =>
      blank (Shell.command cmd_input)
      \/ (exists e, create_subprocess_exec argv = Raise e)
      \/ ~ tolerated
  end.
Proof.
  intros run argv tolerated. subst run tolerated. unfold lost_attempts.
  destruct (schedule_nth schedule) as (<- & <- & <-).
  unfold Shell.ShellCommandWorkflow_run. cbn [Temporal.execute].
  unfold Temporal.run_stage.
  unfold Temporal.run_stage.
  change (Temporal.budget Shell.validate_options) with 1%nat.
  destruct (Nat.ltb_spec
              (length (List.filter (Temporal.applies Shell.validate_options)
                         (hd [] schedule))) 1) as [H1 | H1];
    [| cbn [snd]; right; right; lia].
  unfold Shell.validate_command.
  destruct (Py.truthy (Py.strip (Shell.command cmd_input))) eqn:Hcmd; cbn [negb].
  2:{ cbn [snd]. left. now apply strip_falsy. }
  apply strip_truthy in Hcmd.
  unfold Temporal.run_stage.
  change (Temporal.budget Shell.execute_options) with 3%nat.
  destruct (Nat.ltb_spec
              (length (List.filter (Temporal.applies Shell.execute_options)
                         (hd [] (tl schedule)))) 3) as [H2 | H2];
    [| cbn [snd]; right; right; lia].
  unfold Shell.run_shell_command, Shell.cmd. fold argv.
  destruct (create_subprocess_exec argv) as [proc|e] eqn:Hproc;
    cbn [mbind res_mbind res_bind];
    [| cbn [snd]; right; left; now exists e].
  unfold Temporal.run_stage.
  change (Temporal.budget Shell.structure_options) with 2%nat.
  destruct (Nat.ltb_spec
              (length (List.filter (Temporal.applies Shell.structure_options)
                         (hd [] (tl (tl schedule))))) 2) as [H3 | H3];
    [| cbn [snd]; right; right; lia].
  cbn [Shell.format_output snd fst map Temporal.d_name].
  split; [exact Hcmd | split; [lia | split; [reflexivity |]]].
  exists proc. repeat split; reflexivity.
Qed.

(** ** From validated input to the argument vector *)

Section TokenChars.

(** A property of characters that holds of every character read. *)
Variable P : ascii -> Prop.

Definition all_chars (s : string) : Prop := Forall P (Py.chars s).

(** What the lexer holds is made of characters it has read: the token
    under construction, and the escape character it is in the middle
    of. *)
Definition lexer_ok (lx : Shlex.lexer) : Prop :=
  all_chars (Shlex.token lx)
  /\ match Shlex.state lx with Shlex.St_escape e => P e | _ => True end.

Lemma all_chars_snoc (t : string) (c : ascii) :
  all_chars t -> P c -> all_chars (t +:+ String c EmptyString).
Proof.
  intros Htok Hc. unfold all_chars. rewrite chars_app.
  apply Forall_app. split; [exact Htok | now repeat constructor].
Qed.

(** The escaped state is never an escape state. *)
Definition escaped_ok (lx : Shlex.lexer) : Prop :=
  match Shlex.escapedstate lx with Shlex.St_escape _ => False | _ => True end.

Lemma step_ok (lx lx' : Shlex.lexer) (c : ascii) :
  lexer_ok lx -> escaped_ok lx -> P c ->
  Shlex.step lx (Some c) = Shlex.Continue lx' \/ Shlex.step lx (Some c) = Shlex.Break lx' ->
  lexer_ok lx' /\ escaped_ok lx'.
Proof.
  intros [Htok Hstate] Hesc Hc. unfold Shlex.step, lexer_ok, escaped_ok in *.
  destruct lx as [st tok q es]; cbn [Shlex.state Shlex.token Shlex.quoted
    Shlex.escapedstate] in *.
  destruct st as [| | |quote|e].
  - intros [[=] | [= <-]]. cbn. split; [split; [constructor | exact I] | exact Hesc].
  - destruct (Shlex.whitespace c).
    + destruct (Shlex.emit _); intros [[= <-] | [= <-]]; cbn; auto.
    + destruct (Shlex.escape c); [intros [[= <-] | [=]]; cbn; auto |].
      destruct (Shlex.quotes c); intros [[= <-] | [=]]; cbn; auto.
      split; [split; [now repeat constructor | exact I] | exact Hesc].
  - destruct (Shlex.whitespace c).
    + destruct (Shlex.emit _); intros [[= <-] | [= <-]]; cbn; auto.
    + destruct (Shlex.quotes c); [intros [[= <-] | [=]]; cbn; auto |].
      destruct (Shlex.escape c); intros [[= <-] | [=]]; cbn; auto.
      split; [split; [now apply all_chars_snoc | exact I] | exact Hesc].
  - destruct (Ascii.eqb c quote); [intros [[= <-] | [=]]; cbn; auto |].
    destruct (_ && _); intros [[= <-] | [=]]; cbn; auto.
    split; [split; [now apply all_chars_snoc | exact I] | exact Hesc].
  - intros [[= <-] | [=]]. cbn [Shlex.state Shlex.token Shlex.escapedstate].
    split; [| exact Hesc]. split.
    + destruct (_ && _); apply all_chars_snoc; auto.
      unfold Shlex.push. cbn [Shlex.token]. now apply all_chars_snoc.
    + destruct es; auto. contradiction.
Qed.

Lemma step_eof_ok (lx lx' : Shlex.lexer) :
  lexer_ok lx ->
  Shlex.step lx None = Shlex.Continue lx' \/ Shlex.step lx None = Shlex.Break lx' ->
  all_chars (Shlex.token lx').
Proof.
  intros [Htok _]. unfold Shlex.step.
  destruct lx as [st tok q es]; cbn [Shlex.state Shlex.token Shlex.quoted
    Shlex.escapedstate] in *.
  destruct st; intros [[=] | [=]]; subst; cbn; auto. constructor.
Qed.

Lemma result_ok (lx : Shlex.lexer) (t : string) :
  all_chars (Shlex.token lx) -> Shlex.result lx = Some t -> all_chars t.
Proof. unfold Shlex.result. destruct (_ && _); [discriminate | now intros H [= <-]]. Qed.

Lemma run_ok (s : string) :
  forall lx acc tokens,
    lexer_ok lx -> escaped_ok lx -> all_chars s -> Forall all_chars acc ->
    Shlex.run lx s acc = Ok tokens -> Forall all_chars tokens.
Proof.
  induction s as [|c s IH]; intros lx acc tokens Hlx Hesc Hs Hacc; cbn [Shlex.run].
  - unfold Shlex.at_eof.
    destruct (Shlex.step lx None) as [lx'|lx'|msg] eqn:Hstep; [| | discriminate];
      (assert (all_chars (Shlex.token lx')) as Htok
         by (eapply step_eof_ok; [exact Hlx | rewrite Hstep; auto]));
      (destruct (Shlex.result lx') as [t|] eqn:Hres; intros [= <-]; [| exact Hacc]);
      (apply Forall_app; split; [exact Hacc |]);
      repeat constructor; eapply result_ok; eassumption.
  - unfold all_chars in Hs. rewrite chars_cons in Hs. inversion Hs as [|? ? Hc Hs']; subst.
    destruct (Shlex.step lx (Some c)) as [lx'|lx'|msg] eqn:Hstep; [| | discriminate].
    + destruct (step_ok lx lx' c Hlx Hesc Hc (or_introl Hstep)) as [Hlx' Hesc'].
      now apply IH.
    + destruct (step_ok lx lx' c Hlx Hesc Hc (or_intror Hstep)) as [Hlx' Hesc'].
      destruct (Shlex.result lx') as [t|] eqn:Hres; [| now intros [= <-]].
      apply IH; auto.
      * destruct Hlx' as [_ Hstate]. split; [constructor | exact Hstate].
      * exact I.
      * apply Forall_app. split; [exact Hacc |].
        repeat constructor. eapply result_ok; [apply Hlx' | exact Hres].
Qed.

End TokenChars.

(** [shlex.split] invents no character: every character of every token
    is a character of the string that was split. *)
Lemma split_chars (s : string) (tokens : list string) :
  Shlex.split s = Ok tokens ->
  Forall (fun t => forall c, In c (Py.chars t) -> In c (Py.chars s)) tokens.
Proof.
  intros Hsplit.
  pose proof (run_ok (fun c => In c (Py.chars s)) s Shlex.initial [] tokens) as Hrun.
  unfold all_chars in Hrun.
  eapply List.Forall_impl; [| apply Hrun; try exact Hsplit].
  - intros t Ht c Hc. rewrite List.Forall_forall in Ht. now apply Ht.
  - split; [constructor | exact I].
  - exact I.
  - apply List.Forall_forall. auto.
  - constructor.
Qed.

(** What reaches the host after validation.  For a scan input that
    [validate_scan_input] accepts, building the argument vector cannot
    raise; the vector is [nmap], the tokens of the option string, then
    [-oX], [-] and the target; every token is made of characters of the
    option string and names no deny-listed flag; and no element of the
    vector holds a deny-listed character. *)
Theorem validated_scan_argv (i : Nmap.NmapScanInput) :
  Nmap.validate_scan_input i = Ok true ->
  exists tokens,
    Nmap.cmd i = Ok (["nmap"] ++ tokens ++ ["-oX"; "-"; Nmap.target i])
    /\ Forall (fun t => ~ deny_listed_flag t
                        /\ forall c, In c (Py.chars t) -> In c (Py.chars (Nmap.nmap_args i)))
         tokens
    /\ Forall (fun a => ~ has_deny_listed_char a)
         (["nmap"] ++ tokens ++ ["-oX"; "-"; Nmap.target i])
    /\ ~ blank (Nmap.target i).
Proof.
  unfold Nmap.validate_scan_input, Nmap.cmd.
  destruct (Nmap.BLOCKED_METACHARACTERS_search (Nmap.target i)) eqn:Htarget;
    [discriminate |].
  destruct (Nmap.BLOCKED_METACHARACTERS_search (Nmap.nmap_args i)) eqn:Hargs;
    [discriminate |].
  assert (~ has_deny_listed_char (Nmap.target i)) as Hclean_target
      by (rewrite <- search_spec; congruence).
  assert (~ has_deny_listed_char (Nmap.nmap_args i)) as Hclean_args
      by (rewrite <- search_spec; congruence).
  destruct (Nmap.tokens_of (Nmap.nmap_args i)) as [tokens|e] eqn:Htok.
  2:{ destruct e; discriminate. }
  destruct (Nmap.check_tokens tokens) as [[]|e] eqn:Hchk; [| discriminate].
  cbn [mbind res_mbind res_bind].
  destruct (Py.truthy (Py.strip (Nmap.target i))) eqn:Hnonblank; [| discriminate].
  intros _. exists tokens. split; [reflexivity |].
  apply check_tokens_ok in Hchk. apply strip_truthy in Hnonblank.
  assert (Forall (fun t => forall c, In c (Py.chars t)
                                     -> In c (Py.chars (Nmap.nmap_args i))) tokens)
    as Hchars.
  { unfold Nmap.tokens_of in Htok.
    destruct (Py.truthy (Py.strip (Nmap.nmap_args i)));
      [now apply split_chars | injection Htok as <-; constructor]. }
  split; [| split; [| exact Hnonblank]].
  - rewrite List.Forall_forall in *. intros t Ht. split; [now apply Hchk | now apply Hchars].
  - apply Forall_app. split; [| apply Forall_app; split].
    + repeat constructor. rewrite <- search_spec. vm_compute. discriminate.
    + rewrite List.Forall_forall in *. intros t Ht (c & Hc & Hdeny).
      apply Hclean_args. exists c. split; [now apply (Hchars t) | exact Hdeny].
    + repeat constructor; try exact Hclean_target;
        rewrite <- search_spec; vm_compute; discriminate.
Qed.

(** A scan of the first thousand ports with version detection. *)
Definition version_scan : Nmap.NmapScanInput :=
  {| Nmap.target := "192.168.1.0/24";
     Nmap.nmap_args := "-sV -p 1-1000 --script 'banner'";
     Nmap.scan_id := "scan-0a1b2c3d4e5f" |}.

Lemma validated_scan_argv_witness :
  exists tokens,
    Nmap.cmd version_scan
    = Ok (["nmap"] ++ tokens ++ ["-oX"; "-"; "192.168.1.0/24"])
    /\ Forall (fun t => ~ deny_listed_flag t
                        /\ forall c, In c (Py.chars t)
                                     -> In c (Py.chars "-sV -p 1-1000 --script 'banner'"))
         tokens
    /\ Forall (fun a => ~ has_deny_listed_char a)
         (["nmap"] ++ tokens ++ ["-oX"; "-"; "192.168.1.0/24"])
    /\ ~ blank "192.168.1.0/24".
Proof.
  apply (validated_scan_argv version_scan). vm_compute. reflexivity.
Defined.

(** A character that continues a word for [shlex.split] and for
    [str.strip], is not deny-listed and is not [=]. *)
Definition plain_char (c : ascii) : bool :=
  negb (Py.isspace c) && negb (Shlex.quotes c) && negb (Shlex.escape c)
  && negb (existsb (Ascii.eqb c) Nmap.metacharacters) && negb (Ascii.eqb c "=").

Definition plain (s : string) : Prop := Forall (fun c => plain_char c = true) (Py.chars s).

Lemma plain_char_word (c : ascii) :
  plain_char c = true ->
  Shlex.whitespace c = false /\ Shlex.quotes c = false /\ Shlex.escape c = false.
Proof. each_char c; intuition congruence. Qed.

Lemma run_word (s : string) :
  forall tok es,
    plain s -> Py.truthy (tok +:+ s) = true ->
    Shlex.run (Shlex.Lexer Shlex.St_word tok false es) s [] = Ok [tok +:+ s].
Proof.
  induction s as [|c s IH]; intros tok es Hs Htok.
  - rewrite app_empty_r in *. cbn [Shlex.run]. unfold Shlex.at_eof, Shlex.step, Shlex.result.
    cbn [Shlex.state Shlex.token Shlex.quoted Shlex.escapedstate].
    now rewrite Htok.
  - unfold plain in Hs. rewrite chars_cons in Hs. inversion Hs as [|? ? Hc Hs']; subst.
    destruct (plain_char_word c Hc) as (Hw & Hq & He).
    cbn [Shlex.run]. unfold Shlex.step. cbn [Shlex.state]. rewrite Hw, Hq, He.
    unfold Shlex.push. cbn [Shlex.token Shlex.quoted Shlex.escapedstate].
    rewrite IH; [now rewrite app_assoc_str | exact Hs' |].
    rewrite app_assoc_str. exact Htok.
Qed.

(** A word of plain characters is one token. *)
Lemma split_word (w : string) :
  plain w -> w <> EmptyString -> Shlex.split w = Ok [w].
Proof.
  intros Hw Hne. destruct w as [|c w]; [congruence |].
  unfold plain in Hw. rewrite chars_cons in Hw. inversion Hw as [|? ? Hc Hw']; subst.
  destruct (plain_char_word c Hc) as (Hws & Hq & He).
  unfold Shlex.split, Shlex.initial. cbn [Shlex.run]. unfold Shlex.step.
  cbn [Shlex.state]. rewrite Hws, Hq, He.
  cbn [Shlex.token Shlex.quoted Shlex.escapedstate].
  now rewrite (run_word w (String c EmptyString) Shlex.St_white Hw').
Qed.

Lemma lower_app (a b : string) : Py.lower (a +:+ b) = Py.lower a +:+ Py.lower b.
Proof.
  induction a as [|c a IH]; [reflexivity |].
  rewrite app_cons. cbn [Py.lower]. now rewrite IH, app_cons.
Qed.

Lemma app_eq_self (a b : string) : a +:+ b = a -> b = EmptyString.
Proof.
  intros Heq. apply (f_equal String.length) in Heq. rewrite length_app_str in Heq.
  destruct b; [reflexivity | simpl in Heq; lia].
Qed.

(** No deny-listed flag begins another one. *)
Lemma deny_flags_prefix_free (flag other : string) :
  In flag deny_flags -> In other deny_flags ->
  String.prefix flag other = true -> other = flag.
Proof.
  unfold deny_flags. cbn [In].
  intros Hf Ho.
  repeat (destruct Hf as [<- | Hf]; [| try contradiction]);
    repeat (destruct Ho as [<- | Ho]; [| try contradiction]);
    vm_compute; congruence.
Qed.

Lemma plain_clean (s : string) : plain s -> ~ has_deny_listed_char s /\ no_eq_sign s.
Proof.
  unfold plain, no_eq_sign. rewrite List.Forall_forall. intros Hs. split.
  - rewrite <- search_spec. unfold Nmap.BLOCKED_METACHARACTERS_search.
    intros Hex. apply existsb_exists in Hex as (c & Hin & Hc).
    specialize (Hs c Hin). unfold plain_char in Hs. rewrite Hc in Hs.
    rewrite !andb_true_iff in Hs. cbn in Hs. intuition discriminate.
  - intros Hin. specialize (Hs _ Hin). vm_compute in Hs. discriminate.
Qed.

(** The flag check is an exact match, not a prefix match.  A token that
    continues a deny-listed flag (in any letter case) with further plain
    characters, such as an output flag with its file name attached, names
    no deny-listed flag for [validate_scan_input]: the input is accepted
    and the token reaches the argument vector unchanged. *)
Theorem extended_flag_passes (target name suffix scan_id : string) :
  In (Py.lower name) deny_flags ->
  suffix <> EmptyString ->
  plain (name +:+ suffix) ->
  ~ has_deny_listed_char target ->
  ~ blank target ->
  let i := {| Nmap.target := target;
              Nmap.nmap_args := name +:+ suffix;
              Nmap.scan_id := scan_id |} in
  Nmap.validate_scan_input i = Ok true
  /\ Nmap.cmd i = Ok ["nmap"; name +:+ suffix; "-oX"; "-"; target].
Proof.
  intros Hflag Hsuffix Hplain Htarget Hnonblank i.
  destruct (plain_clean _ Hplain) as [Hclean Hnoeq].
  assert (name <> EmptyString) as Hname.
  { intros ->. revert Hflag. vm_compute. intuition discriminate. }
  assert (Nmap.tokens_of (name +:+ suffix) = Ok [name +:+ suffix]) as Htok.
  { unfold Nmap.tokens_of.
    assert (~ blank (name +:+ suffix)) as Hb.
    { destruct name as [|c name]; [congruence |]. rewrite app_cons.
      unfold blank. rewrite chars_cons. inversion 1 as [|? ? Hc _]; subst.
      unfold plain in Hplain. rewrite app_cons, chars_cons in Hplain.
      inversion Hplain as [|? ? Hp _]; subst.
      unfold plain_char in Hp. rewrite Hc in Hp. discriminate. }
    apply strip_truthy in Hb. rewrite Hb. apply split_word; [exact Hplain |].
    destruct name; [congruence | discriminate]. }
  assert (~ deny_listed_flag (name +:+ suffix)) as Hcanon.
  { rewrite <- canonical_spec, blocked_flags_spec. unfold Nmap.canonical.
    destruct (split1_head_unique (name +:+ suffix) EmptyString Hnoeq) as [-> _].
    rewrite lower_app. intros Hin.
    pose proof (deny_flags_prefix_free _ _ Hflag Hin (prefix_app _ _)) as Heq.
    apply app_eq_self in Heq. destruct suffix; [congruence | discriminate]. }
  split.
  - unfold Nmap.validate_scan_input, i. cbn [Nmap.target Nmap.nmap_args].
    rewrite <- search_spec in Htarget, Hclean.
    apply not_true_is_false in Htarget, Hclean. rewrite Htarget, Hclean, Htok.
    assert (Nmap.check_tokens [name +:+ suffix] = Ok tt) as ->
        by (apply check_tokens_ok; now repeat constructor).
    apply strip_truthy in Hnonblank. cbn [mbind res_mbind res_bind].
    now rewrite Hnonblank.
  - unfold Nmap.cmd, i. cbn [Nmap.target Nmap.nmap_args]. now rewrite Htok.
Qed.

Lemma extended_flag_passes_witness :
  Nmap.validate_scan_input
    {| Nmap.target := "scanme.nmap.org";
       Nmap.nmap_args := "-oN" +:+ "/tmp/report";
       Nmap.scan_id := "scan-0a1b2c3d4e5f" |} = Ok true
  /\ Nmap.cmd
       {| Nmap.target := "scanme.nmap.org";
          Nmap.nmap_args := "-oN" +:+ "/tmp/report";
          Nmap.scan_id := "scan-0a1b2c3d4e5f" |}
     = Ok ["nmap"; "-oN" +:+ "/tmp/report"; "-oX"; "-"; "scanme.nmap.org"].
Proof.
  apply (extended_flag_passes "scanme.nmap.org" "-oN" "/tmp/report" "scan-0a1b2c3d4e5f").
  - vm_compute. tauto.
  - discriminate.
  - unfold plain. apply List.Forall_forall. intros c Hc. vm_compute in Hc.
    repeat (destruct Hc as [<- | Hc]; [reflexivity |]). contradiction.
  - rewrite <- search_spec. vm_compute. discriminate.
  - rewrite <- strip_truthy. reflexivity.
Defined.

(** The servers' default option strings pass validation: for every
    target without deny-listed character that is not blank, a scan
    started with [-sT --top-ports 100] (the default of [start_nmap_scan])
    or [-sT --top-ports 20] (the default of [run_quick_scan]) is accepted
    and runs [nmap -sT --top-ports N -oX - target]. *)
Theorem default_args_accepted (target scan_id : string) :
  ~ has_deny_listed_char target ->
  ~ blank target ->
  let start := {| Nmap.target := target;
                  Nmap.nmap_args := NmapServer.start_default_args;
                  Nmap.scan_id := scan_id |} in
  let quick := {| Nmap.target := target;
                  Nmap.nmap_args := NmapServer.quick_default_args;
                  Nmap.scan_id := scan_id |} in
  Nmap.validate_scan_input start = Ok true
  /\ Nmap.cmd start = Ok ["nmap"; "-sT"; "--top-ports"; "100"; "-oX"; "-"; target]
  /\ Nmap.validate_scan_input quick = Ok true
  /\ Nmap.cmd quick = Ok ["nmap"; "-sT"; "--top-ports"; "20"; "-oX"; "-"; target].
Proof.
  intros Htarget Hnonblank start quick.
  rewrite <- search_spec in Htarget. apply not_true_is_false in Htarget.
  apply strip_truthy in Hnonblank.
  assert (Nmap.tokens_of NmapServer.start_default_args
          = Ok ["-sT"; "--top-ports"; "100"]) as Hstart by reflexivity.
  assert (Nmap.tokens_of NmapServer.quick_default_args
          = Ok ["-sT"; "--top-ports"; "20"]) as Hquick by reflexivity.
  assert (Nmap.check_tokens ["-sT"; "--top-ports"; "100"] = Ok tt) as Hc1
      by (vm_compute; reflexivity).
  assert (Nmap.check_tokens ["-sT"; "--top-ports"; "20"] = Ok tt) as Hc2
      by (vm_compute; reflexivity).
  unfold Nmap.validate_scan_input, Nmap.cmd, start, quick.
  cbn [Nmap.target Nmap.nmap_args].
  rewrite Htarget, Hstart, Hquick, Hc1, Hc2.
  assert (Nmap.BLOCKED_METACHARACTERS_search NmapServer.start_default_args = false)
    as -> by reflexivity.
  assert (Nmap.BLOCKED_METACHARACTERS_search NmapServer.quick_default_args = false)
    as -> by reflexivity.
  cbn [mbind res_mbind res_bind]. rewrite Hnonblank. repeat split.
Qed.

Lemma default_args_accepted_witness :
  Nmap.validate_scan_input
    {| Nmap.target := "10.0.0.7"; Nmap.nmap_args := "-sT --top-ports 100";
       Nmap.scan_id := "scan-0a1b2c3d4e5f" |} = Ok true
  /\ Nmap.cmd
       {| Nmap.target := "10.0.0.7"; Nmap.nmap_args := "-sT --top-ports 100";
          Nmap.scan_id := "scan-0a1b2c3d4e5f" |}
     = Ok ["nmap"; "-sT"; "--top-ports"; "100"; "-oX"; "-"; "10.0.0.7"]
  /\ Nmap.validate_scan_input
       {| Nmap.target := "10.0.0.7"; Nmap.nmap_args := "-sT --top-ports 20";
          Nmap.scan_id := "scan-0a1b2c3d4e5f" |} = Ok true
  /\ Nmap.cmd
       {| Nmap.target := "10.0.0.7"; Nmap.nmap_args := "-sT --top-ports 20";
          Nmap.scan_id := "scan-0a1b2c3d4e5f" |}
     = Ok ["nmap"; "-sT"; "--top-ports"; "20"; "-oX"; "-"; "10.0.0.7"].
Proof.
  apply (default_args_accepted "10.0.0.7" "scan-0a1b2c3d4e5f").
  - rewrite <- search_spec. vm_compute. discriminate.
  - rewrite <- strip_truthy. reflexivity.
Defined.

(** ** The parser of scan reports *)

Lemma int_raises (s : string) (e : exn) :
  PyInt.int s = Raise e -> exists msg, e = ValueError msg.
Proof.
  assert (Hmag : forall cs r, PyInt.magnitude s cs = Raise r -> exists msg, r = ValueError msg).
  { intros cs r. unfold PyInt.magnitude, PyInt.invalid_literal, PyInt.too_long.
    destruct (PyInt.digits cs 0 0 false) as [[v count]|]; [| intros [= <-]; eauto].
    destruct (_ <? _)%nat; [intros [= <-]; eauto | discriminate]. }
  unfold PyInt.int.
  destruct (Py.chars (Py.strip s)) as [|c cs];
    [unfold PyInt.invalid_literal; intros [= <-]; eauto |].
  destruct (Ascii.eqb c "-").
  - destruct (PyInt.magnitude s cs) as [v|r] eqn:Hm; [discriminate |].
    intros [= <-]. eauto.
  - destruct (Ascii.eqb c "+"); eauto.
Qed.

Lemma int_attr_raises (elem : ET.Element) (key : string) (e : exn) :
  Nmap.int_attr elem key = Raise e -> exists msg, e = ValueError msg.
Proof.
  unfold Nmap.int_attr. destruct (ET.attrib elem !! key); [apply int_raises | discriminate].
Qed.

(** The loop over elements, item by item: all the items in order, or the
    error of the first element that raises. *)
Lemma for_each_spec {A B : Type} (f : A -> res B) (l : list A) :
  match Nmap.for_each f l with
  | Ok bs => Forall2 (fun a b => f a = Ok b) l bs
  | Raise e => exists a, In a l /\ f a = Raise e
  end.
Proof.
  induction l as [|a l IH]; cbn [Nmap.for_each]; [constructor |].
  destruct (f a) as [b|e] eqn:Hfa; cbn [mbind res_mbind res_bind].
  - destruct (Nmap.for_each f l) as [bs|e]; cbn [mbind res_mbind res_bind].
    + now constructor.
    + destruct IH as (a' & Hin & Ha'). exists a'. split; [now right | exact Ha'].
  - exists a. split; [now left | exact Hfa].
Qed.

(** The attribute [key] of [elem] is absent or reads as an [int]. *)
Definition int_ok (elem : ET.Element) (key : string) : Prop :=
  is_ok (Nmap.int_attr elem key) = true.

(** The numbers of a report that the parser converts: the three host
    counts of [runstats/hosts], and the [portid] of every port. *)
Definition numbers_ok (root : ET.Element) : Prop :=
  (forall counts,
     (ET.find root "runstats" ≫= fun r => ET.find r "hosts") = Some counts ->
     int_ok counts "up" /\ int_ok counts "down" /\ int_ok counts "total")
  /\ Forall (fun host_elem =>
               Forall (fun port_elem => int_ok port_elem "portid")
                      (Nmap.grouped host_elem "ports" "port"))
            (ET.findall root "host").

(** What [parse_host] keeps of a [host] element. *)
Definition host_of (host_elem : ET.Element) (h : Nmap.Host) : Prop :=
  Nmap.parse_host host_elem = Ok h
  /\ length (Nmap.addresses h) = length (ET.findall host_elem "address")
  /\ length (Nmap.hostnames h) = length (Nmap.grouped host_elem "hostnames" "hostname")
  /\ length (Nmap.ports h) = length (Nmap.grouped host_elem "ports" "port")
  /\ length (Nmap.os_matches h) = length (Nmap.grouped host_elem "os" "osmatch")
  /\ (Nmap.status h = None <-> ET.find host_elem "status" = None).

Lemma parse_port_spec (port_elem : ET.Element) :
  match Nmap.parse_port port_elem with
  | Ok _ => int_ok port_elem "portid"
  | Raise e => ~ int_ok port_elem "portid" /\ exists msg, e = ValueError msg
  end.
Proof.
  unfold Nmap.parse_port, int_ok.
  destruct (Nmap.int_attr port_elem "portid") as [v|e] eqn:Hint;
    cbn [mbind res_mbind res_bind is_ok]; [reflexivity |].
  split; [discriminate | eapply int_attr_raises; eassumption].
Qed.

Lemma parse_host_spec (host_elem : ET.Element) :
  match Nmap.parse_host host_elem with
  | Ok h =>
      host_of host_elem h
      /\ Forall (fun port_elem => int_ok port_elem "portid")
                (Nmap.grouped host_elem "ports" "port")
  | Raise e =>
      ~ Forall (fun port_elem => int_ok port_elem "portid")
               (Nmap.grouped host_elem "ports" "port")
      /\ exists msg, e = ValueError msg
  end.
Proof.
  unfold host_of. unfold Nmap.parse_host.
  pose proof (for_each_spec Nmap.parse_port (Nmap.grouped host_elem "ports" "port"))
    as Hports.
  destruct (Nmap.for_each Nmap.parse_port _) as [ports|e];
    cbn [mbind res_mbind res_bind].
  - cbn [Nmap.addresses Nmap.hostnames Nmap.ports Nmap.os_matches Nmap.status].
    split.
    + split; [reflexivity |]. rewrite !length_fmap.
      split; [reflexivity | split; [reflexivity | split; [| split; [reflexivity |]]]].
      * symmetry. eapply Forall2_length. exact Hports.
      * destruct (ET.find host_elem "status"); cbn; split; congruence.
    + induction Hports as [|p b ps bs Hp _ IH]; [constructor |].
      constructor; [| exact IH].
      pose proof (parse_port_spec p) as Hspec. now rewrite Hp in Hspec.
  - destruct Hports as (p & Hin & Hp).
    pose proof (parse_port_spec p) as Hspec. rewrite Hp in Hspec.
    destruct Hspec as [Hbad Hmsg]. split; [| exact Hmsg].
    rewrite List.Forall_forall. intros Hall. apply Hbad. now apply Hall.
Qed.

Lemma parse_scan_info_spec (root : ET.Element) :
  let hosts_elem := ET.find root "runstats" ≫= fun r => ET.find r "hosts" in
  let counted :=
    forall counts, hosts_elem = Some counts ->
                   int_ok counts "up" /\ int_ok counts "down" /\ int_ok counts "total" in
  match Nmap.parse_scan_info root with
  | Ok info =>
      counted
      /\ (Nmap.hosts_up info = None <-> hosts_elem = None)
      /\ (Nmap.hosts_total info = None <-> hosts_elem = None)
  | Raise e => ~ counted /\ exists msg, e = ValueError msg
  end.
Proof.
  intros hosts_elem counted. subst counted. unfold Nmap.parse_scan_info. fold hosts_elem.
  destruct hosts_elem as [h|]; unfold int_ok.
  2:{ cbn. split; [discriminate | split; split; congruence]. }
  destruct (Nmap.int_attr h "up") as [up|e] eqn:Hup; cbn [mbind res_mbind res_bind].
  2:{ split; [| eapply int_attr_raises; eassumption].
      intros Hall. destruct (Hall h eq_refl) as (H & _). rewrite Hup in H. discriminate. }
  destruct (Nmap.int_attr h "down") as [down|e] eqn:Hdown; cbn [mbind res_mbind res_bind].
  2:{ split; [| eapply int_attr_raises; eassumption].
      intros Hall. destruct (Hall h eq_refl) as (_ & H & _). rewrite Hdown in H.
      discriminate. }
  destruct (Nmap.int_attr h "total") as [total|e] eqn:Htotal;
    cbn [mbind res_mbind res_bind].
  2:{ split; [| eapply int_attr_raises; eassumption].
      intros Hall. destruct (Hall h eq_refl) as (_ & _ & H). rewrite Htotal in H.
      discriminate. }
  cbn [Nmap.hosts_up Nmap.hosts_total fst snd].
  split; [| split; split; discriminate].
  intros counts [= <-]. rewrite Hup, Hdown, Htotal. repeat split.
Qed.

(** From the element tree on, [parse_nmap_xml] can only fail on a
    number.  It returns exactly when the three host counts of
    [runstats/hosts] and the [portid] of every port are absent or read as
    an [int]; the result then has one host per [host] element, in
    document order, each with one entry per address, host name, port and
    OS match of its element.  Otherwise it raises a [ValueError]: missing
    elements and attributes never make it fail. *)
Theorem parse_root_spec (root : ET.Element) :
  match Nmap.parse_root root with
  | Ok parsed =>
      numbers_ok root
      /\ Forall2 host_of (ET.findall root "host") (Nmap.hosts parsed)
      /\ Nmap.summary parsed
         = Py.join Py.nl (Nmap.summary_parts (Nmap.scan_info parsed) (Nmap.hosts parsed))
  | Raise e => ~ numbers_ok root /\ exists msg, e = ValueError msg
  end.
Proof.
  unfold Nmap.parse_root, numbers_ok.
  pose proof (parse_scan_info_spec root) as Hinfo. cbn zeta in Hinfo.
  destruct (Nmap.parse_scan_info root) as [info|e]; cbn [mbind res_mbind res_bind].
  2:{ destruct Hinfo as [Hbad Hmsg]. split; [tauto | exact Hmsg]. }
  destruct Hinfo as (Hcounted & _).
  pose proof (for_each_spec Nmap.parse_host (ET.findall root "host")) as Hhosts.
  destruct (Nmap.for_each Nmap.parse_host _) as [hs|e]; cbn [mbind res_mbind res_bind].
  - cbn [Nmap.hosts Nmap.summary Nmap.scan_info].
    assert (Forall2 (fun elem h =>
                       host_of elem h
                       /\ Forall (fun port_elem => int_ok port_elem "portid")
                                 (Nmap.grouped elem "ports" "port"))
                    (ET.findall root "host") hs) as Hall.
    { induction Hhosts as [|elem h elems hs' Hh _ IH]; [constructor |].
      constructor; [| exact IH].
      pose proof (parse_host_spec elem) as Hspec. now rewrite Hh in Hspec. }
    clear Hhosts.
    split; [split; [exact Hcounted |] | split; [| reflexivity]].
    + induction Hall as [|elem h elems hs' [_ Hp] _ IH]; constructor; assumption.
    + induction Hall as [|elem h elems hs' [Hh _] _ IH]; constructor; assumption.
  - destruct Hhosts as (elem & Hin & Helem).
    pose proof (parse_host_spec elem) as Hspec. rewrite Helem in Hspec.
    destruct Hspec as [Hbad Hmsg]. split; [| exact Hmsg].
    intros [_ Hall]. rewrite List.Forall_forall in Hall. now apply Hbad, Hall.
Qed.

Lemma truthy_app (a b : string) : Py.truthy (a +:+ b) = Py.truthy a || Py.truthy b.
Proof. destruct a; [now rewrite app_empty_l | now rewrite app_cons]. Qed.

Lemma port_entry_truthy (p : Nmap.Port) : Py.truthy (Nmap.port_entry p) = true.
Proof.
  unfold Nmap.port_entry. rewrite !truthy_app. cbn [Py.truthy]. now rewrite !orb_true_r.
Qed.

Lemma join_entries_truthy (ports : list Nmap.Port) :
  Py.truthy (Py.join ", " (Nmap.port_entry <$> ports))
  = match ports with [] => false | _ => true end.
Proof.
  destruct ports as [|p [|q ports]]; [reflexivity | apply port_entry_truthy |].
  cbn [fmap list_fmap Py.join]. rewrite truthy_app, port_entry_truthy. reflexivity.
Qed.

Lemma filter_open_nil (ports : list Nmap.Port) :
  List.filter Nmap.is_open ports = []
  <-> Forall (fun p => Nmap.state p <> Some "open") ports.
Proof.
  induction ports as [|p ports IH]; cbn [List.filter]; [split; [constructor | reflexivity] |].
  rewrite is_open_spec. case_bool_decide as Hopen.
  - split; [discriminate | inversion 1; contradiction].
  - rewrite IH. split; [now constructor | now inversion 1].
Qed.

(** The second line of a host in the digest.  For a host that
    [parse_host] returns, the line after the host header is
    [No open ports found.] exactly when no port of the host has the state
    [open] (in particular when the host element has no [ports] child, or
    its ports have no [state] child); otherwise it is [Open ports:]
    followed by the open-ports summary. *)
Theorem ports_line_spec (host_elem : ET.Element) (h : Nmap.Host) (i : Z) :
  Nmap.parse_host host_elem = Ok h ->
  exists header line guesses,
    Nmap.host_lines i h = header :: line :: guesses
    /\ (line = "  No open ports found."
        <-> Forall (fun p => Nmap.state p <> Some "open") (Nmap.ports h))
    /\ (line <> "  No open ports found."
        -> line = "  Open ports: " +:+ Nmap.open_ports_summary h)
    /\ (ET.find host_elem "ports" = None -> line = "  No open ports found.").
Proof.
  intros Hparse. unfold Nmap.host_lines. cbn [app]. eexists _, _, _.
  split; [reflexivity |].
  assert (Nmap.open_ports_summary h
          = Py.join ", " (Nmap.port_entry <$> List.filter Nmap.is_open (Nmap.ports h)))
    as Hsum.
  { unfold Nmap.parse_host in Hparse.
    destruct (Nmap.for_each Nmap.parse_port _) as [ports|e];
      cbn [mbind res_mbind res_bind] in Hparse; [| discriminate].
    now injection Hparse as <-. }
  assert (ET.find host_elem "ports" = None -> Nmap.ports h = []) as Hnone.
  { intros Hfind. unfold Nmap.parse_host, Nmap.grouped in Hparse. rewrite Hfind in Hparse.
    cbn in Hparse. now injection Hparse as <-. }
  rewrite Hsum, join_entries_truthy, <- filter_open_nil.
  destruct (List.filter Nmap.is_open (Nmap.ports h)) as [|p ps] eqn:Hopen.
  - split; [tauto | split; [congruence |]]. reflexivity.
  - split; [split; [intros Heq; vm_compute in Heq; discriminate | discriminate] |].
    split; [reflexivity |].
    intros Hfind. rewrite (Hnone Hfind) in Hopen. discriminate.
Qed.

Definition tagged (tag : string) (attrib : list (string * string))
    (children : list ET.Element) : ET.Element :=
  ET.Elem tag (list_to_map attrib) children.

(** A host with one filtered port and one port without [state] child. *)
Definition quiet_host : ET.Element :=
  tagged "host" []
    [ tagged "status" [("state", "up")] [];
      tagged "address" [("addr", "10.0.0.7"); ("addrtype", "ipv4")] [];
      tagged "ports" []
        [ tagged "port" [("portid", "443"); ("protocol", "tcp")]
            [ tagged "state" [("state", "filtered")] [] ];
          tagged "port" [("portid", "8080"); ("protocol", "tcp")] [] ] ].

Lemma ports_line_spec_witness :
  exists h header guesses,
    Nmap.parse_host quiet_host = Ok h
    /\ length (Nmap.ports h) = 2%nat
    /\ Nmap.host_lines 0 h = header :: "  No open ports found." :: guesses.
Proof.
  destruct (Nmap.parse_host quiet_host) as [h|e] eqn:Hparse;
    [| vm_compute in Hparse; discriminate].
  destruct (ports_line_spec quiet_host h 0 Hparse)
    as (header & line & guesses & Hlines & Hnone & _).
  exists h, header, guesses. split; [reflexivity |].
  assert (Nmap.state <$> Nmap.ports h = [Some "filtered"; None]) as Hstates.
  { vm_compute in Hparse. injection Hparse as <-. reflexivity. }
  split.
  - apply (f_equal length) in Hstates. now rewrite length_fmap in Hstates.
  - rewrite Hlines. f_equal. f_equal. apply Hnone.
    destruct (Nmap.ports h) as [|p [|q [|r ps]]]; try discriminate.
    injection Hstates as Hp Hq. repeat constructor; congruence.
Defined.

(** The header line of the [k]-th host of the digest, [k] from 0. *)
Definition host_header (k : nat) (h : Nmap.Host) : string :=
  Py.nl +:+ "Host " +:+ Py.str_of_int (Z.of_nat k + 1) +:+ ": " +:+ Nmap.host_label h
    +:+ " [" +:+ default "?" (Nmap.status h) +:+ "]".

(** The number of lines a host adds to the digest. *)
Definition host_line_count (h : Nmap.Host) : nat :=
  (2 + Nat.min 3 (length (Nmap.os_matches h)))%nat.

Lemma hosts_lines_spec (hs : list Nmap.Host) :
  forall i : nat,
    length (Nmap.hosts_lines (Z.of_nat i) hs)
    = list_sum (host_line_count <$> hs)
    /\ forall k h, hs !! k = Some h ->
                   In (host_header (i + k) h) (Nmap.hosts_lines (Z.of_nat i) hs).
Proof.
  induction hs as [|h hs IH]; intros i; cbn [Nmap.hosts_lines].
  - split; [reflexivity | intros k h' Hk; discriminate].
  - assert (Z.of_nat i + 1 = Z.of_nat (S i)) as Hnext by lia.
    destruct (IH (S i)) as [Hlen Hin]. split.
    + rewrite Hnext, length_app, Hlen. cbn [fmap list_fmap list_sum]. f_equal.
      unfold Nmap.host_lines, host_line_count.
      rewrite !length_app, length_fmap, length_take. reflexivity.
    + intros [|k] h' Hk; apply in_or_app.
      * injection Hk as <-. left. rewrite Nat.add_0_r. left. reflexivity.
      * right. rewrite Hnext. replace (i + S k)%nat with (S i + k)%nat by lia.
        now apply Hin.
Qed.

(** The shape of the digest of a parsed report.  Its first line gives
    the host counts, each shown as [?] when the report has no
    [runstats/hosts] element; every host of the result has its header
    line, numbered from 1 in result order; and each host adds two lines
    and one line per OS match up to three, while the result itself keeps
    every OS match. *)
Theorem digest_shape (root : ET.Element) (parsed : Nmap.Parsed) :
  Nmap.parse_root root = Ok parsed ->
  let parts := Nmap.summary_parts (Nmap.scan_info parsed) (Nmap.hosts parsed) in
  Nmap.summary parsed = Py.join Py.nl parts
  /\ ((ET.find root "runstats" ≫= fun r => ET.find r "hosts") = None ->
      hd EmptyString parts = "Nmap scan completed. ? host(s) up out of ? scanned.")
  /\ (forall k h, Nmap.hosts parsed !! k = Some h -> In (host_header k h) parts)
  /\ length parts = (1 + list_sum (host_line_count <$> Nmap.hosts parsed))%nat
  /\ Forall2 (fun host_elem h =>
                length (Nmap.os_matches h)
                = length (Nmap.grouped host_elem "os" "osmatch"))
       (ET.findall root "host") (Nmap.hosts parsed).
Proof.
  intros Hparse parts. subst parts.
  pose proof (parse_root_spec root) as Hspec. rewrite Hparse in Hspec.
  destruct Hspec as (_ & Hhosts & Hsummary).
  split; [exact Hsummary |].
  destruct (hosts_lines_spec (Nmap.hosts parsed) 0) as [Hlen Hin].
  change (Z.of_nat 0) with 0 in Hlen, Hin.
  unfold Nmap.summary_parts. cbn [app hd length In].
  split; [| split; [| split]].
  - intros Hnone. unfold Nmap.parse_root in Hparse.
    pose proof (parse_scan_info_spec root) as Hinfo. cbn zeta in Hinfo.
    destruct (Nmap.parse_scan_info root) as [info|e];
      cbn [mbind res_mbind res_bind] in Hparse; [| discriminate].
    destruct (Nmap.for_each Nmap.parse_host _) as [hs|e];
      cbn [mbind res_mbind res_bind] in Hparse; [| discriminate].
    injection Hparse as <-. cbn [Nmap.scan_info].
    destruct Hinfo as (_ & Hup & Htotal).
    rewrite (proj2 Hup Hnone), (proj2 Htotal Hnone). reflexivity.
  - intros k h Hk. right. apply (Hin k h Hk).
  - now rewrite Hlen.
  - eapply Forall2_impl; [exact Hhosts |].
    intros elem h (_ & _ & _ & _ & Hos & _). exact Hos.
Qed.

(** A report without run statistics, with two hosts, the first with four
    OS matches. *)
Definition two_hosts_report : ET.Element :=
  tagged "nmaprun" [("scanner", "nmap")]
    [ tagged "host" []
        [ tagged "address" [("addr", "10.0.0.1")] [];
          tagged "os" []
            [ tagged "osmatch" [("name", "Linux 5.x"); ("accuracy", "98")] [];
              tagged "osmatch" [("name", "Linux 4.x"); ("accuracy", "95")] [];
              tagged "osmatch" [("name", "Linux 3.x"); ("accuracy", "90")] [];
              tagged "osmatch" [("name", "FreeBSD 13"); ("accuracy", "85")] [] ] ];
      tagged "host" [] [ tagged "address" [("addr", "10.0.0.2")] [] ] ].

Lemma digest_shape_witness :
  exists parsed,
    Nmap.parse_root two_hosts_report = Ok parsed
    /\ hd EmptyString (Nmap.summary_parts (Nmap.scan_info parsed) (Nmap.hosts parsed))
       = "Nmap scan completed. ? host(s) up out of ? scanned."
    /\ length (Nmap.summary_parts (Nmap.scan_info parsed) (Nmap.hosts parsed))
       = (1 + list_sum (host_line_count <$> Nmap.hosts parsed))%nat.
Proof.
  destruct (Nmap.parse_root two_hosts_report) as [parsed|e] eqn:Hparse;
    [| vm_compute in Hparse; discriminate].
  destruct (digest_shape two_hosts_report parsed Hparse) as (_ & Hhead & _ & Hlen & _).
  exists parsed. split; [reflexivity | split; [| exact Hlen]].
  apply Hhead. reflexivity.
Defined.

(** ** A whole run of the scan pipeline *)

(** A run of [NmapScanWorkflow] returns the parsed report of the scan it
    validated.  Under any fault schedule, a run that returns has accepted
    the input, has spawned [nmap] on the tokens of the option string
    followed by [-oX - target], the process having exited with code 0 or
    printed something, and its result is what the parser makes of the
    decoded standard output, after all three stages were dispatched.
    This happens whenever the three stages return and the engine loses no
    validate attempt, at most two execute attempts and at most one
    structure attempt; a run that fails has a stage that raises, or more
    lost attempts than that. *)
Theorem scan_run_end_to_end
    (create_subprocess_exec : list string -> res CompletedProcess)
    (decode : list Byte.byte -> string)
    (fromstring : string -> res ET.Element)
    (scan_input : Nmap.NmapScanInput) (schedule : list (list Temporal.lost)) :
  let run :=
    Temporal.execute
      (Nmap.NmapScanWorkflow_run create_subprocess_exec decode fromstring scan_input)
      schedule in
  let execute := Nmap.run_nmap_scan create_subprocess_exec decode in
  let tolerated :=
    lost_attempts Nmap.validate_options schedule 0 = 0%nat
    /\ (lost_attempts Nmap.execute_options schedule 1 <= 2)%nat
    /\ (lost_attempts Nmap.structure_options schedule 2 <= 1)%nat in
  match run.2 with
  | Ok parsed =>
      Nmap.validate_scan_input scan_input = Ok true
      /\ tolerated
      /\ map Temporal.d_name run.1
         = ["validate_scan_input"; "run_nmap_scan"; "parse_nmap_xml"]
      /\ exists tokens proc root,
           Nmap.tokens_of (Nmap.nmap_args scan_input) = Ok tokens
           /\ create_subprocess_exec
                (["nmap"] ++ tokens ++ ["-oX"; "-"; Nmap.target scan_input]) = Ok proc
           /\ (returncode proc = 0 \/ ~ blank (decode (stdout_bytes proc)))
           /\ fromstring (decode (stdout_bytes proc)) = Ok root
           /\ Nmap.parse_root root = Ok parsed
  | Raise _ =>
      is_ok (Nmap.validate_scan_input scan_input) = false
      \/ is_ok (execute scan_input) = false
      \/ (exists raw_xml,
            execute scan_input = Ok raw_xml
            /\ is_ok (Nmap.parse_nmap_xml fromstring raw_xml) = false)
      \/ ~ tolerated
  end.
Proof.
  intros run execute tolerated. subst run execute tolerated. unfold lost_attempts.
  destruct (schedule_nth schedule) as (<- & <- & <-).
  unfold Nmap.NmapScanWorkflow_run. cbn [Temporal.execute].
  unfold Temporal.run_stage.
  change (Temporal.budget Nmap.validate_options) with 1%nat.
  change (Temporal.budget Nmap.execute_options) with 3%nat.
  change (Temporal.budget Nmap.structure_options) with 2%nat.
  destruct (Nat.ltb_spec
              (length (List.filter (Temporal.applies Nmap.validate_options)
                         (hd [] schedule))) 1) as [H1 | H1];
    [| cbn [snd]; do 3 right; lia].
  destruct (validate_scan_input_cases scan_input) as [Hvalid | (msg & Hinvalid)].
  2:{ rewrite Hinvalid. cbn [snd]. left. reflexivity. }
  rewrite Hvalid.
  destruct (Nat.ltb_spec
              (length (List.filter (Temporal.applies Nmap.execute_options)
                         (hd [] (tl schedule)))) 3) as [H2 | H2];
    [| cbn [snd]; do 3 right; lia].
  destruct (Nmap.run_nmap_scan create_subprocess_exec decode scan_input)
    as [raw_xml|e] eqn:Hrun; [| cbn [snd]; right; left; reflexivity].
  destruct (Nat.ltb_spec
              (length (List.filter (Temporal.applies Nmap.structure_options)
                         (hd [] (tl (tl schedule))))) 2) as [H3 | H3];
    [| cbn [snd]; do 3 right; lia].
  destruct (Nmap.parse_nmap_xml fromstring raw_xml) as [parsed|e] eqn:Hparse.
  2:{ cbn [snd]. right. right. left. exists raw_xml.
      split; [reflexivity | now rewrite Hparse]. }
  cbn [snd fst map Temporal.d_name].
  split; [reflexivity | split; [lia | split; [reflexivity |]]].
  unfold Nmap.run_nmap_scan, Nmap.cmd in Hrun.
  destruct (Nmap.tokens_of (Nmap.nmap_args scan_input)) as [tokens|e];
    cbn [mbind res_mbind res_bind] in Hrun; [| discriminate].
  destruct (create_subprocess_exec _) as [proc|e] eqn:Hproc;
    cbn [mbind res_mbind res_bind] in Hrun; [| discriminate].
  unfold Nmap.parse_nmap_xml in Hparse.
  destruct (negb (returncode proc =? 0)) eqn:Hcode;
    [destruct (Py.truthy (Py.strip (decode (stdout_bytes proc)))) eqn:Hout |];
    cbn [andb negb] in Hrun; try discriminate; injection Hrun as <-;
    (destruct (fromstring (decode (stdout_bytes proc))) as [root|e] eqn:Hroot;
     cbn [mbind res_mbind res_bind] in Hparse; [| discriminate]);
    exists tokens, proc, root;
    (split; [reflexivity | split; [exact Hproc | split; [| split; [exact Hroot | exact Hparse]]]]).
  - right. now apply strip_truthy.
  - left. apply negb_false_iff, Z.eqb_eq in Hcode. exact Hcode.
Qed.

(** ** Workers and servers *)

Lemma dispatched_names {I X Y : Type} (names : string * string * string)
    (validate : I -> res bool) (execute : I -> res X) (structure : X -> res Y)
    (input : I) (w : Temporal.workflow Y) (schedule : list (list Temporal.lost)) :
  orchestrated names validate execute structure input w ->
  Forall (fun d => In (Temporal.d_name d) [names.1.1; names.1.2; names.2])
         (Temporal.execute w schedule).1.
Proof.
  intros Horch. destruct (in_order _ _ _ _ _ _ _ _ (Horch schedule)) as (n & Hn & Hlog).
  revert Hlog. generalize (Temporal.execute w schedule).1 as log. intros log Hlog.
  assert (Forall (fun p => In p.1.1.1 [names.1.1; names.1.2; names.2])
                 (map policy_of log)) as Hall.
  { rewrite Hlog. apply Forall_take. unfold policy_table.
    apply List.Forall_forall. intros p Hp. cbn in Hp.
    destruct Hp as [<- | [<- | [<- | []]]]; cbn; auto. }
  rewrite List.Forall_map in Hall. exact Hall.
Qed.

(** Each worker serves its server.  The worker polls the task queue on
    which the server starts its runs (and the two queues differ), and
    under any fault schedule every activity that a run dispatches is one
    the worker of that queue has registered. *)
Theorem workers_serve_the_servers
    (create_subprocess_exec : list string -> res CompletedProcess)
    (decode : list Byte.byte -> string)
    (fromstring : string -> res ET.Element) :
  Worker.task_queue Worker.shell_worker = ShellServer.TASK_QUEUE
  /\ Worker.task_queue Worker.nmap_worker = NmapServer.TASK_QUEUE
  /\ ShellServer.TASK_QUEUE <> NmapServer.TASK_QUEUE
  /\ (forall cmd_input schedule,
        Forall (fun d => In (Temporal.d_name d) (Worker.activities Worker.shell_worker))
          (Temporal.execute
             (Shell.ShellCommandWorkflow_run create_subprocess_exec decode cmd_input)
             schedule).1)
  /\ (forall scan_input schedule,
        Forall (fun d => In (Temporal.d_name d) (Worker.activities Worker.nmap_worker))
          (Temporal.execute
             (Nmap.NmapScanWorkflow_run create_subprocess_exec decode fromstring scan_input)
             schedule).1).
Proof.
  split; [reflexivity | split; [reflexivity | split; [discriminate | split]]].
  - intros cmd_input schedule.
    apply (dispatched_names _ _ _ _ _ _ schedule
             (pipeline_policy_for_commands create_subprocess_exec decode cmd_input)).
  - intros scan_input schedule.
    apply (dispatched_names _ _ _ _ _ _ schedule
             (pipeline_policy_for_scans create_subprocess_exec decode fromstring scan_input)).
Qed.
